(** * MiniMax chat provider: protocol translation and stream reconstruction

    A shallow embedding of the TypeScript sources

    - [utils/TokenCounter.ts]              (module [TokenCounter]),
    - [api/types.ts]                       (module [Wire]),
    - [api/MiniMaxClient.ts]               (module [MiniMaxClient]),
    - [providers/MiniMaxAuthentication.ts] (module [MiniMaxAuthentication]),
    - [providers/MiniMaxProvider.ts]       (module [MiniMaxProvider]),
    - [extension.ts]                       (module [Extension]),

    then the vocabulary in which the specification is stated (module
    [Spec]), then its properties, proved about the embedding.

    Modelling conventions.
    - A JavaScript string is a [string]; one [ascii] stands for one code
      unit, so the model covers the code units 0..255.
    - A value of static type [unknown] is a [value]: the JSON data model
      extended with [undefined].  Objects are finite maps from property
      names to values.
    - A [Map<number, _>] is a finite map with integer keys.
    - Functions of the platform that the sources call but do not define
      ([JSON.parse], [JSON.stringify], [String], base64 encoding, the HTTP
      transport) are section variables; the properties hold for all of
      them.
    - [progress.report] appends to the list [reported] of the stream state;
      thrown errors are returned as values.
    - The secret storage and the notifications of the editor are the
      record [Vscode.Host], passed from call to call; what the user
      answers to a prompt is an argument of the function that prompts. *)

From stdpp Require Import gmap strings list fin_maps sorting.
From Stdlib Require Import Ascii ZArith Lia.

#[local] Set Warnings "-register-all".
#[local] Open Scope Z_scope.

(* ================================================================== *)
(** * JavaScript strings *)
(* ================================================================== *)

Module JsString.

(** [WhiteSpace] and [LineTerminator] code units below 256, the ones
    [String.prototype.trim] strips: TAB, LF, VT, FF, CR, SP, NBSP. *)
Definition isWhiteSpace (c : ascii) : bool :=
  match c with
  | "009" | "010" | "011" | "012" | "013" | " " | "160" => true
  | _ => false
  end%char.

Fixpoint trimStart (s : string) : string :=
  match s with
  | String c s' => if isWhiteSpace c then trimStart s' else s
  | EmptyString => EmptyString
  end.

Definition trimEnd (s : string) : string :=
  String.rev (trimStart (String.rev s)).

(** [s.trim()] *)
Definition trim (s : string) : string := trimEnd (trimStart s).

(** [s.startsWith(p)] *)
Fixpoint startsWith (s p : string) {struct p} : bool :=
  match p, s with
  | EmptyString, _ => true
  | String a p', String b s' => if Ascii.eqb a b then startsWith s' p' else false
  | String _ _, EmptyString => false
  end.

(** [s.slice(start)] for [0 <= start]. *)
Fixpoint slice (s : string) (start : nat) : string :=
  match start, s with
  | O, _ => s
  | S n, String _ s' => slice s' n
  | S _, EmptyString => EmptyString
  end.

(** [s.repeat(count)] *)
Fixpoint repeat (s : string) (count : nat) : string :=
  match count with
  | O => EmptyString
  | S count' => s +:+ repeat s count'
  end.

(** A string is truthy when it is not empty. *)
Definition nonEmpty (s : string) : bool :=
  match s with EmptyString => false | String _ _ => true end.

Definition digitChar (d : nat) : ascii := ascii_of_nat (48 + d).

Fixpoint digitsFrom (fuel n : nat) (acc : string) : string :=
  let acc' := String (digitChar (n mod 10)) acc in
  match fuel with
  | O => acc'
  | S fuel' => if (n / 10 =? 0)%nat then acc' else digitsFrom fuel' (n / 10) acc'
  end.

(** [String(n)] for a non-negative integral number [n]: its decimal
    digits, no sign, no leading zero.  (JavaScript switches to exponent
    notation from 10^21 on, which no string length reaches.) *)
Definition ofNat (n : nat) : string := digitsFrom n n EmptyString.

End JsString.

(* ================================================================== *)
(** * JavaScript values *)
(* ================================================================== *)

(** Numbers, as far as the sources inspect them: an integral number carries
    its value; [NaN] is the one falsy non-integral number; every other
    number (a fraction, an infinity) is [NonIntegral]. *)
Inductive number : Type :=
| Int (z : Z)
| NaN
| NonIntegral.

#[global] Instance number_eq_dec : EqDecision number.
Proof. solve_decision. Defined.

Inductive value : Type :=
| VUndefined
| VNull
| VBool (b : bool)
| VNum (n : number)
| VStr (s : string)
| VArr (items : list value)
| VObj (fields : gmap string value).

Module Js.

(** [v.k] and [v?.k] for a property [k] that no built-in prototype
    defines: the own property of an object, [undefined] elsewhere.  The
    sources guard every plain [.] access so that it is never applied to
    [undefined] or [null]. *)
Definition get (v : value) (k : string) : value :=
  match v with
  | VObj fields => default VUndefined (fields !! k)
  | _ => VUndefined
  end.

(** [k in v] for an object [v]. *)
Definition has (fields : gmap string value) (k : string) : bool :=
  bool_decide (is_Some (fields !! k)).

(** [v && typeof v === "object"] *)
Definition isObjectLike (v : value) : bool :=
  match v with
  | VObj _ | VArr _ => true
  | _ => false
  end.

(** ToBoolean *)
Definition truthy (v : value) : bool :=
  match v with
  | VUndefined | VNull => false
  | VBool b => b
  | VNum (Int z) => negb (z =? 0)
  | VNum NaN => false
  | VNum NonIntegral => true
  | VStr s => JsString.nonEmpty s
  | VArr _ | VObj _ => true
  end.

(** [v === s] for a string literal [s]. *)
Definition isString (v : value) (s : string) : bool :=
  match v with
  | VStr t => bool_decide (t = s)
  | _ => false
  end.

End Js.

(* ================================================================== *)
(** * utils/TokenCounter.ts *)
(* ================================================================== *)

Module TokenCounter.

Definition charsPerToken : nat := 4.

(** [Math.ceil(a / b)] for non-negative integers [a] and [b > 0]. *)
Definition ceilDiv (a b : nat) : nat :=
  if (a mod b =? 0)%nat then (a / b)%nat else S (a / b).

Definition estimateTokens (text : string) : nat :=
  if (String.length text =? 0)%nat then O
  else ceilDiv (String.length text) charsPerToken.

End TokenCounter.

(* ================================================================== *)
(** * api/types.ts *)
(* ================================================================== *)

Module Wire.

(** [MiniMaxToolCall]; its [type] is the constant ["function"]. *)
Record MiniMaxToolCall : Type := {
  tc_id : string;
  tc_name : string;
  tc_arguments : string;
}.

(** [MiniMaxReasoningDetail] is an open record ([[key: string]: unknown]):
    an object, [gmap string value]. *)

(** The union [MiniMaxMessage], discriminated by [role]. *)
Inductive MiniMaxMessage : Type :=
| SystemMessage (content : string)
| UserMessage (content : string)
| AssistantMessage (content : string)
    (tool_calls : option (list MiniMaxToolCall))
    (reasoning_details : option (list (gmap string value)))
| ToolMessage (tool_call_id : string) (content : string).

(** [MiniMaxToolDefinition]; its [type] is the constant ["function"]. *)
Record MiniMaxToolDefinition : Type := {
  fn_name : string;
  fn_description : option string;
  fn_parameters : gmap string value;
}.

Definition isUserMessage (m : MiniMaxMessage) : bool :=
  match m with UserMessage _ => true | _ => false end.

Definition isToolMessage (m : MiniMaxMessage) : bool :=
  match m with ToolMessage _ _ => true | _ => false end.

(** ** The model table *)

Record ModelInfo : Type := {
  model_id : string;
  model_name : string;
  contextLength : Z;
}.

Definition SUPPORTED_MODELS : list ModelInfo :=
  [ {| model_id := "MiniMax-M2.5"; model_name := "MiniMax M2.5";
       contextLength := 204800 |};
    {| model_id := "MiniMax-M2.1"; model_name := "MiniMax M2.1";
       contextLength := 204800 |};
    {| model_id := "MiniMax-M2"; model_name := "MiniMax M2";
       contextLength := 204800 |} ].

(** [Object.fromEntries(SUPPORTED_MODELS.map((model) => [model.id, model]))]:
    the own properties of the table, a later entry replacing an earlier
    one of the same key. *)
Definition MODEL_BY_ID : gmap string ModelInfo :=
  foldl (λ table model, <[model_id model := model]> table) ∅ SUPPORTED_MODELS.

(** The table is a plain object: indexing it with a name that
    [Object.prototype] defines yields the inherited member, a truthy
    value that is no [ModelInfo] and has no [id]. *)
Definition inheritedNames : list string :=
  [ "constructor"; "__defineGetter__"; "__defineSetter__"; "hasOwnProperty";
    "__lookupGetter__"; "__lookupSetter__"; "isPrototypeOf";
    "propertyIsEnumerable"; "toString"; "valueOf"; "__proto__";
    "toLocaleString" ].

(** What [MODEL_BY_ID[id]] evaluates to. *)
Inductive Lookup : Type :=
| Own (model : ModelInfo)
| Inherited
| Absent.

Definition getModelById (id : string) : Lookup :=
  match MODEL_BY_ID !! id with
  | Some model => Own model
  | None => if bool_decide (id ∈ inheritedNames) then Inherited else Absent
  end.

End Wire.

(* ================================================================== *)
(** * api/MiniMaxClient.ts *)
(* ================================================================== *)

Module MiniMaxClient.
Import Wire.

Inductive ToolChoice : Type := Auto | Required.

Record ChatOptions : Type := {
  temperature : option number;
  maxTokens : option number;
  apiKey : option string;
  tools : option (list MiniMaxToolDefinition);
  toolChoice : option ToolChoice;
  reasoningSplit : option bool;
}.

(** [class MiniMaxError extends Error] *)
Record MiniMaxError : Type := {
  message : string;
  code : string;
  statusCode : option number;
}.

(** What a [catch] clause of [streamChat] can receive, by the tests that
    [toMiniMaxError] applies to it. *)
Inductive Thrown : Type :=
| APIError (name message : string) (status : option number)
    (* [error instanceof OpenAI.APIError] *)
| OtherError (name message : string)
    (* [error instanceof Error], not an [APIError] *)
| NonError (v : value).
    (* anything else *)

(** One choice of a [ChatCompletionChunk].  The provider reads [delta]
    and [finish_reason] through casts to [unknown], so they are values. *)
Record Choice : Type := {
  delta : value;
  finish_reason : value;
}.

Record ChatCompletionChunk : Type := {
  choices : list Choice;
}.

(** [ChatCompletionMessageParam], as [toOpenAiMessages] builds it. *)
Inductive ChatCompletionMessageParam : Type :=
| ParamAssistant (content : string)
    (tool_calls : option (list MiniMaxToolCall))
    (reasoning_details : option (list (gmap string value)))
| ParamTool (tool_call_id : string) (content : string)
| ParamSystem (content : string)
| ParamUser (content : string).

(** [ChatCompletionCreateParamsStreaming] with the extension fields,
    together with the key and the base URL of the [OpenAI] client the
    request goes through.  The field [model] is [None] when the value
    that [streamChat] was given for it is [undefined]. *)
Record CreateParams : Type := {
  p_apiKey : string;
  p_baseURL : string;
  p_model : option string;
  p_stream : bool;
  p_messages : list ChatCompletionMessageParam;
  p_temperature : number;
  p_max_tokens : number;
  p_tools : option (list MiniMaxToolDefinition);
  p_tool_choice : option ToolChoice;
  p_reasoning_split : bool;
}.

(** What [client.chat.completions.create] answers: it rejects, or it
    delivers chunks and then ends or fails.  Each chunk comes with the
    value of [cancellationToken?.isCancellationRequested] at the moment
    the loop receives it. *)
Record Upstream : Type := {
  arrivals : list (bool * ChatCompletionChunk);
  failure : option Thrown;
}.

Definition Transport : Type := CreateParams → Thrown + Upstream.

(** One run of the generator [streamChat], drained: the requests the
    transport received, the chunks yielded, and the error thrown, if
    any. *)
Record Run : Type := {
  requests : list CreateParams;
  yielded : list ChatCompletionChunk;
  thrown : option MiniMaxError;
}.

Definition toOpenAiMessages (messages : list MiniMaxMessage)
  : list ChatCompletionMessageParam :=
  (λ message,
     match message with
     | AssistantMessage content tool_calls reasoning_details =>
         ParamAssistant content tool_calls reasoning_details
     | ToolMessage tool_call_id content => ParamTool tool_call_id content
     | SystemMessage content => ParamSystem content
     | UserMessage content => ParamUser content
     end) <$> messages.

Definition baseUrl : string := "https://api.minimax.io/v1".

Section Platform.
(** [String(error)] *)
Variable String_ : value → string.

Definition toMiniMaxError (error : Thrown) : MiniMaxError :=
  match error with
  | APIError _ msg status =>
      let statusCode := default (Int 0) status in
      let code :=
        if bool_decide (statusCode = Int 401)
        then "AUTHENTICATION_ERROR" else "API_ERROR" in
      {| message := msg; code := code; statusCode := Some statusCode |}
  | OtherError name msg =>
      if bool_decide (name = "AbortError")
      then {| message := "Request timeout"; code := "TIMEOUT";
              statusCode := None |}
      else {| message := msg; code := "NETWORK_ERROR"; statusCode := None |}
  | NonError v =>
      {| message := String_ v; code := "UNKNOWN_ERROR"; statusCode := None |}
  end.

(** The [for await] loop of [streamChat]: it stops silently at the
    first chunk that arrives after cancellation was requested. *)
Fixpoint forward (arrivals : list (bool * ChatCompletionChunk))
    (failure : option Thrown)
  : list ChatCompletionChunk * option MiniMaxError :=
  match arrivals with
  | [] => ([], toMiniMaxError <$> failure)
  | (cancelled, chunk) :: rest =>
      if cancelled then ([], None)
      else let '(out, err) := forward rest failure in (chunk :: out, err)
  end.

(** The parameter [model] is declared a string, which nothing checks
    when the code runs: [streamResponse] passes [resolvedModel.id], and
    that can be [undefined], here [None]. *)
Definition streamChat (transport : Transport) (model : option string)
    (messages : list MiniMaxMessage) (options : option ChatOptions) : Run :=
  let apiKey := JsString.trim <$> (options ≫= apiKey) in
  match apiKey with
  | None | Some EmptyString =>
      {| requests := []; yielded := [];
         thrown := Some {| message := "API key is required";
                           code := "NO_API_KEY";
                           statusCode := Some (Int 401) |} |}
  | Some key =>
      let params :=
        {| p_apiKey := key;
           p_baseURL := baseUrl;
           p_model := model;
           p_stream := true;
           p_messages := toOpenAiMessages messages;
           p_temperature := default (Int 1) (options ≫= temperature);
           p_max_tokens := default (Int 8192) (options ≫= maxTokens);
           p_tools :=
             match options ≫= tools with
             | Some (t :: ts) => Some (t :: ts)
             | _ => None
             end;
           p_tool_choice := options ≫= toolChoice;
           p_reasoning_split := default true (options ≫= reasoningSplit) |} in
      match transport params with
      | inl error =>
          {| requests := [params]; yielded := [];
             thrown := Some (toMiniMaxError error) |}
      | inr upstream =>
          let '(out, err) := forward (arrivals upstream) (failure upstream) in
          {| requests := [params]; yielded := out; thrown := err |}
      end
  end.
End Platform.

End MiniMaxClient.

(* ================================================================== *)
(** * The host *)
(* ================================================================== *)

(** The part of the editor that the extension reads and changes: the
    secret storage of the extension context and the notifications shown
    to the user, in order. *)
Module Vscode.

Inductive Notification : Type :=
| Information (message : string)   (* [window.showInformationMessage] *)
| ErrorMessage (message : string). (* [window.showErrorMessage] *)

Record Host : Type := {
  secrets : gmap string string;
  notifications : list Notification;
}.

(** [secrets.store(key, value)] *)
Definition store (key value : string) (host : Host) : Host :=
  {| secrets := <[key := value]> (secrets host);
     notifications := notifications host |}.

(** [secrets.delete(key)] *)
Definition remove (key : string) (host : Host) : Host :=
  {| secrets := delete key (secrets host);
     notifications := notifications host |}.

Definition notify (notification : Notification) (host : Host) : Host :=
  {| secrets := secrets host;
     notifications := notifications host ++ [notification] |}.

(** [vscode.LanguageModelChatToolMode] *)
Module LanguageModelChatToolMode.
Inductive t : Type := Auto | Required.
End LanguageModelChatToolMode.

End Vscode.

(* ================================================================== *)
(** * providers/MiniMaxAuthentication.ts *)
(* ================================================================== *)

Module MiniMaxAuthentication.
Import Vscode.

Definition API_KEY_SECRET_KEY : string := "minimax-vscode.apiKey".

Definition getApiKey (host : Host) : option string :=
  secrets host !! API_KEY_SECRET_KEY.

Definition deleteApiKey (host : Host) : Host :=
  remove API_KEY_SECRET_KEY host.

(** The [validateInput] callback of the input box: the message to show,
    or [undefined] for an acceptable value. *)
Definition validateInput (value : string) : option string :=
  if negb (JsString.nonEmpty value)
     || (String.length (JsString.trim value) =? 0)%nat
  then Some "API key cannot be empty" else None.

(** [input] is what [showInputBox] resolves to: the text entered, or
    [undefined] when the box was dismissed. *)
Definition promptForApiKey (input : option string) (host : Host)
  : option string * Host :=
  match input with
  | None | Some EmptyString => (None, host)
  | Some input =>
      let key := JsString.trim input in
      (Some key,
       notify (Information "MiniMax API key saved successfully")
         (store API_KEY_SECRET_KEY key host))
  end.

(** [(await this.getApiKey()) ?? this.promptForApiKey()] *)
Definition getOrPromptApiKey (input : option string) (host : Host)
  : option string * Host :=
  match getApiKey host with
  | Some key => (Some key, host)
  | None => promptForApiKey input host
  end.

End MiniMaxAuthentication.

(* ================================================================== *)
(** * providers/MiniMaxProvider.ts *)
(* ================================================================== *)

Module MiniMaxProvider.
Import Wire MiniMaxClient.

(** ** Host data *)

(** A content part of a request message, by the [instanceof] tests the
    provider applies; [OtherPart] is any value that is an instance of none
    of the four classes (thinking parts among them). *)
Inductive Part : Type :=
| LanguageModelTextPart (value : string)
| LanguageModelToolCallPart (callId name : string) (input : value)
| LanguageModelToolResultPart (callId : string) (content : list Part)
| LanguageModelDataPart (data : list Byte.byte) (mimeType : string)
| OtherPart (v : value).

Inductive LanguageModelChatMessageRole : Type := User | Assistant | System.

(** [message.content]: an array of parts, a string, or anything else. *)
Inductive Content : Type :=
| ContentParts (parts : list Part)
| ContentString (s : string)
| ContentOther.

Record LanguageModelChatRequestMessage : Type := {
  role : LanguageModelChatMessageRole;
  content : Content;
}.

Record LanguageModelChatTool : Type := {
  tool_name : option string;
  tool_description : option string;
  inputSchema : value;
}.

(** What [progress.report] receives. *)
Inductive ResponsePart : Type :=
| ReportText (content : value)
    (* [new vscode.LanguageModelTextPart(content)] *)
| ReportThinking (text : string) (id : option string)
    (metadata : option (gmap string value))
    (* [new thinkingPartCtor(text, id, metadata)] *)
| ReportToolCall (callId name : string) (input : value).
    (* [new vscode.LanguageModelToolCallPart(callId, name, input)] *)

(** ** Streaming state *)

Record ReasoningUpdate : Type := {
  text : string;
  update_id : option string;
  update_metadata : option (gmap string value);
}.

Record AccumulatedToolCall : Type := {
  index : Z;
  call_id : option string;
  call_name : option string;
  arguments : string;
}.

(** The local variables of [streamResponse] and the parts reported so
    far. *)
Record StreamState : Type := {
  reasoningBuffer : string;
  pendingToolCalls : gmap Z AccumulatedToolCall;
  toolCallsEmitted : bool;
  reported : list ResponsePart;
}.

Definition initialState : StreamState :=
  {| reasoningBuffer := ""; pendingToolCalls := ∅;
     toolCallsEmitted := false; reported := [] |}.

(** [progress.report(part)] *)
Definition report (part : ResponsePart) (st : StreamState) : StreamState :=
  {| reasoningBuffer := reasoningBuffer st;
     pendingToolCalls := pendingToolCalls st;
     toolCallsEmitted := toolCallsEmitted st;
     reported := reported st ++ [part] |}.

(** ** Message mapper: user turns *)

Definition readNonEmptyString (v : value) : option string :=
  match v with
  | VStr s =>
      let normalized := JsString.trim s in
      if (0 <? String.length normalized)%nat then Some normalized else None
  | _ => None
  end.

Definition convertRole (r : LanguageModelChatMessageRole) : string :=
  match r with
  | Assistant => "assistant"
  | User => "user"
  | System => "system"
  end.

Definition getMessageParts (message : LanguageModelChatRequestMessage)
  : list Part :=
  match content message with
  | ContentParts parts => parts
  | ContentString s => [LanguageModelTextPart s]
  | ContentOther => []
  end.

Definition concatTextParts (parts : list Part) : string :=
  foldl (λ text part,
           match part with
           | LanguageModelTextPart value => text +:+ value
           | _ => text
           end) "" parts.

Section Rendering.
(** [JSON.stringify(part)]: [None] when it throws, otherwise the
    string, or [undefined], that it returns. *)
Variable JSON_stringify : Part → option (option string).
(** [String(part)] *)
Variable String_ : Part → string.
(** [Buffer.from(data).toString("base64")] *)
Variable base64 : list Byte.byte → string.

Definition safeJson (value : Part) : option string :=
  match JSON_stringify value with
  | Some result => result
  | None => Some (String_ value)
  end.

(** The text that one sub-part of a tool result adds. *)
Definition renderResultPart (part : Part) : string :=
  match part with
  | LanguageModelTextPart value => value
  | LanguageModelDataPart data mimeType =>
      "[data:" +:+ mimeType +:+ ";base64," +:+ base64 data +:+ "]"
  | OtherPart (VObj fields) =>
      match fields !! "value" with
      | Some (VStr value) => value
      | _ => default "undefined" (safeJson part)
      end
  | _ => default "undefined" (safeJson part)
  end.

Definition concatToolResultContent (parts : list Part) : string :=
  let text := foldl (λ text part, text +:+ renderResultPart part) "" parts in
  let normalized := JsString.trim text in
  if (String.length normalized =? 0)%nat then "{}" else normalized.

Definition toMiniMaxUserAndToolMessages (parts : list Part)
  : list MiniMaxMessage :=
  let textContent := concatTextParts parts in
  let toolMessages :=
    foldl (λ toolMessages part,
             match part with
             | LanguageModelToolResultPart callId content =>
                 toolMessages ++
                   [ToolMessage callId (concatToolResultContent content)]
             | _ => toolMessages
             end) [] parts in
  let messages :=
    if (0 <? String.length (JsString.trim textContent))%nat
       || (length toolMessages =? 0)%nat
    then [UserMessage textContent] else [] in
  messages ++ toolMessages.

(** ** Message mapper: assistant turns and dispatch *)

(** [JSON.stringify(input)] for a tool-call input other than [undefined]. *)
Variable JSON_stringify_input : value → string.

Definition isThinkingPart (part : Part) : bool :=
  match part with
  | OtherPart (VObj fields) =>
      match fields !! "value" with
      | Some (VStr _) => true
      | Some (VArr items) =>
          forallb (λ item, match item with VStr _ => true | _ => false end)
            items
      | _ => false
      end
  | _ => false
  end.

(** [value.join("")] for an array of strings *)
Definition joinStrings (items : list value) : string :=
  foldl (λ text item,
           match item with VStr s => text +:+ s | _ => text end) "" items.

Definition toReasoningDetail (part : Part) (position : nat)
  : option (gmap string value) :=
  if negb (isThinkingPart part) then None
  else
    match part with
    | OtherPart (VObj fields) =>
        let text :=
          match fields !! "value" with
          | Some (VStr s) => s
          | Some (VArr items) => joinStrings items
          | _ => ""
          end in
        if negb (JsString.nonEmpty text)
           || (String.length (JsString.trim text) =? 0)%nat
        then None
        else
          let detail : gmap string value :=
            {[ "type" := VStr "reasoning.text";
               "index" := VNum (Int (Z.of_nat position));
               "text" := VStr text ]} in
          let detail :=
            match readNonEmptyString (Js.get (VObj fields) "id") with
            | Some id => <["id" := VStr id]> detail
            | None => detail
            end in
          let detail :=
            match readNonEmptyString (Js.get (VObj fields) "format") with
            | Some format => <["format" := VStr format]> detail
            | None => detail
            end in
          (* [Object.assign] assigns the own properties of the metadata
             to [detail] one by one.  Assigning to [__proto__] runs the
             setter that every object inherits, which sets the prototype
             and adds no property. *)
          let detail :=
            match Js.get (VObj fields) "metadata" with
            | VObj metadata => delete "__proto__" metadata ∪ detail
            | _ => detail
            end in
          Some detail
    | _ => None
    end.

Definition toMiniMaxAssistantMessage (parts : list Part) : MiniMaxMessage :=
  let content := concatTextParts parts in
  let '(toolCalls, reasoningDetails) :=
    foldl (λ '(toolCalls, reasoningDetails) part,
             match part with
             | LanguageModelToolCallPart callId name input =>
                 (toolCalls ++
                    [{| tc_id := callId; tc_name := name;
                        tc_arguments :=
                          JSON_stringify_input
                            match input with
                            | VUndefined | VNull => VObj ∅
                            | _ => input
                            end |}],
                  reasoningDetails)
             | _ =>
                 match toReasoningDetail part (length reasoningDetails) with
                 | Some detail => (toolCalls, reasoningDetails ++ [detail])
                 | None => (toolCalls, reasoningDetails)
                 end
             end) ([], []) parts in
  AssistantMessage content
    (if (0 <? length toolCalls)%nat then Some toolCalls else None)
    (if (0 <? length reasoningDetails)%nat then Some reasoningDetails else None).

Definition toMiniMaxMessages (message : LanguageModelChatRequestMessage)
  : list MiniMaxMessage :=
  let role := convertRole (role message) in
  let parts := getMessageParts message in
  if bool_decide (role = "assistant") then [toMiniMaxAssistantMessage parts]
  else if bool_decide (role = "user") then toMiniMaxUserAndToolMessages parts
  else [SystemMessage (concatTextParts parts)].

Definition convertMessages (messages : list LanguageModelChatRequestMessage)
  : list MiniMaxMessage :=
  foldl (λ converted message, converted ++ toMiniMaxMessages message)
    [] messages.

End Rendering.

(** ** Token count *)

(** The argument is a string or a request message, given by its content
    array. *)
Definition provideTokenCount (text : string + list Part) : nat :=
  match text with
  | inl s => TokenCounter.estimateTokens s
  | inr content =>
      let totalChars :=
        foldl (λ totalChars part,
                 match part with
                 | LanguageModelTextPart value =>
                     (totalChars + String.length value)%nat
                 | _ => totalChars
                 end) O content in
      TokenCounter.estimateTokens (JsString.ofNat totalChars)
  end.

(** ** Tool schema normalizer *)

Definition normalizeToolName (name : option string) : option string :=
  match name with
  | None => None
  | Some name =>
      let trimmed := JsString.trim name in
      if (0 <? String.length trimmed)%nat then Some trimmed else None
  end.

Definition normalizeToolDescription (description : option string)
  : option string :=
  match description with
  | None => None
  | Some description =>
      let trimmed := JsString.trim description in
      if (0 <? String.length trimmed)%nat then Some trimmed else None
  end.

Definition fallback : gmap string value :=
  <["type" := VStr "object"]> (<["properties" := VObj ∅]> ∅).

Definition normalizeToolParameters (inputSchema : value) : gmap string value :=
  match inputSchema with
  | VObj fields =>
      let schema := fields in
      let schema :=
        if negb (Js.has schema "type")
        then <["type" := VStr "object"]> schema else schema in
      let schema :=
        if Js.isString (Js.get (VObj schema) "type") "object"
           && negb (Js.has schema "properties")
        then <["properties" := VObj ∅]> schema else schema in
      schema
  | _ => fallback
  end.

Definition convertTools (tools : option (list LanguageModelChatTool))
  : option (list MiniMaxToolDefinition) :=
  match tools with
  | None | Some [] => None
  | Some tools =>
      let converted :=
        foldl (λ converted tool,
                 match normalizeToolName (tool_name tool) with
                 | None => converted
                 | Some name =>
                     converted ++
                       [{| fn_name := name;
                           fn_description :=
                             normalizeToolDescription (tool_description tool);
                           fn_parameters :=
                             normalizeToolParameters (inputSchema tool) |}]
                 end) [] tools in
      if (0 <? length converted)%nat then Some converted else None
  end.

(** ** Response reconstructor *)

(** [a ?? b] on optional strings *)
Definition orElse (a b : option string) : option string :=
  match a with Some _ => a | None => b end.

Definition getLatestReasoningUpdate (choice : Choice) : option ReasoningUpdate :=
  match Js.get (delta choice) "reasoning_details" with
  | VArr reasoningDetails =>
      foldl (λ latest detail,
               if negb (Js.isObjectLike detail) then latest
               else
                 match Js.get detail "text" with
                 | VStr candidate_text =>
                     let id :=
                       orElse (readNonEmptyString (Js.get detail "id"))
                         (orElse
                            (readNonEmptyString (Js.get detail "reasoning_id"))
                            (readNonEmptyString (Js.get detail "thinking_id"))) in
                     let metadata :=
                       match Js.get detail "metadata" with
                       | VObj m => Some m
                       | _ => None
                       end in
                     Some {| text := candidate_text; update_id := id;
                             update_metadata := metadata |}
                 | _ => latest
                 end) None reasoningDetails
  | _ => None
  end.

(** [thinkingPartCtor] is the constructor [vscode.LanguageModelThinkingPart]
    when the host defines it: [true] stands for the constructor, [false]
    for [undefined]. *)
Definition reportReasoning (thinkingPartCtor : bool) (new_text : string)
    (reasoning : ReasoningUpdate) (st : StreamState) : StreamState :=
  if negb thinkingPartCtor
  then report (ReportText (VStr ("<think>" +:+ new_text +:+ "</think>"))) st
  else report (ReportThinking new_text (update_id reasoning)
                 (update_metadata reasoning)) st.

Definition setReasoningBuffer (buffer : string) (st : StreamState)
  : StreamState :=
  {| reasoningBuffer := buffer;
     pendingToolCalls := pendingToolCalls st;
     toolCallsEmitted := toolCallsEmitted st;
     reported := reported st |}.

(** Lines 148-160 of [streamResponse]. *)
Definition stepReasoning (thinkingPartCtor : bool) (choice : Choice)
    (st : StreamState) : StreamState :=
  if thinkingPartCtor then
    match getLatestReasoningUpdate choice with
    | Some latestReasoning =>
        let newReasoning :=
          if JsString.startsWith (text latestReasoning) (reasoningBuffer st)
          then JsString.slice (text latestReasoning)
                 (String.length (reasoningBuffer st))
          else text latestReasoning in
        if JsString.nonEmpty newReasoning then
          setReasoningBuffer (text latestReasoning)
            (reportReasoning thinkingPartCtor newReasoning latestReasoning st)
        else st
    | None => st
    end
  else st.

(** Lines 162-165 of [streamResponse]. *)
Definition stepContent (choice : Choice) (st : StreamState) : StreamState :=
  let content := Js.get (delta choice) "content" in
  if Js.truthy content then report (ReportText content) st else st.

(** The body of the loop of [accumulateToolCalls], for one fragment. *)
Definition accumulateToolCall (pending : gmap Z AccumulatedToolCall)
    (rawCall : value) : gmap Z AccumulatedToolCall :=
  if negb (Js.isObjectLike rawCall) then pending
  else
    let target :=
      match Js.get rawCall "index" with
      | VNum (Int i) => if 0 <=? i then i else Z.of_nat (size pending)
      | _ => Z.of_nat (size pending)
      end in
    let current :=
      default {| index := target; call_id := None; call_name := None;
                 arguments := "" |} (pending !! target) in
    let current :=
      match Js.get rawCall "id" with
      | VStr id =>
          if (0 <? String.length id)%nat
          then {| index := index current; call_id := Some id;
                  call_name := call_name current;
                  arguments := arguments current |}
          else current
      | _ => current
      end in
    let current :=
      match Js.get (Js.get rawCall "function") "name" with
      | VStr name =>
          if (0 <? String.length name)%nat
          then {| index := index current; call_id := call_id current;
                  call_name := Some name;
                  arguments := arguments current |}
          else current
      | _ => current
      end in
    let current :=
      match Js.get (Js.get rawCall "function") "arguments" with
      | VStr args =>
          if (0 <? String.length args)%nat
          then {| index := index current; call_id := call_id current;
                  call_name := call_name current;
                  arguments := arguments current +:+ args |}
          else current
      | _ => current
      end in
    <[target := current]> pending.

Definition accumulateToolCalls (choice : Choice)
    (pending : gmap Z AccumulatedToolCall) : gmap Z AccumulatedToolCall :=
  match Js.get (delta choice) "tool_calls" with
  | VArr tool_calls => foldl accumulateToolCall pending tool_calls
  | _ => pending
  end.

Definition isToolCallFinish (choice : Choice) : bool :=
  Js.isString (finish_reason choice) "tool_calls"
  || Js.isString (finish_reason choice) "function_call".

(** The comparator [(a, b) => a.index - b.index] orders by index. *)
Definition byIndex (a b : AccumulatedToolCall) : Prop := index a ≤ index b.

#[global] Instance byIndex_dec : RelDecision byIndex.
Proof. intros a b. unfold byIndex. apply _. Defined.

(** [[...pending.values()].sort((a, b) => a.index - b.index)].  The
    accumulators of a pending map have distinct indices, so that the
    sorted list does not depend on the order in which the map enumerates
    them ([orderedCalls_unique] below). *)
Definition orderedCalls (pending : gmap Z AccumulatedToolCall)
  : list AccumulatedToolCall :=
  merge_sort byIndex (snd <$> map_to_list pending).

(** [!call.id || !call.name] is false *)
Definition complete (call : AccumulatedToolCall) : bool :=
  from_option JsString.nonEmpty false (call_id call)
  && from_option JsString.nonEmpty false (call_name call).

Section Parsing.
(** [JSON.parse(text)]: [None] when it throws. *)
Variable JSON_parse : string → option value.

Definition parseToolArguments (raw : string) : value :=
  let text := JsString.trim raw in
  if negb (JsString.nonEmpty text) then VObj ∅
  else
    match JSON_parse text with
    | Some (VObj parsed) => VObj parsed
    | Some parsed => VObj {[ "value" := parsed ]}
    | None => VObj {[ "rawArguments" := VStr raw ]}
    end.

Definition reportToolCalls (pending : gmap Z AccumulatedToolCall)
    (st : StreamState) : StreamState :=
  foldl (λ st call,
           if complete call then
             report (ReportToolCall (default "" (call_id call))
                       (default "" (call_name call))
                       (parseToolArguments (arguments call))) st
           else st)
    st (orderedCalls pending).

(** Lines 167-171 of [streamResponse]. *)
Definition stepToolCalls (choice : Choice) (st : StreamState) : StreamState :=
  let pending := accumulateToolCalls choice (pendingToolCalls st) in
  let st :=
    {| reasoningBuffer := reasoningBuffer st;
       pendingToolCalls := pending;
       toolCallsEmitted := toolCallsEmitted st;
       reported := reported st |} in
  if negb (toolCallsEmitted st) && isToolCallFinish choice then
    let st := reportToolCalls pending st in
    {| reasoningBuffer := reasoningBuffer st;
       pendingToolCalls := pendingToolCalls st;
       toolCallsEmitted := true;
       reported := reported st |}
  else st.

(** The body of [for (const choice of chunk.choices)]. *)
Definition processChoice (thinkingPartCtor : bool) (st : StreamState)
    (choice : Choice) : StreamState :=
  stepToolCalls choice (stepContent choice
                          (stepReasoning thinkingPartCtor choice st)).

Definition processChoices (thinkingPartCtor : bool) (st : StreamState)
    (cs : list Choice) : StreamState :=
  foldl (processChoice thinkingPartCtor) st cs.

(** The loop [for await (const chunk of stream)] of [streamResponse]:
    each chunk comes with the value of [token.isCancellationRequested]
    at the moment it is received, and the first cancelled one ends the
    response. *)
Fixpoint consume (thinkingPartCtor : bool) (st : StreamState)
    (stream : list (bool * ChatCompletionChunk)) : StreamState :=
  match stream with
  | [] => st
  | (cancelled, chunk) :: rest =>
      if cancelled then st
      else consume thinkingPartCtor
             (processChoices thinkingPartCtor st (choices chunk)) rest
  end.
End Parsing.

(** ** Model catalogue *)

Import Vscode MiniMaxAuthentication.

(** [ModelWithApiKey]: the fields of [LanguageModelChatInformation] that
    the provider fills, with the key it attaches as [__minimaxApiKey]. *)
Record LanguageModelChatInformation : Type := {
  info_id : string;
  info_name : string;
  info_detail : string;
  info_family : string;
  info_version : string;
  maxInputTokens : Z;
  maxOutputTokens : Z;
  toolCalling : bool;
  minimaxApiKey : option string;
}.

(** [options] is the options object, by its own properties. *)
Definition extractConfiguredApiKey (options : gmap string value)
  : option string :=
  let config := Js.get (VObj options) "configuration" in
  if negb (Js.isObjectLike config) then None
  else
    match Js.get config "apiKey" with
    | VStr apiKey =>
        let normalized := JsString.trim apiKey in
        if (0 <? String.length normalized)%nat then Some normalized else None
    | _ => None
    end.

(** [raw] is the setting [minimax.visibleModels] of the workspace
    configuration; [configuredIds] is a [Set]. *)
Definition getVisibleModels (raw : value) : list ModelInfo :=
  match raw with
  | VArr items =>
      let configuredIds : gset string :=
        list_to_set
          (omap (λ value, match value with VStr s => Some s | _ => None end)
             items) in
      let visibleModels :=
        filter (λ model, model_id model ∈ configuredIds) SUPPORTED_MODELS in
      if (0 <? length visibleModels)%nat then visibleModels
      else SUPPORTED_MODELS
  | _ => SUPPORTED_MODELS
  end.

Definition modelsWithApiKey (raw : value) (apiKey : string)
  : list LanguageModelChatInformation :=
  (λ model,
     {| info_id := model_id model;
        info_name := model_name model;
        info_detail := "Coding Plan";
        info_family := model_id model;
        info_version := "1.0";
        maxInputTokens := contextLength model;
        maxOutputTokens := contextLength model;
        toolCalling := true;
        minimaxApiKey := Some apiKey |}) <$> getVisibleModels raw.

Definition provideLanguageModelChatInformation (raw : value)
    (options : gmap string value) : list LanguageModelChatInformation :=
  if negb (Js.has options "configuration") then []
  else
    match extractConfiguredApiKey options with
    | None | Some EmptyString => []
    | Some configuredApiKey => modelsWithApiKey raw configuredApiKey
    end.

(** ** Request options *)

Definition DEFAULT_TEMPERATURE : number := Int 1.
Definition DEFAULT_MAX_TOKENS : number := Int 8192.

Record ProvideLanguageModelChatResponseOptions : Type := {
  options_tools : option (list LanguageModelChatTool);
  toolMode : LanguageModelChatToolMode.t;
  modelOptions : option (gmap string value);
}.

Definition resolveMaxTokens (options : ProvideLanguageModelChatResponseOptions)
  : number :=
  let value :=
    match modelOptions options with
    | Some modelOptions => Js.get (VObj modelOptions) "maxTokens"
    | None => VUndefined
    end in
  match value with
  | VNum (Int z) => if z <=? 0 then DEFAULT_MAX_TOKENS else Int z
  | _ => DEFAULT_MAX_TOKENS
  end.

Definition resolveToolChoice (options : ProvideLanguageModelChatResponseOptions)
    (tools : option (list MiniMaxToolDefinition)) : option ToolChoice :=
  match tools with
  | None | Some [] => None
  | Some _ =>
      Some match toolMode options with
           | LanguageModelChatToolMode.Required => Required
           | LanguageModelChatToolMode.Auto => Auto
           end
  end.

(** ** Errors *)

(** What the provider throws or rethrows: a plain [Error] with its
    message, or the [MiniMaxError] of the client. *)
Inductive Raised : Type :=
| PlainError (message : string)
| ClientError (error : MiniMaxError).

Definition throwMappedError (error : Raised) (host : Host) : Raised * Host :=
  match error with
  | PlainError _ => (error, host)
  | ClientError error =>
      if bool_decide (statusCode error = Some (Int 401)) then
        (PlainError
           ("Invalid API key. Please set a new one using "
              +:+ String "034" ("MiniMax: Set API Key"
              +:+ String "034" ".")),
         deleteApiKey host)
      else if bool_decide (statusCode error = Some (Int 429)) then
        (PlainError "Rate limit exceeded. Please wait and try again.", host)
      else (PlainError ("MiniMax API error: " +:+ message error), host)
  end.

(** ** The response *)

(** One call of [streamResponse]: the requests the transport received,
    the parts reported, and the error thrown, if any. *)
Record StreamRun : Type := {
  run_requests : list CreateParams;
  run_reported : list ResponsePart;
  run_raised : option Raised;
}.

(** One call of [provideLanguageModelChatResponse]: the host it leaves,
    and what the call did. *)
Record Response : Type := {
  response_host : Host;
  response_requests : list CreateParams;
  response_reported : list ResponsePart;
  response_raised : option Raised;
}.

Section Response.
Variable JSON_stringify : Part → option (option string).
Variable String_part : Part → string.
Variable base64 : list Byte.byte → string.
Variable JSON_stringify_input : value → string.
Variable JSON_parse : string → option value.
Variable String_ : value → string.
(** [this.getThinkingPartCtor()], as a truth value *)
Variable thinkingPartCtor : bool.
Variable transport : Transport.

(** [resolvedModel.id], for what [getModelById] returned and the test
    [!resolvedModel] let through, which [Absent] is not.  An inherited
    member of the model table is an object or a function without a
    property [id]: reading it gives [undefined]. *)
Definition resolvedId (resolvedModel : Lookup) : option string :=
  match resolvedModel with
  | Own model => Some (model_id model)
  | Inherited | Absent => None
  end.

(** [observed i] is the value of [token.isCancellationRequested] when
    the loop of [streamResponse] receives the chunk number [i]; the loop
    of the client reads the token on its own, in the transport.  Only
    an id that the model table does not know at all, own or inherited,
    fails the test [!resolvedModel]; an inherited member passes it, and
    the call of [streamChat] that follows gets [undefined] for the
    model. *)
Definition streamResponse (model : LanguageModelChatInformation)
    (messages : list LanguageModelChatRequestMessage)
    (options : ProvideLanguageModelChatResponseOptions)
    (observed : nat → bool) (apiKey : string) : StreamRun :=
  match getModelById (info_id model) with
  | Absent =>
      {| run_requests := []; run_reported := [];
         run_raised :=
           Some (PlainError
                   ("Unsupported model "
                      +:+ String "034" (info_id model
                      +:+ String "034"
                            " selected for MiniMax Coding Plan."))) |}
  | resolvedModel =>
      let useReasoningSplit := thinkingPartCtor in
      let tools := convertTools (options_tools options) in
      let run :=
        streamChat String_ transport (resolvedId resolvedModel)
          (convertMessages JSON_stringify String_part base64
             JSON_stringify_input messages)
          (Some {| maxTokens := Some (resolveMaxTokens options);
                   temperature := Some DEFAULT_TEMPERATURE;
                   apiKey := Some apiKey;
                   tools := tools;
                   toolChoice := resolveToolChoice options tools;
                   reasoningSplit := Some useReasoningSplit |}) in
      let stream := imap (λ i chunk, (observed i, chunk)) (yielded run) in
      let st := consume JSON_parse thinkingPartCtor initialState stream in
      {| run_requests := requests run;
         run_reported := reported st;
         run_raised :=
           if existsb fst stream then None
           else ClientError <$> thrown run |}
  end.

(** [input] is the answer to the prompt for a key, should it open. *)
Definition provideLanguageModelChatResponse (input : option string)
    (host : Host) (model : LanguageModelChatInformation)
    (messages : list LanguageModelChatRequestMessage)
    (options : ProvideLanguageModelChatResponseOptions)
    (observed : nat → bool) : Response :=
  let modelApiKey := minimaxApiKey model in
  let '(apiKey, host) :=
    match modelApiKey with
    | Some key =>
        if JsString.nonEmpty key && (0 <? String.length (JsString.trim key))%nat
        then (Some key, host)
        else getOrPromptApiKey input host
    | None => getOrPromptApiKey input host
    end in
  match apiKey with
  | None | Some EmptyString =>
      {| response_host := host; response_requests := [];
         response_reported := [];
         response_raised :=
           Some (PlainError
                   ("API key not configured. Use "
                      +:+ String "034" ("MiniMax: Set API Key"
                      +:+ String "034" " command."))) |}
  | Some apiKey =>
      let run := streamResponse model messages options observed apiKey in
      match run_raised run with
      | Some error =>
          let '(error, host) := throwMappedError error host in
          {| response_host := host;
             response_requests := run_requests run;
             response_reported := run_reported run;
             response_raised := Some error |}
      | None =>
          {| response_host := host;
             response_requests := run_requests run;
             response_reported := run_reported run;
             response_raised := None |}
      end
  end.
End Response.

End MiniMaxProvider.

(* ================================================================== *)
(** * extension.ts *)
(* ================================================================== *)

Module Extension.
Import Wire MiniMaxClient Vscode MiniMaxAuthentication.

Definition setApiKey (input : option string) (host : Host) : Host :=
  (promptForApiKey input host).2.

Definition clearApiKey (host : Host) : Host :=
  notify (Information "MiniMax API key cleared") (deleteApiKey host).

(** A call of [streamChat] without a cancellation token: no chunk
    arrives cancelled. *)
Definition withoutToken (transport : Transport) : Transport :=
  λ params,
    match transport params with
    | inl error => inl error
    | inr upstream =>
        inr {| arrivals := (λ arrival, (false, arrival.2)) <$> arrivals upstream;
               failure := failure upstream |}
    end.

Section Platform.
Variable String_ : value → string.
Variable transport : Transport.

(** [choice] is the button chosen on the question, [input] the answer
    to the prompt for a key, should it open.  The result is the host and
    the requests the transport received.  The loop leaves the stream at
    its first chunk, so that only an error thrown before any chunk is
    caught; what [streamChat] throws is a [MiniMaxError]. *)
Definition testConnection (choice input : option string) (host : Host)
  : Host * list CreateParams :=
  match getApiKey host with
  | None | Some EmptyString =>
      let host :=
        notify (Information "API key is not set. Would you like to set it now?")
          host in
      if bool_decide (choice = Some "Set API Key")
      then ((promptForApiKey input host).2, [])
      else (host, [])
  | Some key =>
      let run :=
        streamChat String_ (withoutToken transport) (Some "MiniMax-M2.5")
          [UserMessage "Ping"]
          (Some {| apiKey := Some key; maxTokens := Some (Int 1);
                   temperature := Some (Int 1); tools := None;
                   toolChoice := None; reasoningSplit := None |}) in
      match yielded run, thrown run with
      | [], Some error =>
          if bool_decide (statusCode error = Some (Int 401)) then
            (notify (ErrorMessage "Invalid API key. Please set a new key.")
               host, requests run)
          else
            (notify (ErrorMessage
                       ("MiniMax provider test failed: " +:+ message error))
               host, requests run)
      | _, _ =>
          (notify (Information "MiniMax provider test succeeded.") host,
           requests run)
      end
  end.
End Platform.

End Extension.

(* ================================================================== *)
(** * A JSON reader for examples *)
(* ================================================================== *)

(** [JSON.parse] is a parameter of the development.  The examples
    instantiate it with this reader of the fragment of JSON without string
    escapes, fractions and exponents; it rejects every other text. *)
Module JsonFragment.

Definition isJsonSpace (c : ascii) : bool :=
  match c with
  | "009" | "010" | "013" | " " => true
  | _ => false
  end%char.

Fixpoint skipSpace (s : string) : string :=
  match s with
  | String c s' => if isJsonSpace c then skipSpace s' else s
  | EmptyString => EmptyString
  end.

Definition digitValue (c : ascii) : option Z :=
  let n := nat_of_ascii c in
  if ((48 <=? n) && (n <=? 57))%nat then Some (Z.of_nat (n - 48)) else None.

(** Reads the digits at the head of [s] onto the accumulator. *)
Fixpoint readDigits (acc : Z) (s : string) : Z * string :=
  match s with
  | String c s' =>
      match digitValue c with
      | Some d => readDigits (10 * acc + d) s'
      | None => (acc, s)
      end
  | EmptyString => (acc, s)
  end.

Definition endsNumber (s : string) : bool :=
  match s with
  | String c _ =>
      match c with
      | "." | "e" | "E" => false
      | _ => true
      end%char
  | EmptyString => true
  end.

(** An integer without leading zeros. *)
Definition readInt (s : string) : option (Z * string) :=
  match s with
  | String c s' =>
      match digitValue c with
      | Some 0 =>
          match s' with
          | String c' _ =>
              match digitValue c' with
              | Some _ => None
              | None => if endsNumber s' then Some (0, s') else None
              end
          | EmptyString => Some (0, s')
          end
      | Some d =>
          let '(n, rest) := readDigits d s' in
          if endsNumber rest then Some (n, rest) else None
      | None => None
      end
  | EmptyString => None
  end.

(** The characters up to the closing quote, reversed onto [acc]. *)
Fixpoint readString (acc : string) (s : string) : option (string * string) :=
  match s with
  | String c s' =>
      if Ascii.eqb c "034"%char then Some (String.rev acc, s')
      else if Ascii.eqb c "\"%char || (nat_of_ascii c <? 32)%nat then None
      else readString (String c acc) s'
  | EmptyString => None
  end.

Definition readLiteral (lit : string) (v : value) (s : string)
  : option (value * string) :=
  if JsString.startsWith s lit
  then Some (v, JsString.slice s (String.length lit)) else None.

Inductive Mode : Type :=
| Value
| Elements (acc : list value)
| Members (acc : gmap string value).

Fixpoint read (fuel : nat) (mode : Mode) (s : string)
  : option (value * string) :=
  match fuel with
  | O => None
  | S fuel =>
      match mode with
      | Value =>
          match skipSpace s with
          | String c rest =>
              match c with
              | "n" => readLiteral "null" VNull (String c rest)
              | "t" => readLiteral "true" (VBool true) (String c rest)
              | "f" => readLiteral "false" (VBool false) (String c rest)
              | "034" =>
                  '(str, rest) ← readString "" rest; Some (VStr str, rest)
              | "-" =>
                  '(n, rest) ← readInt rest; Some (VNum (Int (- n)), rest)
              | "[" =>
                  match skipSpace rest with
                  | String "]" rest => Some (VArr [], rest)
                  | _ => read fuel (Elements []) rest
                  end
              | "{" =>
                  match skipSpace rest with
                  | String "}" rest => Some (VObj ∅, rest)
                  | _ => read fuel (Members ∅) rest
                  end
              | _ =>
                  '(n, rest) ← readInt (String c rest);
                  Some (VNum (Int n), rest)
              end%char
          | EmptyString => None
          end
      | Elements acc =>
          '(v, rest) ← read fuel Value s;
          match skipSpace rest with
          | String "," rest => read fuel (Elements (acc ++ [v])) rest
          | String "]" rest => Some (VArr (acc ++ [v]), rest)
          | _ => None
          end%char
      | Members acc =>
          match skipSpace s with
          | String "034" rest =>
              '(key, rest) ← readString "" rest;
              match skipSpace rest with
              | String ":" rest =>
                  '(v, rest) ← read fuel Value rest;
                  match skipSpace rest with
                  | String "," rest => read fuel (Members (<[key := v]> acc)) rest
                  | String "}" rest => Some (VObj (<[key := v]> acc), rest)
                  | _ => None
                  end
              | _ => None
              end
          | _ => None
          end%char
      end
  end.

Definition parse (text : string) : option value :=
  '(v, rest) ← read (2 * String.length text + 2) Value text;
  match skipSpace rest with
  | EmptyString => Some v
  | _ => None
  end.

End JsonFragment.

(* ================================================================== *)
(** * Vocabulary of the specification *)
(* ================================================================== *)

(** The notions in which the properties below are stated, and the sample
    data of the examples. *)
Module Spec.
Import Wire MiniMaxClient MiniMaxProvider.

(** ** Strings *)

(** Every code unit of the string is white space. *)
Fixpoint allWhiteSpace (s : string) : bool :=
  match s with
  | EmptyString => true
  | String c s' => JsString.isWhiteSpace c && allWhiteSpace s'
  end.

Definition whitespaceOnly (s : string) : Prop := allWhiteSpace s = true.

(** The strings of a list, one after the other, with no separator. *)
Definition joined (l : list string) : string := foldr String.app "" l.

(** [d] is the number of decimal digits of [n]. *)
Definition hasDecimalDigits (n d : nat) : Prop :=
  if decide (n = 0%nat) then d = 1%nat
  else (1 ≤ d ∧ 10 ^ (d - 1) ≤ n < 10 ^ d)%nat.

(** The number that a string of decimal digits denotes, on top of the
    digits [acc] read before it. *)
Fixpoint decimalValue (acc : nat) (s : string) : nat :=
  match s with
  | EmptyString => acc
  | String c s' => decimalValue (10 * acc + (nat_of_ascii c - 48)) s'
  end.

(** [r] is [ceil(d / 4)]. *)
Definition isCeilOfQuarter (d r : nat) : Prop := (d ≤ 4 * r < d + 4)%nat.

(** ** Token count *)

(** The number of characters in the text parts of a message. *)
Definition textLength (content : list Part) : nat :=
  sum_list_with (λ part, match part with
                         | LanguageModelTextPart value => String.length value
                         | _ => O
                         end) content.

(** ** Tool schemas *)

(** The schema [{type: "object", properties: {}}]. *)
Definition emptyObjectSchema : gmap string value :=
  {[ "type" := VStr "object"; "properties" := VObj ∅ ]}.

(** The wire definition of one host tool, when its name is usable. *)
Definition convertTool (tool : LanguageModelChatTool)
  : option MiniMaxToolDefinition :=
  name ← normalizeToolName (tool_name tool);
  Some {| fn_name := name;
          fn_description := normalizeToolDescription (tool_description tool);
          fn_parameters := normalizeToolParameters (inputSchema tool) |}.

(** ** Request driver *)

(** The codes that the error classifier assigns. *)
Definition classifierCodes : list string :=
  ["AUTHENTICATION_ERROR"; "API_ERROR"; "TIMEOUT"; "NETWORK_ERROR";
   "UNKNOWN_ERROR"].

(** The failure is abort-flavoured: an error named [AbortError], of
    whichever class. *)
Definition abortFlavoured (error : Thrown) : Prop :=
  match error with
  | APIError name _ _ | OtherError name _ => name = "AbortError"
  | NonError _ => False
  end.

(** The option [apiKey] is absent, or blank after trimming. *)
Definition blankApiKey (options : option ChatOptions) : Prop :=
  match options ≫= apiKey with
  | None => True
  | Some key => JsString.trim key = ""
  end.

(** A transport that answers every request with one chunk. *)
Definition echoTransport : Transport :=
  λ _, inr {| arrivals := [(false, {| choices := [] |})]; failure := None |}.

(** Options whose API key is two spaces. *)
Definition blankKeyOptions : option ChatOptions :=
  Some {| temperature := None; maxTokens := None; apiKey := Some "  ";
          tools := None; toolChoice := None; reasoningSplit := None |}.

(** ** Message mapper *)

(** The values of the text parts, in order. *)
Definition textParts (parts : list Part) : list string :=
  omap (λ part, match part with
                | LanguageModelTextPart value => Some value
                | _ => None
                end) parts.

(** The tool results, in order: call id and sub-parts. *)
Definition toolResults (parts : list Part) : list (string * list Part) :=
  omap (λ part, match part with
                | LanguageModelToolResultPart callId content =>
                    Some (callId, content)
                | _ => None
                end) parts.

Definition isToolResult (part : Part) : Prop :=
  match part with LanguageModelToolResultPart _ _ => True | _ => False end.

Section Rendering.
Variable JSON_stringify : Part → option (option string).
Variable String_ : Part → string.
Variable base64 : list Byte.byte → string.

(** The content of the tool message for a tool result with the sub-parts
    [content]: their renderings, concatenated in order and trimmed, or
    ["{}"] when that is empty. *)
Definition toolContent (content : list Part) : string :=
  let rendering :=
    JsString.trim
      (joined (renderResultPart JSON_stringify String_ base64 <$> content)) in
  if decide (rendering = "") then "{}" else rendering.

End Rendering.

(** A user-role message with the given parts. *)
Definition userTurn (parts : list Part) : LanguageModelChatRequestMessage :=
  {| role := User; content := ContentParts parts |}.

(** The message mapper of the examples.  Their parts are text, data and
    tool results of text, so that [JSON.stringify] and [String] are never
    called; base64 is only called on the empty data. *)
Definition sampleMapper (message : LanguageModelChatRequestMessage)
  : list MiniMaxMessage :=
  toMiniMaxMessages (λ _, Some None) (λ _, "") (λ _, "") (λ _, "{}") message.

(** ** Response reconstructor: tool calls *)

(** Every accumulator is stored under its own index. *)
Definition indexed (pending : gmap Z AccumulatedToolCall) : Prop :=
  ∀ k call, pending !! k = Some call → index call = k.

(** The index a fragment declares, when it is a non-negative integer. *)
Definition declaredIndex (rawCall : value) : option Z :=
  match Js.get rawCall "index" with
  | VNum (Int i) => if decide (0 ≤ i) then Some i else None
  | _ => None
  end.

(** The text a fragment supplies in a field: the field when it is a
    string, nothing otherwise. *)
Definition supplied (field : value) : string :=
  match field with VStr s => s | _ => "" end.

(** The key of the accumulator a fragment is merged into. *)
Definition targetOf (pending : gmap Z AccumulatedToolCall) (rawCall : value)
  : Z :=
  default (Z.of_nat (size pending)) (declaredIndex rawCall).

(** The accumulator under a key, a fresh one when there is none. *)
Definition accumulatorAt (pending : gmap Z AccumulatedToolCall) (target : Z)
  : AccumulatedToolCall :=
  default {| index := target; call_id := None; call_name := None;
             arguments := "" |} (pending !! target).

(** Last write wins: a non-empty supplied value replaces the old one. *)
Definition overwrite (old : option string) (new : string) : option string :=
  if decide (new = "") then old else Some new.

(** The pending map after the fragments of a list of choices. *)
Definition pendingAfter (pending : gmap Z AccumulatedToolCall)
    (cs : list Choice) : gmap Z AccumulatedToolCall :=
  foldl (λ pending choice, accumulateToolCalls choice pending) pending cs.

Definition indexBelow (a b : AccumulatedToolCall) : Prop := index a < index b.

(** An accumulator with a non-empty id and a non-empty name. *)
Definition hasIdAndName (call : AccumulatedToolCall) : Prop :=
  ∃ id name, call_id call = Some id ∧ id ≠ ""
             ∧ call_name call = Some name ∧ name ≠ "".

(** The accumulators that a finish signal reports, in order. *)
Definition emittedCalls (pending : gmap Z AccumulatedToolCall)
  : list AccumulatedToolCall :=
  filter (λ call, complete call) (orderedCalls pending).

(** The invocation reported for a complete accumulator. *)
Definition invocation (JSON_parse : string → option value)
    (call : AccumulatedToolCall) : ResponsePart :=
  ReportToolCall (default "" (call_id call)) (default "" (call_name call))
    (parseToolArguments JSON_parse (arguments call)).

Definition isToolCall (part : ResponsePart) : bool :=
  match part with ReportToolCall _ _ _ => true | _ => false end.

(** The tool-call invocations among the reported parts. *)
Definition toolCalls (parts : list ResponsePart) : list ResponsePart :=
  filter (λ part, isToolCall part) parts.

(** ** Response reconstructor: reasoning *)

(** The reasoning deltas among the reported parts. *)
Definition thinkingTexts (parts : list ResponsePart) : list string :=
  omap (λ part, match part with
                | ReportThinking delta _ _ => Some delta
                | _ => None
                end) parts.

(** The part emits the reasoning delta, in one of the two forms that a
    response has for reasoning: a thinking part, or a text part with the
    delta between [<think>] and [</think>]. *)
Definition emitsReasoning (delta : string) (part : ResponsePart) : Prop :=
  (∃ id metadata, part = ReportThinking delta id metadata)
  ∨ part = ReportText (VStr ("<think>" +:+ delta +:+ "</think>")).

(** The text of a reasoning detail, when its [text] field is a string. *)
Definition detailText (detail : value) : option string :=
  match Js.get detail "text" with
  | VStr t => Some t
  | _ => None
  end.

(** The latest reasoning text of a choice: the text of the last entry of
    [reasoning_details] that has one. *)
Definition latestText (choice : Choice) : option string :=
  match Js.get (delta choice) "reasoning_details" with
  | VArr details => last (omap detailText details)
  | _ => None
  end.

(** The reasoning delta between the buffer and the latest text, as
    [streamResponse] computes it. *)
Definition reasoningDelta (buffer latest : string) : string :=
  if JsString.startsWith latest buffer
  then JsString.slice latest (String.length buffer) else latest.

(** ** The loop *)

(** The choices that the loop of [streamResponse] processes: those of the
    chunks received before cancellation is observed. *)
Fixpoint processed (stream : list (bool * ChatCompletionChunk)) : list Choice :=
  match stream with
  | [] => []
  | (cancelled, chunk) :: rest =>
      if cancelled then [] else choices chunk ++ processed rest
  end.

(** ** Sample data *)

(** A choice whose delta carries the given reasoning details. *)
Definition reasoningChoice (details : list value) : Choice :=
  {| delta := VObj {[ "reasoning_details" := VArr details ]};
     finish_reason := VNull |}.

(** Cumulative reasoning texts, with entries that do not count. *)
Definition reasoningSample : list Choice :=
  [reasoningChoice [VObj {[ "text" := VStr "Let" ]}];
   reasoningChoice [VObj {[ "text" := VStr "L" ]}; VStr "noise";
                    VObj {[ "text" := VStr "Let me think" ]};
                    VObj {[ "text" := VNum (Int 5) ]}];
   reasoningChoice [VObj {[ "text" := VStr "Let me think" ]}];
   reasoningChoice [VObj {[ "text" := VStr "Go"; "id" := VStr "r1" ]}]].

(** A choice whose delta carries the given tool-call fragments. *)
Definition fragmentsChoice (fragments : list value) (finish : value) : Choice :=
  {| delta := VObj {[ "tool_calls" := VArr fragments ]};
     finish_reason := finish |}.

(** A choice that only carries a finish reason. *)
Definition finishChoice (reason : string) : Choice :=
  {| delta := VObj ∅; finish_reason := VStr reason |}.

(** The argument text of the sample call, in two fragments: an opening
    brace, the key [a] in double quotes and a colon; then [1] and the
    closing brace. *)
Definition argumentsHead : string :=
  "{" +:+ String "034" "a" +:+ String "034" ":".
Definition argumentsTail : string := "1}".

Definition sampleFragments : list value :=
  [VObj {[ "index" := VNum (Int 0); "id" := VStr "c1" ]};
   VObj {[ "index" := VNum (Int 0);
           "function" := VObj {[ "name" := VStr "run" ]} ]};
   VObj {[ "index" := VNum (Int 0);
           "function" := VObj {[ "arguments" := VStr argumentsHead ]} ]};
   VObj {[ "index" := VNum (Int 0);
           "function" := VObj {[ "arguments" := VStr argumentsTail ]} ]}].

(** One fragment per chunk, then a chunk with the finish reason. *)
Definition sampleStream : list (bool * ChatCompletionChunk) :=
  ((λ fragment, (false, {| choices := [fragmentsChoice [fragment] VNull] |}))
     <$> sampleFragments)
  ++ [(false, {| choices := [finishChoice "tool_calls"] |})].

(** Two complete calls that arrive out of order and one call without an
    id. *)
Definition outOfOrder : list Choice :=
  [fragmentsChoice
     [VObj {[ "index" := VNum (Int 1); "id" := VStr "b";
              "function" := VObj {[ "name" := VStr "second" ]} ]};
      VObj {[ "index" := VNum (Int 0); "id" := VStr "a";
              "function" := VObj {[ "name" := VStr "first" ]} ]}] VNull;
   fragmentsChoice
     [VObj {[ "index" := VNum (Int 2);
              "function" := VObj {[ "name" := VStr "anonymous" ]} ]}] VNull].

(** The notions that follow also speak of the host and of the stored key. *)
Import Vscode MiniMaxAuthentication.

(** ** Names and keys *)

(** A string that does not begin with white space. *)
Definition startsClean (s : string) : bool :=
  match s with
  | EmptyString => true
  | String c _ => negb (JsString.isWhiteSpace c)
  end.

(** A string that does not end with white space. *)
Definition endsClean (s : string) : bool := startsClean (String.rev s).

(** A usable name or key: not empty, no white space at either end. *)
Definition usable (s : string) : Prop :=
  s ≠ "" ∧ startsClean s = true ∧ endsClean s = true.

(** [s] is [t] with white space added at its ends. *)
Definition padded (s t : string) : Prop :=
  ∃ l r, s = l +:+ t +:+ r ∧ allWhiteSpace l = true ∧ allWhiteSpace r = true.

(** ** Tool definitions *)

(** The invariant of the parameters of a tool definition: the key [type]
    is present, and an object schema has the key [properties]. *)
Definition wellFormedSchema (schema : gmap string value) : Prop :=
  is_Some (schema !! "type")
  ∧ (schema !! "type" = Some (VStr "object") → is_Some (schema !! "properties")).

Definition wellFormedDefinition (definition : MiniMaxToolDefinition) : Prop :=
  usable (fn_name definition)
  ∧ (∀ description, fn_description definition = Some description →
       usable description)
  ∧ wellFormedSchema (fn_parameters definition).

(** No name of the tool survives normalization. *)
Definition nameless (tool : LanguageModelChatTool) : Prop :=
  match tool_name tool with
  | None => True
  | Some name => whitespaceOnly name
  end.

(** ** Wire messages *)

(** The [role] of a wire message. *)
Definition wireRole (message : MiniMaxMessage) : string :=
  match message with
  | SystemMessage _ => "system"
  | UserMessage _ => "user"
  | AssistantMessage _ _ _ => "assistant"
  | ToolMessage _ _ => "tool"
  end.

(** A tool message has usable content; other messages are not
    constrained. *)
Definition toolContentUsable (message : MiniMaxMessage) : Prop :=
  match message with
  | ToolMessage _ content => usable content
  | _ => True
  end.

(** ** Assistant turns *)

(** A list, or nothing when it is empty. *)
Definition unlessEmpty {A : Type} (l : list A) : option (list A) :=
  match l with [] => None | _ => Some l end.

(** The wire form of the tool calls of an assistant turn, in order; an
    absent input is sent as the empty object. *)
Definition wireToolCalls (stringify : value → string) (parts : list Part)
  : list MiniMaxToolCall :=
  omap (λ part,
          match part with
          | LanguageModelToolCallPart callId name input =>
              Some {| tc_id := callId; tc_name := name;
                      tc_arguments :=
                        stringify match input with
                                  | VUndefined | VNull => VObj ∅
                                  | _ => input
                                  end |}
          | _ => None
          end) parts.

(** The strings of an array of strings. *)
Fixpoint stringsOf (items : list value) : option (list string) :=
  match items with
  | [] => Some []
  | VStr s :: items => cons s <$> stringsOf items
  | _ :: _ => None
  end.

(** The text of a thinking part: its [value], a string or an array of
    strings to concatenate. *)
Definition thinkingText (part : Part) : option string :=
  match part with
  | OtherPart (VObj fields) =>
      match fields !! "value" with
      | Some (VStr s) => Some s
      | Some (VArr items) => joined <$> stringsOf items
      | _ => None
      end
  | _ => None
  end.

(** The text of a thinking part that has more than white space. *)
Definition reasoningText (part : Part) : option string :=
  text ← thinkingText part;
  if decide (whitespaceOnly text) then None else Some text.

(** The [metadata] object of a part, empty when it has none. *)
Definition metadataOf (part : Part) : gmap string value :=
  match part with
  | OtherPart (VObj fields) =>
      match fields !! "metadata" with
      | Some (VObj metadata) => metadata
      | _ => ∅
      end
  | _ => ∅
  end.

(** [detail] is the reasoning detail for a thinking part with the text
    [text], at the position [position]: the keys of the metadata of the
    part as they are, except [__proto__], which is never a key of the
    detail; and [type], [index] and [text] unless the metadata has
    them. *)
Definition detailFor (part : Part) (text : string) (position : nat)
    (detail : gmap string value) : Prop :=
  detail !! "__proto__" = None
  ∧ (∀ k v, k ≠ "__proto__" →
       metadataOf part !! k = Some v → detail !! k = Some v)
  ∧ (metadataOf part !! "type" = None →
     detail !! "type" = Some (VStr "reasoning.text"))
  ∧ (metadataOf part !! "index" = None →
     detail !! "index" = Some (VNum (Int (Z.of_nat position))))
  ∧ (metadataOf part !! "text" = None → detail !! "text" = Some (VStr text)).
(** The thinking parts of an assistant turn that have text, in order. *)
Definition reasoningParts (parts : list Part) : list Part :=
  filter (λ part, is_Some (reasoningText part)) parts.

(** ** Response reconstructor: text and reasoning *)

(** The contents of the text parts among the reported parts, in order. *)
Definition reportedTexts (parts : list ResponsePart) : list value :=
  omap (λ part, match part with
                | ReportText content => Some content
                | _ => None
                end) parts.

(** The field [content] of the delta of a choice. *)
Definition contentOf (choice : Choice) : value :=
  Js.get (delta choice) "content".

Definition isThinking (part : ResponsePart) : Prop :=
  match part with ReportThinking _ _ _ => True | _ => False end.

(** The reasoning texts of the choices are cumulative from [buffer] on:
    each one extends the one before it. *)
Fixpoint cumulative (buffer : string) (cs : list Choice) : Prop :=
  match cs with
  | [] => True
  | choice :: cs =>
      match latestText choice with
      | Some latest =>
          (∃ suffix, latest = buffer +:+ suffix) ∧ cumulative latest cs
      | None => cumulative buffer cs
      end
  end.

(** ** Response reconstructor: accumulators *)

(** An id or a name that has been received: a string that is not
    empty. *)
Definition known (field : option string) : Prop :=
  ∃ s, field = Some s ∧ s ≠ "".

(** The accumulator [new] is a later stage of the accumulator [old]:
    the same index, the argument text extended, and the id and the name
    still known when they were. *)
Definition grown (old new : AccumulatedToolCall) : Prop :=
  index new = index old
  ∧ (∃ suffix, arguments new = arguments old +:+ suffix)
  ∧ (known (call_id old) → known (call_id new))
  ∧ (known (call_name old) → known (call_name new)).

(** ** Response reconstructor: fragments without an index *)

(** The tool-call fragments of the choices, in order of arrival. *)
Definition fragmentsOf (cs : list Choice) : list value :=
  cs ≫= λ choice,
    match Js.get (delta choice) "tool_calls" with
    | VArr fragments => fragments
    | _ => []
    end.

(** A fragment that is an object and declares no index. *)
Definition unindexed (fragment : value) : Prop :=
  Js.isObjectLike fragment = true ∧ declaredIndex fragment = None.

(** The accumulator that a fragment opens at [position]. *)
Definition opened (position : nat) (fragment : value) : AccumulatedToolCall :=
  {| index := Z.of_nat position;
     call_id := overwrite None (supplied (Js.get fragment "id"));
     call_name :=
       overwrite None (supplied (Js.get (Js.get fragment "function") "name"));
     arguments := supplied (Js.get (Js.get fragment "function") "arguments") |}.

(** ** Request driver: forwarding *)

(** The chunks that arrive before cancellation is observed. *)
Fixpoint beforeCancellation (arrivals : list (bool * ChatCompletionChunk))
  : list ChatCompletionChunk :=
  match arrivals with
  | (false, chunk) :: rest => chunk :: beforeCancellation rest
  | _ => []
  end.

(** ** Model catalogue *)

(** The setting [minimax.visibleModels] is an array that lists the
    id. *)
Definition configured (raw : value) (id : string) : Prop :=
  ∃ items, raw = VArr items ∧ VStr id ∈ items.

(** The API key that the configuration of the options carries: the
    string [apiKey] of the object [configuration]. *)
Definition configurationKey (options : gmap string value) (key : string)
  : Prop :=
  ∃ config, options !! "configuration" = Some config
            ∧ Js.isObjectLike config = true
            ∧ Js.get config "apiKey" = VStr key.

(** ** Responses *)

(** The messages of the errors that the provider throws. *)
Definition invalidKeyMessage : string :=
  "Invalid API key. Please set a new one using "
    +:+ String "034" ("MiniMax: Set API Key" +:+ String "034" ".").

Definition rateLimitMessage : string :=
  "Rate limit exceeded. Please wait and try again.".

Definition missingKeyMessage : string :=
  "API key not configured. Use "
    +:+ String "034" ("MiniMax: Set API Key" +:+ String "034" " command.").

(** The upstream failure is an API error with the given HTTP status. *)
Definition hasStatus (cause : Thrown) (status : Z) : Prop :=
  ∃ name message, cause = APIError name message (Some (Int status)).

(** The model carries no key of its own: none, or white space only. *)
Definition keyless (model : LanguageModelChatInformation) : Prop :=
  match minimaxApiKey model with
  | None => True
  | Some key => whitespaceOnly key
  end.
(** The key that a response uses, and the host after it has been
    looked up: the key of the model when it is more than white space,
    else the stored key, else the key prompted for. *)
Definition selectKey (input : option string) (host : Host)
    (model : LanguageModelChatInformation) : option string * Host :=
  match minimaxApiKey model with
  | Some key =>
      if decide (whitespaceOnly key) then getOrPromptApiKey input host
      else (Some key, host)
  | None => getOrPromptApiKey input host
  end.

Definition unsupportedModelMessage (id : string) : string :=
  "Unsupported model "
    +:+ String "034" (id +:+ String "034" " selected for MiniMax Coding Plan.").

(** ** Sample data for responses *)

Definition idleHost : Host := {| secrets := ∅; notifications := [] |}.

(** The first model of the table, with the given key attached. *)
Definition keyedModel (key : option string) : LanguageModelChatInformation :=
  {| info_id := "MiniMax-M2.5"; info_name := "MiniMax M2.5";
     info_detail := "Coding Plan"; info_family := "MiniMax-M2.5";
     info_version := "1.0"; maxInputTokens := 204800;
     maxOutputTokens := 204800; toolCalling := true;
     minimaxApiKey := key |}.

Definition plainOptions : ProvideLanguageModelChatResponseOptions :=
  {| options_tools := None; toolMode := LanguageModelChatToolMode.Auto;
     modelOptions := None |}.

(** A transport that rejects every request with the given status. *)
Definition rejectingTransport (status : Z) : Transport :=
  λ _, inl (APIError "Error" "rejected" (Some (Int status))).

(** A transport that delivers two chunks of text and then fails. *)
Definition breakingTransport : Transport :=
  λ _, inr {| arrivals :=
                [(false, {| choices :=
                              [{| delta := VObj {[ "content" := VStr "Hel" ]};
                                  finish_reason := VNull |}] |});
                 (false, {| choices :=
                              [{| delta := VObj {[ "content" := VStr "lo" ]};
                                  finish_reason := VNull |}] |})];
              failure := Some (OtherError "Error" "socket hang up") |}.

(** The provider of the examples, on a host with thinking parts. *)
Definition sampleResponse (transport : Transport) (input : option string)
    (host : Host) (model : LanguageModelChatInformation)
    (observed : nat → bool) : Response :=
  provideLanguageModelChatResponse (λ _, Some None) (λ _, "") (λ _, "")
    (λ _, "{}") JsonFragment.parse (λ _, "") true transport input host model
    [{| role := User; content := ContentString "Hi" |}] plainOptions observed.

(** ** Reasoning updates *)

(** The last entry of [reasoning_details] that has a text. *)
Definition lastTextDetail (choice : Choice) : option value :=
  match Js.get (delta choice) "reasoning_details" with
  | VArr details => last (filter (λ detail, is_Some (detailText detail)) details)
  | _ => None
  end.

(** A string with more than white space, less the white space at its
    ends. *)
Definition usableString (v : value) : option string :=
  match v with
  | VStr s => if decide (whitespaceOnly s) then None else Some (JsString.trim s)
  | _ => None
  end.

(** The first usable string among the candidates. *)
Definition firstUsable (candidates : list value) : option string :=
  head (omap usableString candidates).

(** The reasoning update that a detail stands for: its text, its id
    under the first of the three names that gives one, and its metadata
    object. *)
Definition updateOf (detail : value) : ReasoningUpdate :=
  {| text := default "" (detailText detail);
     update_id :=
       firstUsable [Js.get detail "id"; Js.get detail "reasoning_id";
                    Js.get detail "thinking_id"];
     update_metadata :=
       match Js.get detail "metadata" with
       | VObj metadata => Some metadata
       | _ => None
       end |}.

End Spec.

(* ================================================================== *)
(** * The embedding at work *)
(* ================================================================== *)

Module Examples.
Import Wire MiniMaxClient MiniMaxProvider Spec.

Example trim_both_ends :
  JsString.trim (String "009" " a b " +:+ String "160" "") = "a b".
Proof. reflexivity. Qed.

Example startsWith_prefix :
  JsString.startsWith "Let me think" "Let" = true
  ∧ JsString.slice "Let me think" 3 = " me think"
  ∧ JsString.startsWith "Go" "Let me think" = false.
Proof. by repeat split. Qed.

Example ofNat_decimal :
  JsString.ofNat 0 = "0" ∧ JsString.ofNat 42 = "42"
  ∧ JsString.ofNat (Z.to_nat 10000) = "10000".
Proof. by repeat split; vm_compute. Qed.

Example estimateTokens_rounds_up :
  TokenCounter.estimateTokens "" = O
  ∧ TokenCounter.estimateTokens "abcd" = 1%nat
  ∧ TokenCounter.estimateTokens "abcde" = 2%nat.
Proof. by repeat split. Qed.

Example parse_sample :
  JsonFragment.parse (argumentsHead +:+ argumentsTail)
  = Some (VObj {[ "a" := VNum (Int 1) ]})
  ∧ JsonFragment.parse " [1, -2, true, null] "
    = Some (VArr [VNum (Int 1); VNum (Int (-2)); VBool true; VNull])
  ∧ JsonFragment.parse "not json" = None.
Proof. by repeat split; vm_compute. Qed.

Example orderedCalls_by_index :
  index <$> orderedCalls (pendingAfter ∅ outOfOrder) = [0; 1; 2].
Proof. by vm_compute. Qed.

Example tool_result_rendering :
  concatToolResultContent
    (λ part, match part with
             | OtherPart VUndefined => Some None
             | OtherPart VNull => Some (Some "null")
             | _ => None
             end)
    (λ _, "[object Object]") (λ _, "AAEC")
    [LanguageModelTextPart " ok ";
     LanguageModelDataPart [] "image/png";
     OtherPart (VObj {[ "value" := VStr "!" ]});
     OtherPart VNull;
     OtherPart VUndefined;
     LanguageModelToolCallPart "c" "f" VNull]
  = "ok [data:image/png;base64,AAEC]!nullundefined[object Object]".
Proof. reflexivity. Qed.

Example api_key_passes :
  requests (streamChat (λ _, "") echoTransport (Some "MiniMax-M2.5")
              [UserMessage "Ping"]
              (Some {| temperature := None; maxTokens := Some (Int 1);
                       apiKey := Some " key "; tools := None;
                       toolChoice := None; reasoningSplit := None |}))
  = [{| p_apiKey := "key"; p_baseURL := baseUrl;
        p_model := Some "MiniMax-M2.5";
        p_stream := true; p_messages := [ParamUser "Ping"];
        p_temperature := Int 1; p_max_tokens := Int 1; p_tools := None;
        p_tool_choice := None; p_reasoning_split := true |}].
Proof. reflexivity. Qed.

Example maxTokens_resolved :
  resolveMaxTokens
    {| options_tools := None;
       toolMode := Vscode.LanguageModelChatToolMode.Auto;
       modelOptions := Some {[ "maxTokens" := VNum (Int 256) ]} |} = Int 256
  ∧ resolveMaxTokens
      {| options_tools := None;
         toolMode := Vscode.LanguageModelChatToolMode.Auto;
         modelOptions := Some {[ "maxTokens" := VNum NonIntegral ]} |}
    = Int 8192
  ∧ resolveMaxTokens plainOptions = Int 8192.
Proof. by repeat split. Qed.

Example visible_models_default :
  getVisibleModels VUndefined = SUPPORTED_MODELS
  ∧ model_id <$> getVisibleModels (VArr [VStr "MiniMax-M2"; VStr "MiniMax-M2.5"])
    = ["MiniMax-M2.5"; "MiniMax-M2"].
Proof. by split. Qed.

Example rate_limit_reported :
  throwMappedError
    (ClientError {| message := "Too many requests"; code := "API_ERROR";
                    statusCode := Some (Int 429) |}) idleHost
  = (PlainError "Rate limit exceeded. Please wait and try again.", idleHost).
Proof. reflexivity. Qed.

Example unsupported_model_rejected :
  sampleResponse echoTransport None idleHost
    {| info_id := "MiniMax-M3"; info_name := ""; info_detail := "";
       info_family := ""; info_version := ""; maxInputTokens := 0;
       maxOutputTokens := 0; toolCalling := true;
       minimaxApiKey := Some "sk-1" |} (λ _, false)
  = {| response_host := idleHost; response_requests := [];
       response_reported := [];
       response_raised :=
         Some (PlainError (unsupportedModelMessage "MiniMax-M3")) |}.
Proof. reflexivity. Qed.

(** The id [toString] is no model, and is not rejected: the model table
    inherits a member of this name, and the request goes out without a
    model. *)
Example inherited_name_requested :
  p_model
    <$> response_requests
          (sampleResponse echoTransport None idleHost
             {| info_id := "toString"; info_name := ""; info_detail := "";
                info_family := ""; info_version := ""; maxInputTokens := 0;
                maxOutputTokens := 0; toolCalling := true;
                minimaxApiKey := Some "sk-1" |} (λ _, false))
  = [None].
Proof. reflexivity. Qed.

Example connection_test_without_key :
  Extension.testConnection (λ _, "") echoTransport None None idleHost
  = (Vscode.notify
       (Vscode.Information "API key is not set. Would you like to set it now?")
       idleHost, []).
Proof. reflexivity. Qed.

End Examples.

(* ================================================================== *)
(** * Properties: strings *)
(* ================================================================== *)

Module JsStringFacts.
Import JsString Spec.
#[local] Open Scope nat_scope.

Lemma length_zero_iff (s : string) : String.length s = 0 ↔ s = "".
Proof. destruct s; simpl; split; intros; congruence. Qed.

Lemma nonEmpty_false (s : string) : nonEmpty s = false ↔ s = "".
Proof. destruct s; simpl; split; intros; congruence. Qed.

Lemma nonEmpty_true (s : string) : nonEmpty s = true ↔ s ≠ "".
Proof. destruct s; simpl; split; intros; congruence. Qed.

Lemma string_app_empty_r (s : string) : s +:+ "" = s.
Proof. unfold String.app. induction s; simpl; [done|]. by f_equal. Qed.

Lemma string_app_assoc (s t u : string) : (s +:+ t) +:+ u = s +:+ (t +:+ u).
Proof.
  unfold String.app. induction s; simpl; [done|]. by f_equal.
Qed.

Lemma startsWith_app (p t : string) : startsWith (p +:+ t) p = true.
Proof.
  unfold String.app. induction p as [|a p IH]; simpl; [done|].
  by rewrite Ascii.eqb_refl.
Qed.

Lemma startsWith_true (s p : string) :
  startsWith s p = true ↔ ∃ t, s = p +:+ t.
Proof.
  split; [|intros [t ->]; apply startsWith_app].
  unfold String.app. revert s.
  induction p as [|a p IH]; intros s; simpl; [by exists s|].
  destruct s as [|b s]; [done|].
  destruct (Ascii.eqb_spec a b) as [->|]; [|done].
  intros [t ->]%IH. by exists t.
Qed.

Lemma slice_app (p t : string) : slice (p +:+ t) (String.length p) = t.
Proof.
  unfold String.app. induction p as [|a p IH]; simpl; [by destruct t|done].
Qed.

(** ** Decimal digits *)

Lemma hasDecimalDigits_small n d : n < 10 → hasDecimalDigits n d → d = 1.
Proof.
  unfold hasDecimalDigits. case_decide; [done|].
  intros Hn (Hd & Hlo & _).
  destruct d as [|[|d]]; [lia|done|].
  replace (S (S d) - 1) with (S d) in Hlo by lia.
  rewrite Nat.pow_succ_r' in Hlo.
  assert (1 ≤ 10 ^ d) by (apply Nat.neq_0_lt_0, Nat.pow_nonzero; lia). lia.
Qed.

Lemma hasDecimalDigits_div n d :
  10 ≤ n → hasDecimalDigits n d →
  ∃ d', d = S d' ∧ hasDecimalDigits (n / 10) d'.
Proof.
  unfold hasDecimalDigits. case_decide; [lia|].
  intros Hn (Hd & Hlo & Hhi).
  destruct d as [|[|d]]; [lia| simpl in Hhi; lia |].
  exists (S d). split; [done|].
  case_decide as Hz.
  { apply Nat.div_small_iff in Hz; lia. }
  replace (S (S d) - 1) with (S d) in Hlo by lia.
  replace (S d - 1) with d by lia.
  rewrite Nat.pow_succ_r' in Hlo, Hhi.
  split; [lia|]. split.
  - apply Nat.div_le_lower_bound; lia.
  - apply Nat.Div0.div_lt_upper_bound; lia.
Qed.

Lemma digitsFrom_length fuel : ∀ n acc d,
  n ≤ fuel → hasDecimalDigits n d →
  String.length (digitsFrom fuel n acc) = d + String.length acc.
Proof.
  induction fuel as [|fuel IH]; intros n acc d Hfuel Hd;
    cbn [digitsFrom].
  - apply hasDecimalDigits_small in Hd; [|lia]. by subst.
  - destruct (Nat.eqb_spec (n / 10) 0) as [Hz|Hz].
    + apply Nat.div_small_iff in Hz; [|lia].
      apply hasDecimalDigits_small in Hd; [|done]. by subst.
    + assert (10 ≤ n) as Hn.
      { destruct (decide (n < 10)) as [Hlt|]; [|lia].
        by apply Nat.div_small_iff in Hlt. }
      destruct (hasDecimalDigits_div n d Hn Hd) as (d' & -> & Hd').
      rewrite (IH (n / 10) _ d'); [simpl; lia| |done].
      assert (n / 10 < n) by (apply Nat.div_lt; lia). lia.
Qed.

Lemma ofNat_length n d :
  hasDecimalDigits n d → String.length (ofNat n) = d.
Proof.
  intros Hd. unfold ofNat.
  rewrite (digitsFrom_length n n "" d); [simpl; lia|lia|done].
Qed.

Lemma digitChar_value (k : nat) :
  k < 10 → nat_of_ascii (digitChar k) - 48 = k.
Proof.
  intros Hk. unfold digitChar. rewrite nat_ascii_embedding; lia.
Qed.

Lemma digitsFrom_value fuel : ∀ n acc d a,
  n ≤ fuel → hasDecimalDigits n d →
  decimalValue a (digitsFrom fuel n acc) = decimalValue (a * 10 ^ d + n) acc.
Proof.
  assert (∀ n a acc, n < 10 →
            decimalValue a (String (digitChar (n mod 10)) acc)
            = decimalValue (a * 10 ^ 1 + n) acc) as Hsmall.
  { intros n a acc Hn. cbn [decimalValue].
    rewrite digitChar_value by (apply Nat.mod_upper_bound; lia).
    rewrite Nat.mod_small by done. f_equal. simpl. lia. }
  induction fuel as [|fuel IH]; intros n acc d a Hfuel Hd;
    cbn [digitsFrom].
  - pose proof (hasDecimalDigits_small n d ltac:(lia) Hd) as ->.
    apply Hsmall. lia.
  - destruct (Nat.eqb_spec (n / 10) 0) as [Hz|Hz].
    + apply Nat.div_small_iff in Hz; [|lia].
      pose proof (hasDecimalDigits_small n d Hz Hd) as ->.
      by apply Hsmall.
    + assert (10 ≤ n) as Hn.
      { destruct (decide (n < 10)) as [Hlt|]; [|lia].
        by apply Nat.div_small_iff in Hlt. }
      destruct (hasDecimalDigits_div n d Hn Hd) as (d' & -> & Hd').
      assert (n / 10 < n) by (apply Nat.div_lt; lia).
      rewrite (IH (n / 10) _ d') by (done || lia).
      cbn [decimalValue].
      rewrite digitChar_value by (apply Nat.mod_upper_bound; lia).
      f_equal. rewrite Nat.pow_succ_r'.
      pose proof (Nat.div_mod_eq n 10). lia.
Qed.

(** Every number has a number of decimal digits. *)
Lemma hasDecimalDigits_total (n : nat) : ∃ d, hasDecimalDigits n d.
Proof.
  induction n as [n IH] using lt_wf_ind.
  destruct (decide (n < 10)) as [Hsmall|Hlarge].
  - exists 1. unfold hasDecimalDigits. case_decide; [done|]. simpl. lia.
  - destruct (IH (n / 10)) as [d Hd]; [apply Nat.div_lt; lia|].
    exists (S d). unfold hasDecimalDigits in *.
    assert (n / 10 ≠ 0) as Hz.
    { intros Hz. apply Nat.div_small_iff in Hz; lia. }
    rewrite decide_False in Hd by done. rewrite decide_False by lia.
    destruct Hd as (Hd & Hlo & Hhi).
    pose proof (Nat.div_mod_eq n 10).
    pose proof (Nat.mod_upper_bound n 10 ltac:(lia)).
    replace (S d - 1) with (S (d - 1)) by lia.
    rewrite !Nat.pow_succ_r'. lia.
Qed.

(** [ofNat n] is the decimal representation of [n]. *)
Lemma ofNat_value (n : nat) : decimalValue 0 (ofNat n) = n.
Proof.
  destruct (hasDecimalDigits_total n) as [d Hd]. unfold ofNat.
  by rewrite (digitsFrom_value n n "" d 0) by (done || lia).
Qed.

End JsStringFacts.

(* ================================================================== *)
(** * Properties: token count *)
(* ================================================================== *)

Module TokenCountFacts.
Import MiniMaxProvider Spec JsStringFacts.
#[local] Open Scope nat_scope.

Lemma ceilDiv_quarter (d : nat) :
  isCeilOfQuarter d (TokenCounter.ceilDiv d TokenCounter.charsPerToken).
Proof.
  unfold isCeilOfQuarter, TokenCounter.ceilDiv, TokenCounter.charsPerToken.
  pose proof (Nat.div_mod_eq d 4) as Heq.
  pose proof (Nat.mod_upper_bound d 4 ltac:(lia)) as Hlt.
  destruct (Nat.eqb_spec (d mod 4) 0); lia.
Qed.

Lemma totalChars_textLength (content : list Part) (start : nat) :
  foldl (λ totalChars part,
           match part with
           | LanguageModelTextPart value => totalChars + String.length value
           | _ => totalChars
           end) start content = start + textLength content.
Proof.
  unfold textLength. revert start.
  induction content as [|part content IH]; intros start; [simpl; lia|].
  cbn [foldl sum_list_with]. rewrite IH. destruct part; lia.
Qed.

(** C10.  For a structured request message, [provideTokenCount] adds up
    the lengths of the text parts into a total [N] and estimates the
    tokens of [String(N)], the decimal representation of [N]: the result
    is [ceil(d / 4)] for the number [d] of decimal digits of [N], not
    [ceil(N / 4)].  A total of 10000 characters gives 2 (and not 2500), a
    total of 0 gives 1. *)
Theorem provideTokenCount_counts_digits (content : list Part) :
  let N := textLength content in
  let r := provideTokenCount (inr content) in
  r = TokenCounter.estimateTokens (JsString.ofNat N)
  ∧ decimalValue 0 (JsString.ofNat N) = N
  ∧ (∀ d, hasDecimalDigits N d → isCeilOfQuarter d r)
  ∧ (Z.of_nat N = 10000%Z → r = 2 ∧ r ≠ TokenCounter.ceilDiv N 4)
  ∧ (N = 0 → r = 1).
Proof.
  intros N r.
  assert (r = TokenCounter.estimateTokens (JsString.ofNat N)) as Hr.
  { unfold r, provideTokenCount. by rewrite totalChars_textLength. }
  assert (∀ d, hasDecimalDigits N d → isCeilOfQuarter d r) as Hdigits.
  { intros d Hd. rewrite Hr. unfold TokenCounter.estimateTokens.
    rewrite (ofNat_length N d Hd).
    destruct (Nat.eqb_spec d 0) as [->|_]; [|apply ceilDiv_quarter].
    unfold hasDecimalDigits in Hd. case_decide; lia. }
  split; [done|]. split; [apply ofNat_value|]. split; [done|]. split.
  - intros HN.
    assert (hasDecimalDigits N 5) as Hd.
    { unfold hasDecimalDigits. rewrite decide_False by lia.
      change (5 - 1) with 4.
      assert (Z.of_nat (10 ^ 4) = 10000%Z)
        by (rewrite Nat2Z.inj_pow; reflexivity).
      assert (Z.of_nat (10 ^ 5) = 100000%Z)
        by (rewrite Nat2Z.inj_pow; reflexivity).
      lia. }
    apply Hdigits in Hd. unfold isCeilOfQuarter in Hd.
    split; [lia|].
    pose proof (ceilDiv_quarter N) as Hq. unfold isCeilOfQuarter in Hq.
    unfold TokenCounter.charsPerToken in Hq. lia.
  - intros HN.
    assert (hasDecimalDigits N 1) as Hd.
    { rewrite HN. by unfold hasDecimalDigits. }
    apply Hdigits in Hd. unfold isCeilOfQuarter in Hd. lia.
Qed.

Lemma provideTokenCount_counts_digits_witness :
  provideTokenCount
    (inr [LanguageModelTextPart (JsString.repeat "abcde" 1000);
          OtherPart VNull;
          LanguageModelTextPart (JsString.repeat "xy" 2500)]) = 2
  ∧ provideTokenCount (inr [LanguageModelDataPart [] "text/plain"]) = 1
  ∧ isCeilOfQuarter 2
      (provideTokenCount (inr [LanguageModelTextPart "hello, world"])).
Proof.
  split; [|split].
  - apply (provideTokenCount_counts_digits
             [LanguageModelTextPart (JsString.repeat "abcde" 1000);
              OtherPart VNull;
              LanguageModelTextPart (JsString.repeat "xy" 2500)]).
    vm_compute. reflexivity.
  - apply (provideTokenCount_counts_digits
             [LanguageModelDataPart [] "text/plain"]).
    reflexivity.
  - apply (provideTokenCount_counts_digits
             [LanguageModelTextPart "hello, world"]).
    vm_compute. lia.
Defined.

End TokenCountFacts.

(* ================================================================== *)
(** * Properties: tool schema normalizer *)
(* ================================================================== *)

Module ToolSchemaFacts.
Import Wire MiniMaxProvider Spec.

Lemma has_true (fields : gmap string value) (k : string) :
  Js.has fields k = true ↔ is_Some (fields !! k).
Proof. unfold Js.has. by rewrite bool_decide_eq_true. Qed.

Lemma has_false (fields : gmap string value) (k : string) :
  Js.has fields k = false ↔ fields !! k = None.
Proof.
  unfold Js.has. by rewrite bool_decide_eq_false, eq_None_not_Some.
Qed.

Lemma isString_true (v : value) (s : string) :
  Js.isString v s = true ↔ v = VStr s.
Proof.
  destruct v; simpl; try (split; [done|congruence]).
  rewrite bool_decide_eq_true. split; congruence.
Qed.

Lemma fallback_eq : fallback = emptyObjectSchema.
Proof. apply map_eq. intros k. unfold fallback, emptyObjectSchema. done. Qed.

Lemma convertTools_fold (tools : list LanguageModelChatTool)
    (start : list MiniMaxToolDefinition) :
  foldl (λ converted tool,
           match normalizeToolName (tool_name tool) with
           | None => converted
           | Some name =>
               converted ++
                 [{| fn_name := name;
                     fn_description :=
                       normalizeToolDescription (tool_description tool);
                     fn_parameters :=
                       normalizeToolParameters (inputSchema tool) |}]
           end) start tools = start ++ omap convertTool tools.
Proof.
  revert start. induction tools as [|tool tools IH]; intros start; simpl.
  - by rewrite app_nil_r.
  - rewrite IH. unfold convertTool at 2.
    destruct (normalizeToolName (tool_name tool)); simpl; [|done].
    by rewrite <-app_assoc.
Qed.

(** C7.  A schema that is not a plain object (absent, a primitive, a list)
    is replaced by [{type: "object", properties: {}}].  A plain object is
    copied key by key; [type: "object"] is added only when the key [type]
    is missing, and [properties: {}] only when the type then is ["object"]
    and the key [properties] is missing.  [{type: "string"}] passes
    through, [[]] and [{}] become [{type: "object", properties: {}}].
    [convertTools] normalizes the schema of every tool it keeps. *)
Theorem normalizeToolParameters_spec :
  (∀ v, (∀ fields, v ≠ VObj fields) →
        normalizeToolParameters v = emptyObjectSchema)
  ∧ (∀ fields, let r := normalizeToolParameters (VObj fields) in
       (∀ k, k ≠ "type" → k ≠ "properties" → r !! k = fields !! k)
       ∧ r !! "type" = Some (default (VStr "object") (fields !! "type"))
       ∧ (∀ p, fields !! "properties" = Some p → r !! "properties" = Some p)
       ∧ (fields !! "properties" = None →
          r !! "type" = Some (VStr "object") →
          r !! "properties" = Some (VObj ∅))
       ∧ (fields !! "properties" = None →
          r !! "type" ≠ Some (VStr "object") →
          r !! "properties" = None))
  ∧ normalizeToolParameters (VObj {[ "type" := VStr "string" ]})
    = {[ "type" := VStr "string" ]}
  ∧ normalizeToolParameters (VArr []) = emptyObjectSchema
  ∧ normalizeToolParameters (VObj ∅) = emptyObjectSchema
  ∧ (∀ tools, default [] (convertTools tools)
              = omap convertTool (default [] tools)).
Proof.
  split; [|split; [|split; [|split; [|split]]]].
  - intros v Hv. rewrite <-fallback_eq. destruct v; try done.
    by destruct (Hv fields).
  - intros fields r. unfold r, normalizeToolParameters.
    destruct (Js.has fields "type") eqn:Htype; simpl.
    + apply has_true in Htype as [t Ht].
      rewrite Ht. simpl.
      destruct (Js.isString t "object") eqn:Hobj; simpl.
      * apply isString_true in Hobj as ->.
        destruct (Js.has fields "properties") eqn:Hprops; simpl.
        -- apply has_true in Hprops as [p Hp].
           repeat split; intros; simplify_map_eq; done.
        -- apply has_false in Hprops.
           repeat split; intros; simplify_map_eq; done.
      * assert (t ≠ VStr "object") as Hne.
        { intros ->. by rewrite (proj2 (isString_true _ _)) in Hobj. }
        repeat split; intros; simplify_map_eq; done.
    + apply has_false in Htype.
      rewrite lookup_insert_eq. simpl.
      destruct (Js.has (<["type":=VStr "object"]> fields) "properties")
        eqn:Hprops; simpl.
      * apply has_true in Hprops as [p Hp].
        rewrite lookup_insert_ne in Hp by done.
        repeat split; intros; simplify_map_eq; done.
      * apply has_false in Hprops.
        rewrite lookup_insert_ne in Hprops by done.
        repeat split; intros; simplify_map_eq; done.
  - by vm_compute.
  - by rewrite <-fallback_eq.
  - by vm_compute.
  - intros [[|tool tools]|]; [done| |done].
    unfold convertTools. rewrite convertTools_fold, app_nil_l.
    change (default [] (Some (tool :: tools))) with (tool :: tools).
    generalize (omap convertTool (tool :: tools)). by intros [|d l].
Qed.

Lemma normalizeToolParameters_spec_witness :
  normalizeToolParameters VUndefined = emptyObjectSchema
  ∧ normalizeToolParameters (VObj {[ "required" := VArr [VStr "path"] ]})
      !! "properties" = Some (VObj ∅)
  ∧ normalizeToolParameters (VObj {[ "type" := VStr "array" ]})
      !! "properties" = None.
Proof.
  destruct normalizeToolParameters_spec as (Hother & Hobject & _).
  split; [|split].
  - apply Hother. intros fields. discriminate.
  - apply (Hobject {[ "required" := VArr [VStr "path"] ]});
      by vm_compute.
  - apply (Hobject {[ "type" := VStr "array" ]}); [by vm_compute|].
    vm_compute. discriminate.
Defined.

End ToolSchemaFacts.

(* ================================================================== *)
(** * Properties: streaming request driver and error classifier *)
(* ================================================================== *)

Module ClientFacts.
Import Wire MiniMaxClient Spec.

Section Client.
Variable String_ : value → string.

(** C9, as the code has it.  [toMiniMaxError] is total and its cases are
    exhaustive: an API error with status 401 gets the code
    AUTHENTICATION_ERROR; any other API error, whatever its name, gets
    API_ERROR with its status code (0 when it has none) and its message;
    an error that is not an API error and is named AbortError gets
    TIMEOUT without a status code; any other error gets NETWORK_ERROR
    with its message; any value that is not an error gets UNKNOWN_ERROR
    with its string coercion as the message.  TIMEOUT is the code of the
    errors named AbortError that are not API errors, and of nothing
    else. *)
Theorem toMiniMaxError_classifies :
  (∀ name msg,
     toMiniMaxError String_ (APIError name msg (Some (Int 401)))
     = {| message := msg; code := "AUTHENTICATION_ERROR";
          statusCode := Some (Int 401) |})
  ∧ (∀ name msg status, status ≠ Some (Int 401) →
       toMiniMaxError String_ (APIError name msg status)
       = {| message := msg; code := "API_ERROR";
            statusCode := Some (default (Int 0) status) |})
  ∧ (∀ msg,
       toMiniMaxError String_ (OtherError "AbortError" msg)
       = {| message := "Request timeout"; code := "TIMEOUT";
            statusCode := None |})
  ∧ (∀ name msg, name ≠ "AbortError" →
       toMiniMaxError String_ (OtherError name msg)
       = {| message := msg; code := "NETWORK_ERROR"; statusCode := None |})
  ∧ (∀ v,
       toMiniMaxError String_ (NonError v)
       = {| message := String_ v; code := "UNKNOWN_ERROR";
            statusCode := None |})
  ∧ (∀ error, code (toMiniMaxError String_ error) ∈ classifierCodes)
  ∧ (∀ error, code (toMiniMaxError String_ error) = "TIMEOUT"
              ↔ ∃ msg, error = OtherError "AbortError" msg).
Proof.
  split; [done|]. split.
  { intros name msg status Hstatus. simpl.
    rewrite bool_decide_eq_false_2; [done|].
    intros Heq. apply Hstatus. by destruct status as [?|]; simplify_eq/=. }
  split; [done|]. split.
  { intros name msg Hname. simpl. by rewrite bool_decide_eq_false_2. }
  split; [done|]. split.
  { intros [name msg status|name msg|v]; simpl;
      repeat case_bool_decide; unfold classifierCodes; set_solver. }
  intros [name msg status|name msg|v]; simpl.
  - case_bool_decide; split; [done|by intros [? ?]|done|by intros [? ?]].
  - case_bool_decide as Hname; simpl.
    + subst name. split; [by exists msg|done].
    + split; [done|]. by intros [? [= -> _]].
  - split; [done|by intros [? ?]].
Qed.

(** C8.  When the API key is absent or blank after trimming, [streamChat]
    throws an error with the code NO_API_KEY, the transport has received no
    request and no chunk has been yielded. *)
Theorem streamChat_requires_apiKey (transport : Transport)
    (model : option string)
    (messages : list MiniMaxMessage) (options : option ChatOptions) :
  blankApiKey options →
  let run := streamChat String_ transport model messages options in
  requests run = []
  ∧ yielded run = []
  ∧ ∃ error, thrown run = Some error ∧ code error = "NO_API_KEY".
Proof.
  unfold blankApiKey, streamChat. intros Hblank.
  destruct (options ≫= apiKey) as [key|]; simpl.
  - rewrite Hblank. simpl. eauto.
  - eauto.
Qed.

(** With a usable key the transport receives exactly one request, under
    the trimmed key. *)
Lemma streamChat_issues_request (transport : Transport)
    (model : option string)
    (messages : list MiniMaxMessage) (options : option ChatOptions)
    (key : string) :
  options ≫= apiKey = Some key → JsString.trim key ≠ "" →
  ∃ params, requests (streamChat String_ transport model messages options)
            = [params] ∧ p_apiKey params = JsString.trim key.
Proof.
  unfold streamChat. intros -> Hkey. simpl.
  destruct (JsString.trim key) as [|c rest] eqn:Htrim; [done|].
  destruct (transport _) as [error|upstream] eqn:Hsend.
  - eexists. split; [reflexivity|done].
  - destruct (forward _ _ _). eexists. split; [reflexivity|done].
Qed.

End Client.

Lemma toMiniMaxError_classifies_witness :
  code (toMiniMaxError (λ _, "")
          (APIError "Error" "Too many requests" (Some (Int 429))))
  = "API_ERROR"
  ∧ code (toMiniMaxError (λ _, "") (OtherError "TypeError" "fetch failed"))
    = "NETWORK_ERROR".
Proof.
  destruct (toMiniMaxError_classifies (λ _, ""))
    as (_ & Hapi & _ & Hnet & _).
  split.
  - rewrite Hapi; [reflexivity|discriminate].
  - rewrite Hnet; [reflexivity|discriminate].
Defined.

(** C9, as the specification words it, fails: it gives TIMEOUT without a
    status code to every abort-flavoured failure.  An API error named
    AbortError is one, and the test for API errors comes first: it gets
    API_ERROR with the status code 0. *)
Lemma abort_api_error_counterexample :
  ¬ (∀ (String_ : value → string) (error : Thrown),
       abortFlavoured error →
       code (toMiniMaxError String_ error) = "TIMEOUT"
       ∧ statusCode (toMiniMaxError String_ error) = None).
Proof.
  intros Hspec.
  destruct (Hspec (λ _, "") (APIError "AbortError" "Request was aborted." None))
    as [Hcode _]; [done|].
  discriminate Hcode.
Qed.

Lemma streamChat_requires_apiKey_witness :
  blankApiKey blankKeyOptions
  ∧ requests (streamChat (λ _, "") echoTransport (Some "MiniMax-M2.5")
                [UserMessage "Ping"] blankKeyOptions) = [].
Proof.
  assert (blankApiKey blankKeyOptions) as Hblank by reflexivity.
  split; [exact Hblank|].
  apply (streamChat_requires_apiKey (λ _, "") echoTransport
           (Some "MiniMax-M2.5") [UserMessage "Ping"] blankKeyOptions Hblank).
Defined.

End ClientFacts.

(* ================================================================== *)
(** * Properties: whitespace *)
(* ================================================================== *)

Module TrimFacts.
Import JsString Spec JsStringFacts.

Lemma trimStart_empty (s : string) :
  trimStart s = "" ↔ allWhiteSpace s = true.
Proof.
  induction s as [|c s IH]; simpl; [done|].
  destruct (isWhiteSpace c); simpl; [done|]. split; discriminate.
Qed.

Lemma allWhiteSpace_trimStart (s : string) :
  allWhiteSpace (trimStart s) = allWhiteSpace s.
Proof.
  induction s as [|c s IH]; simpl; [done|].
  destruct (isWhiteSpace c) eqn:Hc; simpl; [done|]. by rewrite Hc.
Qed.

Lemma allWhiteSpace_rev_app (s acc : string) :
  allWhiteSpace (String.rev_app s acc) = allWhiteSpace s && allWhiteSpace acc.
Proof.
  revert acc. induction s as [|c s IH]; intros acc; simpl; [done|].
  rewrite IH. simpl. by destruct (isWhiteSpace c), (allWhiteSpace s).
Qed.

Lemma allWhiteSpace_rev (s : string) :
  allWhiteSpace (String.rev s) = allWhiteSpace s.
Proof.
  unfold String.rev. rewrite allWhiteSpace_rev_app. simpl.
  by rewrite andb_true_r.
Qed.

Lemma rev_app_empty (s acc : string) :
  String.rev_app s acc = "" ↔ s = "" ∧ acc = "".
Proof.
  revert acc. induction s as [|c s IH]; intros acc; simpl.
  - split; [by intros ->|by intros [_ ->]].
  - rewrite IH. split; [by intros [_ ?]|by intros [? _]].
Qed.

Lemma rev_empty (s : string) : String.rev s = "" ↔ s = "".
Proof.
  unfold String.rev. rewrite rev_app_empty. split; [by intros [? _]|done].
Qed.

Lemma trim_empty (s : string) : trim s = "" ↔ allWhiteSpace s = true.
Proof.
  unfold trim, trimEnd.
  by rewrite rev_empty, trimStart_empty, allWhiteSpace_rev,
    allWhiteSpace_trimStart.
Qed.

Lemma allWhiteSpace_app (s t : string) :
  allWhiteSpace (s +:+ t) = allWhiteSpace s && allWhiteSpace t.
Proof.
  unfold String.app. induction s as [|c s IH]; simpl; [done|].
  by rewrite IH, andb_assoc.
Qed.

End TrimFacts.

(* ================================================================== *)
(** * Properties: message mapper *)
(* ================================================================== *)

Module MessageMapperFacts.
Import Wire MiniMaxProvider Spec JsStringFacts TrimFacts.

Lemma concatTextParts_joined (parts : list Part) :
  concatTextParts parts = joined (textParts parts).
Proof.
  unfold concatTextParts.
  enough (∀ start,
    foldl (λ text part, match part with
                        | LanguageModelTextPart value => text +:+ value
                        | _ => text
                        end) start parts
    = start +:+ joined (textParts parts)) as H by apply H.
  induction parts as [|part parts IH]; intros start; simpl.
  - by rewrite string_app_empty_r.
  - rewrite IH. destruct part; simpl; try done. by rewrite string_app_assoc.
Qed.

Section Rendering.
Variable JSON_stringify : Part → option (option string).
Variable String_ : Part → string.
Variable base64 : list Byte.byte → string.
Variable JSON_stringify_input : value → string.

#[local] Abbreviation render :=
  (renderResultPart JSON_stringify String_ base64).
#[local] Abbreviation concatResult :=
  (concatToolResultContent JSON_stringify String_ base64).
#[local] Abbreviation toMessages :=
  (toMiniMaxUserAndToolMessages JSON_stringify String_ base64).
#[local] Abbreviation toWire :=
  (toMiniMaxMessages JSON_stringify String_ base64 JSON_stringify_input).
#[local] Abbreviation toolContent :=
  (Spec.toolContent JSON_stringify String_ base64).

Lemma concatToolResultContent_toolContent (content : list Part) :
  concatResult content = toolContent content.
Proof.
  unfold concatToolResultContent, toolContent.
  assert (foldl (λ text part, text +:+ render part) "" content
          = joined (render <$> content)) as ->.
  { enough (∀ start, foldl (λ text part, text +:+ render part) start content
                     = start +:+ joined (render <$> content)) as H by apply H.
    induction content as [|part content IH]; intros start; simpl.
    - by rewrite string_app_empty_r.
    - by rewrite IH, string_app_assoc. }
  destruct (Nat.eqb_spec (String.length (JsString.trim
              (joined (render <$> content)))) 0) as [Hz|Hz].
  - apply length_zero_iff in Hz. by rewrite decide_True.
  - rewrite decide_False; [done|]. by rewrite <-length_zero_iff.
Qed.

Lemma toolMessages_fold (parts : list Part) (start : list MiniMaxMessage) :
  foldl (λ toolMessages part,
           match part with
           | LanguageModelToolResultPart callId content =>
               toolMessages ++ [ToolMessage callId (concatResult content)]
           | _ => toolMessages
           end) start parts
  = start ++ ((λ r, ToolMessage r.1 (toolContent r.2)) <$> toolResults parts).
Proof.
  revert start. induction parts as [|part parts IH]; intros start; simpl.
  - by rewrite app_nil_r.
  - rewrite IH. destruct part; simpl; try done.
    by rewrite <-app_assoc, concatToolResultContent_toolContent.
Qed.

(** The messages of a user turn, in closed form. *)
Lemma toMessages_eq (parts : list Part) :
  toMessages parts
  = (if decide (JsString.trim (joined (textParts parts)) ≠ ""
                ∨ toolResults parts = [])
     then [UserMessage (joined (textParts parts))] else [])
    ++ ((λ r, ToolMessage r.1 (toolContent r.2)) <$> toolResults parts).
Proof.
  unfold toMiniMaxUserAndToolMessages.
  rewrite toolMessages_fold, app_nil_l, concatTextParts_joined.
  f_equal. rewrite length_fmap.
  destruct (Nat.ltb_spec 0 (String.length (JsString.trim
              (joined (textParts parts))))) as [Hlen|Hlen]; simpl.
  - rewrite decide_True; [done|]. left. rewrite <-length_zero_iff. lia.
  - assert (JsString.trim (joined (textParts parts)) = "") as Hblank.
    { apply length_zero_iff. lia. }
    destruct (toolResults parts) as [|r rs]; simpl.
    + rewrite decide_True; [done|]. by right.
    + rewrite decide_False; [done|]. intros [?|?]; done.
Qed.

Lemma filter_user_tool (user : list MiniMaxMessage)
    (results : list (string * list Part)) :
  Forall (λ m, isUserMessage m) user →
  filter (λ m, isUserMessage m)
    (user ++ ((λ r, ToolMessage r.1 (toolContent r.2)) <$> results)) = user
  ∧ filter (λ m, isToolMessage m)
      (user ++ ((λ r, ToolMessage r.1 (toolContent r.2)) <$> results))
    = (λ r, ToolMessage r.1 (toolContent r.2)) <$> results.
Proof.
  intros Huser. rewrite !filter_app.
  assert (filter (λ m, isUserMessage m)
            ((λ r, ToolMessage r.1 (toolContent r.2)) <$> results) = []) as ->.
  { induction results as [|r rs IH]; [done|].
    rewrite fmap_cons, filter_cons_False; [exact IH|simpl; tauto]. }
  assert (filter (λ m, isToolMessage m)
            ((λ r, ToolMessage r.1 (toolContent r.2)) <$> results)
          = (λ r, ToolMessage r.1 (toolContent r.2)) <$> results) as ->.
  { induction results as [|r rs IH]; [done|].
    rewrite fmap_cons, filter_cons_True; [by rewrite IH|simpl; tauto]. }
  assert (filter (λ m, isUserMessage m) user = user) as ->.
  { induction Huser as [|m user Hm _ IH]; [done|].
    rewrite filter_cons_True by done. by rewrite IH. }
  assert (filter (λ m, isToolMessage m) user = []) as ->.
  { induction Huser as [|m user Hm _ IH]; [done|].
    rewrite filter_cons_False; [done|]. destruct m; simpl in *; tauto. }
  by rewrite app_nil_r.
Qed.

Lemma toMiniMaxMessages_user (message : LanguageModelChatRequestMessage) :
  role message = User →
  toWire message = toMessages (getMessageParts message).
Proof. unfold toMiniMaxMessages. by intros ->. Qed.

(** C5.  For a user-role message with the parts [parts]: the tool messages
    are, in order, one per tool result part, each with the call id of its
    part and with the rendering of its sub-parts as content (concatenated
    in order without separator, trimmed, and replaced by ["{}"] when that
    is empty); a user message, holding the concatenated text, is emitted
    exactly when that text is not blank or no tool message was produced,
    and it comes first. *)
Theorem user_turn_splitting (message : LanguageModelChatRequestMessage) :
  role message = User →
  let parts := getMessageParts message in
  let out := toWire message in
  let toolMessages := filter (λ m, isToolMessage m) out in
  let userMessages := filter (λ m, isUserMessage m) out in
  toolMessages = (λ r, ToolMessage r.1 (toolContent r.2)) <$> toolResults parts
  ∧ userMessages
    = (if decide (JsString.trim (joined (textParts parts)) ≠ ""
                  ∨ length toolMessages = 0%nat)
       then [UserMessage (joined (textParts parts))] else [])
  ∧ out = userMessages ++ toolMessages.
Proof.
  intros Hrole parts out toolMessages userMessages.
  unfold toolMessages, userMessages, out.
  rewrite toMiniMaxMessages_user by done. fold parts. rewrite toMessages_eq.
  set (user := if decide (_ ∨ toolResults parts = []) then _ else _).
  destruct (filter_user_tool user (toolResults parts)) as [Hu Ht].
  { unfold user. case_decide; by repeat constructor. }
  rewrite Hu, Ht. split; [done|]. split; [|done].
  unfold user. rewrite length_fmap.
  destruct (toolResults parts) as [|r rs]; simpl.
  - by rewrite !decide_True by (by right).
  - destruct (decide (JsString.trim (joined (textParts parts)) ≠ ""))
      as [Htext|Htext].
    + by rewrite !decide_True by (by left).
    + by rewrite !decide_False by (intros [?|?]; done).
Qed.

Lemma joined_whitespaceOnly (l : list string) :
  Forall whitespaceOnly l → JsString.trim (joined l) = "".
Proof.
  intros Hl. apply trim_empty.
  induction Hl as [|s l Hs _ IH]; simpl; [done|].
  rewrite allWhiteSpace_app, IH. by rewrite Hs.
Qed.

Lemma joined_empty (l : list string) :
  Forall (λ s, s = "") l → joined l = "".
Proof. induction 1 as [|s l -> _ IH]; simpl; [done|]. by rewrite IH. Qed.

Lemma toolResults_only (parts : list Part) :
  Forall isToolResult parts →
  textParts parts = [] ∧ (parts ≠ [] → toolResults parts ≠ []).
Proof.
  induction 1 as [|part parts Hpart _ [IH _]]; [done|].
  by destruct part.
Qed.

(** C6, as the code has it.  A user-role message that consists only of
    tool results, and has at least one, produces no user message; with any
    tool result present no user message with blank content is produced.  A
    user-role message with no tool result whose text parts are all white
    space produces exactly one message, a user message whose content is
    the text of the parts, kept as it is; the content is the empty string
    when every text part is empty. *)
Theorem user_turn_tool_only_or_blank
    (message : LanguageModelChatRequestMessage) :
  role message = User →
  let parts := getMessageParts message in
  let out := toWire message in
  (parts ≠ [] → Forall isToolResult parts →
     filter (λ m, isUserMessage m) out = [])
  ∧ (∀ content, toolResults parts ≠ [] →
       UserMessage content ∈ out → JsString.trim content ≠ "")
  ∧ (toolResults parts = [] → Forall whitespaceOnly (textParts parts) →
       out = [UserMessage (joined (textParts parts))])
  ∧ (toolResults parts = [] → Forall (λ s, s = "") (textParts parts) →
       out = [UserMessage ""]).
Proof.
  intros Hrole parts out. unfold out.
  rewrite toMiniMaxMessages_user by done. fold parts.
  split; [|split; [|split]].
  - intros Hne Hall.
    destruct (toolResults_only parts Hall) as [Htext Hres].
    specialize (Hres Hne).
    rewrite toMessages_eq, Htext. simpl.
    rewrite decide_False by (intros [?|?]; done).
    by apply (filter_user_tool []).
  - intros content Hres. rewrite toMessages_eq.
    rewrite elem_of_app. intros [Hin|Hin].
    + case_decide as Hcond; [|by apply not_elem_of_nil in Hin].
      apply list_elem_of_singleton in Hin. injection Hin as ->.
      by destruct Hcond.
    + by apply list_elem_of_fmap in Hin as (r & Hr & _).
  - intros Hres Hblank. rewrite toMessages_eq, Hres. simpl.
    by rewrite decide_True by (by right).
  - intros Hres Hempty. rewrite toMessages_eq, Hres. simpl.
    rewrite decide_True by (by right). by rewrite joined_empty.
Qed.

End Rendering.

Lemma user_turn_splitting_witness :
  sampleMapper
    (userTurn [LanguageModelToolResultPart "c1"
                 [LanguageModelTextPart " 4"; LanguageModelTextPart "2 "];
               LanguageModelTextPart "thanks";
               LanguageModelToolResultPart "c2" []])
  = [UserMessage "thanks"; ToolMessage "c1" "42"; ToolMessage "c2" "{}"].
Proof.
  unfold sampleMapper.
  destruct (user_turn_splitting (λ _, Some None) (λ _, "") (λ _, "")
              (λ _, "{}")
              (userTurn [LanguageModelToolResultPart "c1"
                           [LanguageModelTextPart " 4";
                            LanguageModelTextPart "2 "];
                         LanguageModelTextPart "thanks";
                         LanguageModelToolResultPart "c2" []]) eq_refl)
    as (Htool & Huser & ->).
  rewrite Huser, Htool. reflexivity.
Defined.

Lemma user_turn_tool_only_or_blank_witness :
  filter (λ m, isUserMessage m)
    (sampleMapper
       (userTurn [LanguageModelToolResultPart "c1"
                    [LanguageModelTextPart "done"]])) = []
  ∧ sampleMapper
      (userTurn [LanguageModelTextPart " ";
                 LanguageModelDataPart [] "image/png";
                 LanguageModelTextPart "  "])
    = [UserMessage "   "].
Proof.
  unfold sampleMapper. split.
  - apply (user_turn_tool_only_or_blank (λ _, Some None) (λ _, "") (λ _, "")
             (λ _, "{}")
             (userTurn [LanguageModelToolResultPart "c1"
                          [LanguageModelTextPart "done"]]) eq_refl);
      [discriminate|by repeat constructor].
  - apply (user_turn_tool_only_or_blank (λ _, Some None) (λ _, "") (λ _, "")
             (λ _, "{}")
             (userTurn [LanguageModelTextPart " ";
                        LanguageModelDataPart [] "image/png";
                        LanguageModelTextPart "  "]) eq_refl);
      [reflexivity|by repeat constructor].
Defined.

(** C6, as the specification words it, fails: a user-role message whose
    only part is the text of two spaces has no tool result and only white
    space, and the content of its user message is the two spaces, not the
    empty string. *)
Lemma blank_user_turn_counterexample :
  ¬ (∀ message, role message = User →
       toolResults (getMessageParts message) = [] →
       Forall whitespaceOnly (textParts (getMessageParts message)) →
       sampleMapper message = [UserMessage ""]).
Proof.
  intros Hspec.
  specialize (Hspec (userTurn [LanguageModelTextPart "  "]) eq_refl eq_refl).
  discriminate Hspec. by repeat constructor.
Qed.

End MessageMapperFacts.

(* ================================================================== *)
(** * Properties: response reconstructor *)
(* ================================================================== *)

Module ReconstructorFacts.
Import Wire MiniMaxClient MiniMaxProvider Spec JsStringFacts.

(** ** The pending map *)

Lemma accumulateToolCall_skip (pending : gmap Z AccumulatedToolCall)
    (rawCall : value) :
  Js.isObjectLike rawCall = false → accumulateToolCall pending rawCall = pending.
Proof. unfold accumulateToolCall. by intros ->. Qed.

Lemma accumulateToolCall_merge (pending : gmap Z AccumulatedToolCall)
    (rawCall : value) :
  Js.isObjectLike rawCall = true →
  let target := targetOf pending rawCall in
  let old := accumulatorAt pending target in
  accumulateToolCall pending rawCall
  = <[target :=
        {| index := index old;
           call_id := overwrite (call_id old) (supplied (Js.get rawCall "id"));
           call_name :=
             overwrite (call_name old)
               (supplied (Js.get (Js.get rawCall "function") "name"));
           arguments :=
             arguments old
             +:+ supplied (Js.get (Js.get rawCall "function") "arguments") |}]>
      pending.
Proof.
  intros Hobj target old. unfold accumulateToolCall. rewrite Hobj. simpl.
  assert (match Js.get rawCall "index" with
          | VNum (Int i) => if 0 <=? i then i else Z.of_nat (size pending)
          | _ => Z.of_nat (size pending)
          end = target) as ->.
  { unfold target, targetOf, declaredIndex.
    destruct (Js.get rawCall "index") as [| | |[i| |]| | |]; try done.
    destruct (Z.leb_spec 0 i); [by rewrite decide_True|].
    by rewrite decide_False by lia. }
  fold (accumulatorAt pending target). fold old. clearbody old target.
  f_equal. unfold overwrite. destruct old as [i oid oname oargs].
  destruct (Js.get rawCall "id") as [| | | |[|c1 id]| |];
    destruct (Js.get (Js.get rawCall "function") "name")
      as [| | | |[|c2 name]| |];
    destruct (Js.get (Js.get rawCall "function") "arguments")
      as [| | | |[|c3 args]| |];
    simpl; by rewrite ?string_app_empty_r.
Qed.

Lemma indexed_empty : indexed ∅.
Proof. intros k call. by rewrite lookup_empty. Qed.

Lemma accumulatorAt_index (pending : gmap Z AccumulatedToolCall) (target : Z) :
  indexed pending → index (accumulatorAt pending target) = target.
Proof.
  intros Hpending. unfold accumulatorAt.
  destruct (pending !! target) as [call|] eqn:Hcall; simpl; [|done].
  by apply Hpending.
Qed.

Lemma accumulateToolCall_indexed (pending : gmap Z AccumulatedToolCall)
    (rawCall : value) :
  indexed pending → indexed (accumulateToolCall pending rawCall).
Proof.
  intros Hpending.
  destruct (Js.isObjectLike rawCall) eqn:Hobj.
  - rewrite accumulateToolCall_merge by done.
    intros k call. rewrite lookup_insert.
    case_decide as Hk; [|by apply Hpending].
    intros [= <-]. simpl. subst k. by apply accumulatorAt_index.
  - by rewrite accumulateToolCall_skip.
Qed.

Lemma accumulateToolCalls_indexed (choice : Choice)
    (pending : gmap Z AccumulatedToolCall) :
  indexed pending → indexed (accumulateToolCalls choice pending).
Proof.
  unfold accumulateToolCalls.
  destruct (Js.get (delta choice) "tool_calls") as [| | | | |calls|]; try done.
  revert pending. induction calls as [|rawCall calls IH]; intros pending H;
    simpl; [done|].
  by apply IH, accumulateToolCall_indexed.
Qed.

Lemma pendingAfter_indexed (cs : list Choice)
    (pending : gmap Z AccumulatedToolCall) :
  indexed pending → indexed (pendingAfter pending cs).
Proof.
  revert pending. induction cs as [|c cs IH]; intros pending H; simpl; [done|].
  by apply IH, accumulateToolCalls_indexed.
Qed.

(** ** The order of emission *)

#[local] Instance byIndex_transitive : Transitive byIndex.
Proof. intros a b c. unfold byIndex. lia. Qed.

#[local] Instance byIndex_total : Total byIndex.
Proof. intros a b. unfold byIndex. lia. Qed.

Lemma elem_of_orderedCalls (pending : gmap Z AccumulatedToolCall)
    (call : AccumulatedToolCall) :
  call ∈ orderedCalls pending ↔ ∃ k, pending !! k = Some call.
Proof.
  unfold orderedCalls. rewrite merge_sort_Permutation, list_elem_of_fmap.
  split.
  - intros ([k c] & -> & Hin). exists k. by apply elem_of_map_to_list.
  - intros [k Hk]. exists (k, call). split; [done|].
    by apply elem_of_map_to_list.
Qed.

Lemma orderedCalls_NoDup (pending : gmap Z AccumulatedToolCall) :
  indexed pending → NoDup (index <$> orderedCalls pending).
Proof.
  intros Hpending. unfold orderedCalls. rewrite merge_sort_Permutation.
  rewrite <-list_fmap_compose.
  rewrite (list_fmap_ext (index ∘ snd) fst (map_to_list pending));
    [apply NoDup_fst_map_to_list|].
  intros i [k call] Hlookup. simpl.
  apply Hpending. apply elem_of_map_to_list.
  by apply list_elem_of_lookup_2 in Hlookup.
Qed.

Lemma sorted_distinct (calls : list AccumulatedToolCall) :
  StronglySorted byIndex calls → NoDup (index <$> calls) →
  StronglySorted indexBelow calls.
Proof.
  induction 1 as [|call calls Hsorted IH Hall]; [constructor|].
  rewrite fmap_cons, NoDup_cons. intros [Hfresh Hnodup].
  constructor; [by apply IH|].
  rewrite Forall_forall in Hall |- *. intros other Hother.
  specialize (Hall other Hother). unfold byIndex in Hall. unfold indexBelow.
  assert (index call ≠ index other); [|lia].
  intros Heq. apply Hfresh. rewrite Heq. by apply list_elem_of_fmap_2.
Qed.

Lemma orderedCalls_sorted (pending : gmap Z AccumulatedToolCall) :
  indexed pending → StronglySorted indexBelow (orderedCalls pending).
Proof.
  intros Hpending. apply sorted_distinct.
  - apply StronglySorted_merge_sort; apply _.
  - by apply orderedCalls_NoDup.
Qed.

(** The order in which a [Map] enumerates its values does not show after
    sorting: every arrangement of the values that is sorted by index is
    the list [orderedCalls]. *)
Lemma orderedCalls_unique (pending : gmap Z AccumulatedToolCall)
    (calls : list AccumulatedToolCall) :
  indexed pending →
  calls ≡ₚ (snd <$> map_to_list pending) →
  StronglySorted byIndex calls →
  calls = orderedCalls pending.
Proof.
  intros Hpending Hperm Hsorted.
  assert (calls ≡ₚ orderedCalls pending) as Hperm'.
  { unfold orderedCalls. by rewrite merge_sort_Permutation. }
  apply (StronglySorted_unique_strong byIndex); [|done| |done].
  - intros a b Ha Hb Hab Hba. unfold byIndex in *.
    rewrite Hperm' in Ha.
    apply elem_of_orderedCalls in Ha as [ka Hka].
    apply elem_of_orderedCalls in Hb as [kb Hkb].
    pose proof (Hpending _ _ Hka). pose proof (Hpending _ _ Hkb).
    assert (ka = kb) as -> by lia. congruence.
  - apply StronglySorted_merge_sort; apply _.
Qed.

Lemma sorted_filter (calls : list AccumulatedToolCall) :
  StronglySorted indexBelow calls →
  StronglySorted indexBelow (filter (λ call, complete call) calls).
Proof.
  induction 1 as [|call calls Hsorted IH Hall]; [constructor|].
  rewrite filter_cons. case_decide; [|done].
  constructor; [done|].
  rewrite Forall_forall in Hall |- *. intros other Hother.
  apply list_elem_of_filter in Hother as [_ Hother]. by apply Hall.
Qed.

(** ** What is reported *)

Lemma toolCalls_app (l k : list ResponsePart) :
  toolCalls (l ++ k) = toolCalls l ++ toolCalls k.
Proof. apply filter_app. Qed.

Lemma thinkingTexts_app (l k : list ResponsePart) :
  thinkingTexts (l ++ k) = thinkingTexts l ++ thinkingTexts k.
Proof. apply omap_app. Qed.

Section Stream.
Variable JSON_parse : string → option value.

#[local] Abbreviation invocation := (Spec.invocation JSON_parse).

Lemma toolCalls_invocations (calls : list AccumulatedToolCall) :
  toolCalls (invocation <$> calls) = invocation <$> calls.
Proof.
  unfold toolCalls. induction calls as [|call calls IH]; [done|].
  rewrite fmap_cons, filter_cons_True; [by rewrite IH|simpl; tauto].
Qed.

Lemma thinkingTexts_invocations (calls : list AccumulatedToolCall) :
  thinkingTexts (invocation <$> calls) = [].
Proof. induction calls as [|call calls IH]; [done|]. by rewrite fmap_cons. Qed.

Lemma reportToolCalls_eq (pending : gmap Z AccumulatedToolCall)
    (st : StreamState) :
  reportToolCalls JSON_parse pending st
  = {| reasoningBuffer := reasoningBuffer st;
       pendingToolCalls := pendingToolCalls st;
       toolCallsEmitted := toolCallsEmitted st;
       reported := reported st ++ (invocation <$> emittedCalls pending) |}.
Proof.
  unfold reportToolCalls, emittedCalls.
  generalize (orderedCalls pending) as calls. intros calls. revert st.
  induction calls as [|call calls IH]; intros st.
  - simpl. rewrite app_nil_r. by destruct st.
  - cbn [foldl]. rewrite IH, filter_cons.
    destruct (complete call) eqn:Hcall.
    + rewrite decide_True by (by apply Is_true_true).
      unfold report. simpl. by rewrite <-app_assoc.
    + rewrite decide_False by (by apply Is_true_false). done.
Qed.

Lemma stepToolCalls_eq (choice : Choice) (st : StreamState) :
  let pending := accumulateToolCalls choice (pendingToolCalls st) in
  stepToolCalls JSON_parse choice st
  = {| reasoningBuffer := reasoningBuffer st;
       pendingToolCalls := pending;
       toolCallsEmitted := toolCallsEmitted st || isToolCallFinish choice;
       reported :=
         reported st ++
           (if negb (toolCallsEmitted st) && isToolCallFinish choice
            then invocation <$> emittedCalls pending else []) |}.
Proof.
  intros pending. unfold stepToolCalls. fold pending. simpl.
  destruct (toolCallsEmitted st), (isToolCallFinish choice); simpl;
    rewrite ?reportToolCalls_eq, ?app_nil_r; done.
Qed.

Lemma reasoningDelta_prefix (buffer suffix : string) :
  reasoningDelta buffer (buffer +:+ suffix) = suffix.
Proof.
  unfold reasoningDelta. by rewrite startsWith_app, slice_app.
Qed.

Lemma reasoningDelta_other (buffer latest : string) :
  (∀ suffix, latest ≠ buffer +:+ suffix) →
  reasoningDelta buffer latest = latest.
Proof.
  intros Hno. unfold reasoningDelta.
  destruct (JsString.startsWith latest buffer) eqn:Hstarts; [|done].
  apply startsWith_true in Hstarts as [suffix ->]. by destruct (Hno suffix).
Qed.

Lemma stepReasoning_eq (choice : Choice) (st : StreamState) :
  stepReasoning true choice st
  = match getLatestReasoningUpdate choice with
    | Some latest =>
        let delta := reasoningDelta (reasoningBuffer st) (text latest) in
        if decide (delta = "") then st
        else {| reasoningBuffer := text latest;
                pendingToolCalls := pendingToolCalls st;
                toolCallsEmitted := toolCallsEmitted st;
                reported :=
                  reported st ++
                    [ReportThinking delta (update_id latest)
                       (update_metadata latest)] |}
    | None => st
    end.
Proof.
  unfold stepReasoning.
  destruct (getLatestReasoningUpdate choice) as [latest|]; [|done].
  fold (reasoningDelta (reasoningBuffer st) (text latest)). simpl.
  destruct (reasoningDelta (reasoningBuffer st) (text latest)); simpl; done.
Qed.

Lemma stepReasoning_absent (choice : Choice) (st : StreamState) :
  stepReasoning false choice st = st.
Proof. done. Qed.

(** The reasoning step reports no tool call and leaves the tool-call state
    alone. *)
Lemma stepReasoning_toolCalls (ctor : bool) (choice : Choice)
    (st : StreamState) :
  let st' := stepReasoning ctor choice st in
  pendingToolCalls st' = pendingToolCalls st
  ∧ toolCallsEmitted st' = toolCallsEmitted st
  ∧ toolCalls (reported st') = toolCalls (reported st).
Proof.
  destruct ctor; [|done]. cbv zeta. rewrite stepReasoning_eq.
  destruct (getLatestReasoningUpdate choice) as [latest|]; [|done].
  cbv zeta. case_decide; [done|]. cbn [pendingToolCalls toolCallsEmitted reported].
  rewrite toolCalls_app. split; [done|]. split; [done|]. apply app_nil_r.
Qed.

Lemma stepContent_eq (choice : Choice) (st : StreamState) :
  let st' := stepContent choice st in
  reasoningBuffer st' = reasoningBuffer st
  ∧ pendingToolCalls st' = pendingToolCalls st
  ∧ toolCallsEmitted st' = toolCallsEmitted st
  ∧ toolCalls (reported st') = toolCalls (reported st)
  ∧ thinkingTexts (reported st') = thinkingTexts (reported st).
Proof.
  unfold stepContent.
  destruct (Js.truthy (Js.get (delta choice) "content")); [|done].
  cbv zeta. unfold report.
  cbn [reasoningBuffer pendingToolCalls toolCallsEmitted reported].
  rewrite toolCalls_app, thinkingTexts_app.
  repeat split; apply app_nil_r.
Qed.

(** One choice, as far as tool calls go. *)
Lemma processChoice_toolCalls (ctor : bool) (st : StreamState)
    (choice : Choice) :
  let st' := processChoice JSON_parse ctor st choice in
  let pending := accumulateToolCalls choice (pendingToolCalls st) in
  pendingToolCalls st' = pending
  ∧ toolCallsEmitted st' = toolCallsEmitted st || isToolCallFinish choice
  ∧ toolCalls (reported st')
    = toolCalls (reported st) ++
        (if negb (toolCallsEmitted st) && isToolCallFinish choice
         then invocation <$> emittedCalls pending else []).
Proof.
  unfold processChoice. rewrite stepToolCalls_eq.
  cbn [reasoningBuffer pendingToolCalls toolCallsEmitted reported].
  destruct (stepContent_eq choice (stepReasoning ctor choice st))
    as (_ & Hp & He & Ht & _).
  destruct (stepReasoning_toolCalls ctor choice st) as (Hp' & He' & Ht').
  rewrite Hp, Hp', He, He', toolCalls_app, Ht, Ht'.
  split; [done|]. split; [done|]. f_equal.
  destruct (negb (toolCallsEmitted st) && isToolCallFinish choice); [|done].
  apply toolCalls_invocations.
Qed.

(** One choice, as far as reasoning goes. *)
Lemma processChoice_reasoning (ctor : bool) (st : StreamState)
    (choice : Choice) :
  let st' := processChoice JSON_parse ctor st choice in
  reasoningBuffer st' = reasoningBuffer (stepReasoning ctor choice st)
  ∧ thinkingTexts (reported st')
    = thinkingTexts (reported (stepReasoning ctor choice st)).
Proof.
  unfold processChoice. rewrite stepToolCalls_eq.
  cbn [reasoningBuffer pendingToolCalls toolCallsEmitted reported].
  destruct (stepContent_eq choice (stepReasoning ctor choice st))
    as (Hb & _ & _ & _ & Ht).
  rewrite Hb, thinkingTexts_app, Ht. split; [done|].
  destruct (negb _ && _); [|by rewrite app_nil_r].
  by rewrite thinkingTexts_invocations, app_nil_r.
Qed.


(** ** The loop *)

Lemma consume_processed (ctor : bool)
    (stream : list (bool * ChatCompletionChunk)) (st : StreamState) :
  consume JSON_parse ctor st stream
  = processChoices JSON_parse ctor st (processed stream).
Proof.
  revert st. induction stream as [|[cancelled chunk] rest IH]; intros st;
    [done|]. simpl. destruct cancelled; [done|].
  rewrite IH. unfold processChoices. by rewrite foldl_app.
Qed.

Lemma processChoices_snoc (ctor : bool) (st : StreamState) (cs : list Choice)
    (c : Choice) :
  processChoices JSON_parse ctor st (cs ++ [c])
  = processChoice JSON_parse ctor (processChoices JSON_parse ctor st cs) c.
Proof. unfold processChoices. by rewrite foldl_app. Qed.

(** Before any finish signal nothing is emitted. *)
Lemma processChoices_before (ctor : bool) (before : list Choice)
    (st : StreamState) :
  toolCallsEmitted st = false →
  Forall (λ c, isToolCallFinish c = false) before →
  let st' := processChoices JSON_parse ctor st before in
  pendingToolCalls st' = pendingAfter (pendingToolCalls st) before
  ∧ toolCallsEmitted st' = false
  ∧ toolCalls (reported st') = toolCalls (reported st).
Proof.
  intros Hemitted Hbefore. revert st Hemitted.
  induction Hbefore as [|c before Hc _ IH]; intros st Hemitted; [done|].
  cbv zeta. unfold processChoices. cbn [foldl pendingAfter].
  destruct (processChoice_toolCalls ctor st c) as (Hp & He & Ht).
  rewrite Hemitted, Hc in He, Ht. simpl in He, Ht. rewrite app_nil_r in Ht.
  destruct (IH _ He) as (Hp' & He' & Ht'). unfold processChoices in *.
  by rewrite Hp', He', Ht', Hp, Ht.
Qed.

(** After the emission nothing more is emitted. *)
Lemma processChoices_after (ctor : bool) (after : list Choice)
    (st : StreamState) :
  toolCallsEmitted st = true →
  toolCalls (reported (processChoices JSON_parse ctor st after))
  = toolCalls (reported st).
Proof.
  revert st. induction after as [|c after IH]; intros st Hemitted; [done|].
  unfold processChoices. cbn [foldl].
  destruct (processChoice_toolCalls ctor st c) as (_ & He & Ht).
  rewrite Hemitted in He, Ht. simpl in He, Ht. rewrite app_nil_r in Ht.
  unfold processChoices in IH. by rewrite IH, Ht.
Qed.

Lemma complete_hasIdAndName (call : AccumulatedToolCall) :
  complete call = true ↔ hasIdAndName call.
Proof.
  unfold complete, hasIdAndName.
  destruct (call_id call) as [id|], (call_name call) as [name|]; simpl.
  - rewrite andb_true_iff, !nonEmpty_true. split.
    + intros [??]. by exists id, name.
    + intros (? & ? & [= <-] & ? & [= <-] & ?). done.
  - split; [by rewrite andb_false_r|]. by intros (? & ? & _ & _ & ? & _).
  - split; [done|]. by intros (? & ? & ? & _).
  - split; [done|]. by intros (? & ? & ? & _).
Qed.

Lemma elem_of_emittedCalls (pending : gmap Z AccumulatedToolCall)
    (call : AccumulatedToolCall) :
  indexed pending →
  call ∈ emittedCalls pending
  ↔ pending !! index call = Some call ∧ hasIdAndName call.
Proof.
  intros Hpending. unfold emittedCalls.
  rewrite list_elem_of_filter, elem_of_orderedCalls, <-complete_hasIdAndName.
  rewrite Is_true_true. split.
  - intros [Hc [k Hk]]. split; [|done].
    by rewrite (Hpending _ _ Hk).
  - intros [Hk Hc]. split; [done|]. by exists (index call).
Qed.


Lemma isToolCallFinish_true (choice : Choice) :
  isToolCallFinish choice = true
  ↔ finish_reason choice = VStr "tool_calls"
    ∨ finish_reason choice = VStr "function_call".
Proof.
  unfold isToolCallFinish.
  destruct (finish_reason choice) as [| | | |reason| |]; simpl;
    try (split; [done|intros [?|?]; done]).
  rewrite orb_true_iff, !bool_decide_eq_true.
  split; (intros [H|H]; [left|right]; congruence).
Qed.

(** ** Argument finalization *)

(** C4.  [parseToolArguments] is total.  With [text] the trimmed argument
    string: an empty [text] gives the empty object; a [text] that parses to
    an object gives that object; a [text] that parses to anything else (a
    number, a string, a boolean, null, an array) gives [{value: parsed}]; a
    [text] that does not parse gives [{rawArguments: raw}] with the
    untrimmed string.  The result is always an object, and a finish signal
    reports every accumulator that has an id and a name, whatever its
    argument text is. *)
Theorem parseToolArguments_total (raw : string) :
  let text := JsString.trim raw in
  let result := parseToolArguments JSON_parse raw in
  (text = "" → result = VObj ∅)
  ∧ (∀ fields, text ≠ "" → JSON_parse text = Some (VObj fields) →
       result = VObj fields)
  ∧ (∀ parsed, text ≠ "" → JSON_parse text = Some parsed →
       (∀ fields, parsed ≠ VObj fields) →
       result = VObj {[ "value" := parsed ]})
  ∧ (text ≠ "" → JSON_parse text = None →
       result = VObj {[ "rawArguments" := VStr raw ]})
  ∧ (∃ fields, result = VObj fields)
  ∧ (∀ pending st,
       reported (reportToolCalls JSON_parse pending st)
       = reported st ++ (invocation <$> emittedCalls pending)).
Proof.
  intros text result. unfold result, parseToolArguments. fold text.
  destruct (JsString.nonEmpty text) eqn:Htext; simpl.
  - apply nonEmpty_true in Htext.
    repeat split; try done.
    + by intros fields _ ->.
    + intros parsed _ -> Hparsed. destruct parsed; try done.
      by destruct (Hparsed fields).
    + by intros _ ->.
    + destruct (JSON_parse text) as [[]|]; eauto.
    + intros pending st. by rewrite reportToolCalls_eq.
  - apply nonEmpty_false in Htext.
    repeat split; try done.
    + eauto.
    + intros pending st. by rewrite reportToolCalls_eq.
Qed.

(** ** Emission *)

(** C3.  Let the choices that a response processes be [before], then
    [finish], then [after], where [finish] is the first choice whose finish
    reason is ["tool_calls"] or ["function_call"].  Nothing is emitted
    before [finish]; at [finish] the accumulators that have a non-empty id
    and a non-empty name are emitted, in ascending order of index, and the
    others are dropped; nothing is emitted after that, whatever finish
    signals [after] holds. *)
Theorem tool_calls_emitted_once (ctor : bool) (before after : list Choice)
    (finish : Choice) :
  Forall (λ c, isToolCallFinish c = false) before →
  isToolCallFinish finish = true →
  let run := processChoices JSON_parse ctor initialState in
  let pending := pendingAfter ∅ (before ++ [finish]) in
  toolCalls (reported (run before)) = []
  ∧ toolCalls (reported (run (before ++ [finish])))
    = invocation <$> emittedCalls pending
  ∧ toolCalls (reported (run (before ++ finish :: after)))
    = invocation <$> emittedCalls pending
  ∧ StronglySorted indexBelow (emittedCalls pending)
  ∧ (∀ call, call ∈ emittedCalls pending
             ↔ pending !! index call = Some call ∧ hasIdAndName call)
  ∧ (∀ stream, processed stream = before ++ finish :: after →
       toolCalls (reported (consume JSON_parse ctor initialState stream))
       = invocation <$> emittedCalls pending)
  ∧ (∀ choice, isToolCallFinish choice = true
               ↔ finish_reason choice = VStr "tool_calls"
                 ∨ finish_reason choice = VStr "function_call").
Proof.
  intros Hbefore Hfinish run pending.
  destruct (processChoices_before ctor before initialState eq_refl Hbefore)
    as (Hp & He & Ht).
  assert (indexed pending) as Hindexed.
  { apply pendingAfter_indexed, indexed_empty. }
  assert (toolCalls (reported (run (before ++ [finish])))
          = invocation <$> emittedCalls pending
          ∧ toolCallsEmitted (run (before ++ [finish])) = true) as [Hat Hdone].
  { unfold run. rewrite processChoices_snoc.
    destruct (processChoice_toolCalls ctor
                (processChoices JSON_parse ctor initialState before) finish)
      as (_ & He' & Ht').
    rewrite He, Hfinish in He', Ht'. rewrite Ht, Hp in Ht'. simpl in Ht'.
    split; [|done]. rewrite Ht'. unfold pending, pendingAfter.
    by rewrite foldl_app. }
  assert (toolCalls (reported (run (before ++ finish :: after)))
          = invocation <$> emittedCalls pending) as Hall.
  { unfold run in *. rewrite (cons_middle finish), app_assoc.
    unfold processChoices at 1. rewrite foldl_app.
    fold (processChoices JSON_parse ctor initialState (before ++ [finish])).
    fold (processChoices JSON_parse ctor
            (processChoices JSON_parse ctor initialState (before ++ [finish]))
            after).
    by rewrite processChoices_after. }
  split; [exact Ht|]. split; [exact Hat|]. split; [exact Hall|]. split.
  { by apply sorted_filter, orderedCalls_sorted. }
  split.
  { intros call. by apply elem_of_emittedCalls. }
  split.
  { intros stream Hstream. by rewrite consume_processed, Hstream. }
  apply isToolCallFinish_true.
Qed.


(** ** Reasoning *)

Lemma latestText_eq (choice : Choice) :
  text <$> getLatestReasoningUpdate choice = latestText choice.
Proof.
  unfold getLatestReasoningUpdate, latestText.
  destruct (Js.get (delta choice) "reasoning_details")
    as [| | | | |details|]; try done.
  enough (∀ start : option ReasoningUpdate,
    text <$> foldl (λ latest detail,
                if negb (Js.isObjectLike detail) then latest
                else
                  match Js.get detail "text" with
                  | VStr candidate_text =>
                      Some {| text := candidate_text;
                              update_id :=
                                orElse (readNonEmptyString (Js.get detail "id"))
                                  (orElse
                                     (readNonEmptyString
                                        (Js.get detail "reasoning_id"))
                                     (readNonEmptyString
                                        (Js.get detail "thinking_id")));
                              update_metadata :=
                                match Js.get detail "metadata" with
                                | VObj m => Some m
                                | _ => None
                                end |}
                  | _ => latest
                  end) start details
    = match last (omap detailText details) with
      | Some t => Some t
      | None => text <$> start
      end) as H.
  { rewrite H. by destruct (last _). }
  induction details as [|detail details IH]; intros start; [done|].
  cbn [foldl omap list_omap]. rewrite IH. unfold detailText at 2.
  destruct detail as [| | | | | |fields]; simpl; try done.
  destruct (default VUndefined (fields !! "text")) as [| | | |t| |];
    simpl; try done.
  rewrite last_cons. by destruct (last _).
Qed.

(** C1, as the code has it.  When the host defines the thinking part (the
    constructor is present), every processed choice is handled as follows.
    Its latest reasoning text is the text of the last entry of
    [reasoning_details] whose [text] is a string.  The delta is what
    follows the buffer when the latest text starts with the buffer, and
    the whole latest text otherwise.  A non-empty delta is reported and
    the buffer becomes the latest text; an empty delta reports nothing and
    leaves the buffer.  Choices with the latest texts "Let", "Let me
    think", "Let me think", "Go" report "Let", " me think", nothing, "Go",
    and the buffer is the latest text after each of them.  When the host
    does not define the thinking part, reasoning details are ignored:
    nothing is reported for them, in either form, so that all a choice
    reports is its content, if any, and the tool calls, if it is the
    first to finish them; and the buffer stays as it is. *)
Theorem reasoning_prefix_diffing :
  (∀ choice, text <$> getLatestReasoningUpdate choice = latestText choice)
  ∧ (∀ buffer suffix, reasoningDelta buffer (buffer +:+ suffix) = suffix)
  ∧ (∀ buffer latest, (∀ suffix, latest ≠ buffer +:+ suffix) →
       reasoningDelta buffer latest = latest)
  ∧ (∀ st choice latest, latestText choice = Some latest →
       let st' := processChoice JSON_parse true st choice in
       let delta := reasoningDelta (reasoningBuffer st) latest in
       (delta ≠ "" →
        thinkingTexts (reported st') = thinkingTexts (reported st) ++ [delta]
        ∧ reasoningBuffer st' = latest)
       ∧ (delta = "" →
          thinkingTexts (reported st') = thinkingTexts (reported st)
          ∧ reasoningBuffer st' = reasoningBuffer st))
  ∧ (∀ st choice, latestText choice = None →
       let st' := processChoice JSON_parse true st choice in
       thinkingTexts (reported st') = thinkingTexts (reported st)
       ∧ reasoningBuffer st' = reasoningBuffer st)
  ∧ (∀ st choice,
       let st' := processChoice JSON_parse false st choice in
       reported st'
       = reported st
           ++ (if Js.truthy (contentOf choice)
               then [ReportText (contentOf choice)] else [])
           ++ (if negb (toolCallsEmitted st) && isToolCallFinish choice
               then invocation
                      <$> emittedCalls
                            (accumulateToolCalls choice (pendingToolCalls st))
               else [])
       ∧ thinkingTexts (reported st') = thinkingTexts (reported st)
       ∧ reasoningBuffer st' = reasoningBuffer st)
  ∧ (∀ c1 c2 c3 c4,
       latestText c1 = Some "Let" →
       latestText c2 = Some "Let me think" →
       latestText c3 = Some "Let me think" →
       latestText c4 = Some "Go" →
       let run := processChoices JSON_parse true initialState in
       (thinkingTexts (reported (run [c1])) = ["Let"]
        ∧ reasoningBuffer (run [c1]) = "Let")
       ∧ (thinkingTexts (reported (run [c1; c2])) = ["Let"; " me think"]
          ∧ reasoningBuffer (run [c1; c2]) = "Let me think")
       ∧ (thinkingTexts (reported (run [c1; c2; c3])) = ["Let"; " me think"]
          ∧ reasoningBuffer (run [c1; c2; c3]) = "Let me think")
       ∧ (thinkingTexts (reported (run [c1; c2; c3; c4]))
          = ["Let"; " me think"; "Go"]
          ∧ reasoningBuffer (run [c1; c2; c3; c4]) = "Go")).
Proof.
  assert (∀ st choice,
    let st' := processChoice JSON_parse true st choice in
    match latestText choice with
    | Some latest =>
        let delta := reasoningDelta (reasoningBuffer st) latest in
        if decide (delta = "")
        then thinkingTexts (reported st') = thinkingTexts (reported st)
             ∧ reasoningBuffer st' = reasoningBuffer st
        else thinkingTexts (reported st')
             = thinkingTexts (reported st) ++ [delta]
             ∧ reasoningBuffer st' = latest
    | None => thinkingTexts (reported st') = thinkingTexts (reported st)
              ∧ reasoningBuffer st' = reasoningBuffer st
    end) as Hstep.
  { intros st choice st'.
    destruct (processChoice_reasoning true st choice) as [Hb Ht].
    fold st' in Hb, Ht. rewrite Hb, Ht, stepReasoning_eq, <-latestText_eq.
    destruct (getLatestReasoningUpdate choice) as [latest|]; [|done].
    cbn [fmap option_fmap option_map]. cbv zeta.
    case_decide; [done|].
    cbn [reported reasoningBuffer]. by rewrite thinkingTexts_app. }
  split; [exact latestText_eq|].
  split; [exact reasoningDelta_prefix|].
  split; [exact reasoningDelta_other|].
  split.
  { intros st choice latest Hlatest st' delta.
    specialize (Hstep st choice). rewrite Hlatest in Hstep.
    cbv zeta in Hstep. fold st' delta in Hstep.
    case_decide; split; intros; done. }
  split.
  { intros st choice Hlatest. specialize (Hstep st choice).
    by rewrite Hlatest in Hstep. }
  split.
  { intros st choice st'.
    destruct (processChoice_reasoning false st choice) as [Hb Ht].
    fold st' in Hb, Ht. rewrite Hb, Ht, stepReasoning_absent.
    split; [|done]. unfold st', processChoice.
    rewrite stepReasoning_absent, stepToolCalls_eq.
    destruct (stepContent_eq choice st) as (_ & Hp & He & _).
    cbn [reported]. rewrite Hp, He, app_assoc. f_equal.
    unfold stepContent, contentOf.
    by destruct (Js.truthy _); [|rewrite app_nil_r]. }
  intros c1 c2 c3 c4 H1 H2 H3 H4 run. unfold run, processChoices.
  cbn [foldl].
  pose proof (Hstep initialState c1) as S1. rewrite H1 in S1.
  set (st1 := processChoice JSON_parse true initialState c1) in *.
  destruct S1 as [T1 B1].
  pose proof (Hstep st1 c2) as S2. rewrite H2, B1 in S2.
  set (st2 := processChoice JSON_parse true st1 c2) in *.
  destruct S2 as [T2 B2].
  pose proof (Hstep st2 c3) as S3. rewrite H3, B2 in S3.
  set (st3 := processChoice JSON_parse true st2 c3) in *.
  destruct S3 as [T3 B3].
  pose proof (Hstep st3 c4) as S4. rewrite H4, B3 in S4.
  set (st4 := processChoice JSON_parse true st3 c4) in *.
  destruct S4 as [T4 B4].
  rewrite T4, B4, T3, B3, T2, B2, T1, B1. done.
Qed.

(** ** Accumulation *)

(** C2.  The fragments of the [tool_calls] array of a delta are merged in
    order.  A fragment goes into the accumulator at its declared index
    when that is a non-negative integer, and at the current size of the
    pending map otherwise.  A non-empty id or name replaces the stored
    one, later values winning; argument text is appended to the stored
    text.  Four fragments with index 0 that carry, in turn, the id c1, the
    name run, the argument text [argumentsHead] and the argument text
    [argumentsTail], followed by the finish reason tool_calls, give
    exactly one invocation: id c1, name run and the arguments [{a: 1}]. *)
Theorem tool_call_accumulation :
  (∀ choice fragments pending,
     Js.get (delta choice) "tool_calls" = VArr fragments →
     accumulateToolCalls choice pending
     = foldl accumulateToolCall pending fragments)
  ∧ (∀ pending rawCall, Js.isObjectLike rawCall = true →
       let target := targetOf pending rawCall in
       let old := accumulatorAt pending target in
       accumulateToolCall pending rawCall
       = <[target :=
             {| index := index old;
                call_id :=
                  overwrite (call_id old) (supplied (Js.get rawCall "id"));
                call_name :=
                  overwrite (call_name old)
                    (supplied (Js.get (Js.get rawCall "function") "name"));
                arguments :=
                  arguments old
                  +:+ supplied
                        (Js.get (Js.get rawCall "function") "arguments") |}]>
           pending)
  ∧ (∀ pending rawCall i, Js.get rawCall "index" = VNum (Int i) → 0 ≤ i →
       targetOf pending rawCall = i)
  ∧ (∀ pending rawCall,
       (∀ i, 0 ≤ i → Js.get rawCall "index" ≠ VNum (Int i)) →
       targetOf pending rawCall = Z.of_nat (size pending))
  ∧ foldl accumulateToolCall ∅ sampleFragments
    = {[ 0 := {| index := 0; call_id := Some "c1"; call_name := Some "run";
                 arguments := argumentsHead +:+ argumentsTail |} ]}
  ∧ (JSON_parse (argumentsHead +:+ argumentsTail)
     = Some (VObj {[ "a" := VNum (Int 1) ]}) →
     ∀ ctor,
       reported (consume JSON_parse ctor initialState sampleStream)
       = [ReportToolCall "c1" "run" (VObj {[ "a" := VNum (Int 1) ]})]).
Proof.
  split.
  { intros choice fragments pending Hcalls. unfold accumulateToolCalls.
    by rewrite Hcalls. }
  split; [exact accumulateToolCall_merge|]. split.
  { intros pending rawCall i Hi Hpos. unfold targetOf, declaredIndex.
    rewrite Hi. by rewrite decide_True. }
  split.
  { intros pending rawCall Hno. unfold targetOf, declaredIndex.
    destruct (Js.get rawCall "index") as [| | |[i| |]| | |] eqn:Hi; try done.
    case_decide; [|done]. by destruct (Hno i). }
  split; [by vm_compute|].
  intros Hparse ctor. vm_compute in Hparse.
  destruct ctor; vm_compute; by rewrite Hparse.
Qed.

End Stream.

(** ** Examples *)

Lemma reasoning_prefix_diffing_witness :
  thinkingTexts
    (reported (processChoices JsonFragment.parse true initialState
                 reasoningSample))
  = ["Let"; " me think"; "Go"]
  ∧ reasoningBuffer (processChoices JsonFragment.parse true initialState
                       reasoningSample) = "Go".
Proof.
  destruct (reasoning_prefix_diffing JsonFragment.parse)
    as (_ & _ & _ & _ & _ & _ & Hexample).
  apply (Hexample
           (reasoningChoice [VObj {[ "text" := VStr "Let" ]}])
           (reasoningChoice [VObj {[ "text" := VStr "L" ]}; VStr "noise";
                             VObj {[ "text" := VStr "Let me think" ]};
                             VObj {[ "text" := VNum (Int 5) ]}])
           (reasoningChoice [VObj {[ "text" := VStr "Let me think" ]}])
           (reasoningChoice [VObj {[ "text" := VStr "Go";
                                     "id" := VStr "r1" ]}]));
    reflexivity.
Defined.

(** Without the thinking part the sample reports nothing at all. *)
Lemma reasoning_ignored_without_thinking_part :
  reported (consume JsonFragment.parse false initialState
              [(false, {| choices := reasoningSample |})]) = [].
Proof. reflexivity. Qed.

(** With the thinking part the sample reports its three deltas, one
    for one. *)
Lemma reasoning_reported_with_thinking_part :
  Forall2 emitsReasoning ["Let"; " me think"; "Go"]
    (reported (consume JsonFragment.parse true initialState
                 [(false, {| choices := reasoningSample |})])).
Proof.
  assert (reported (consume JsonFragment.parse true initialState
                      [(false, {| choices := reasoningSample |})])
          = [ReportThinking "Let" None None;
             ReportThinking " me think" None None;
             ReportThinking "Go" (Some "r1") None]) as -> by reflexivity.
  repeat (constructor; [left; by eexists _, _|]). constructor.
Qed.

(** C1, as the specification words it, fails: it speaks of every choice
    of every chunk, whether or not the host defines the thinking part.
    The choices of the sample carry the cumulative texts "Let", "Let me
    think", "Let me think", "Go" and nothing else, so that the parts
    reported for them should be the deltas "Let", " me think", "Go", one
    for one, each as a thinking part or as text between [<think>] and
    [</think>].  Without the thinking part nothing is reported. *)
Lemma reasoning_needs_thinking_part_counterexample :
  ¬ (∀ thinkingPartCtor : bool,
       Forall2 emitsReasoning ["Let"; " me think"; "Go"]
         (reported (consume JsonFragment.parse thinkingPartCtor initialState
                      [(false, {| choices := reasoningSample |})]))).
Proof.
  intros Hspec. specialize (Hspec false).
  rewrite reasoning_ignored_without_thinking_part in Hspec.
  inversion Hspec.
Qed.

Lemma tool_call_accumulation_witness :
  JsonFragment.parse (argumentsHead +:+ argumentsTail)
  = Some (VObj {[ "a" := VNum (Int 1) ]})
  ∧ reported (consume JsonFragment.parse true initialState sampleStream)
    = [ReportToolCall "c1" "run" (VObj {[ "a" := VNum (Int 1) ]})].
Proof.
  assert (JsonFragment.parse (argumentsHead +:+ argumentsTail)
          = Some (VObj {[ "a" := VNum (Int 1) ]})) as Hparse
    by (vm_compute; reflexivity).
  split; [exact Hparse|].
  destruct (tool_call_accumulation JsonFragment.parse)
    as (_ & _ & _ & _ & _ & Hexample).
  apply (Hexample Hparse true).
Defined.

Lemma tool_calls_emitted_once_witness :
  toolCalls
    (reported (processChoices JsonFragment.parse true initialState
                 (outOfOrder ++ finishChoice "function_call"
                    :: [finishChoice "tool_calls";
                        finishChoice "function_call"])))
  = [ReportToolCall "a" "first" (VObj ∅);
     ReportToolCall "b" "second" (VObj ∅)].
Proof.
  destruct (tool_calls_emitted_once JsonFragment.parse true outOfOrder
              [finishChoice "tool_calls"; finishChoice "function_call"]
              (finishChoice "function_call")) as (_ & _ & Hall & _).
  - repeat constructor.
  - reflexivity.
  - rewrite Hall. vm_compute. reflexivity.
Defined.

Lemma parseToolArguments_total_witness :
  parseToolArguments JsonFragment.parse "not json"
  = VObj {[ "rawArguments" := VStr "not json" ]}
  ∧ parseToolArguments JsonFragment.parse "  " = VObj ∅
  ∧ parseToolArguments JsonFragment.parse " [1, 2] "
    = VObj {[ "value" := VArr [VNum (Int 1); VNum (Int 2)] ]}
  ∧ parseToolArguments JsonFragment.parse (argumentsHead +:+ argumentsTail)
    = VObj {[ "a" := VNum (Int 1) ]}.
Proof.
  split; [|split; [|split]].
  - destruct (parseToolArguments_total JsonFragment.parse "not json")
      as (_ & _ & _ & Hraw & _).
    apply Hraw; [discriminate|reflexivity].
  - destruct (parseToolArguments_total JsonFragment.parse "  ")
      as (Hempty & _).
    apply Hempty. reflexivity.
  - destruct (parseToolArguments_total JsonFragment.parse " [1, 2] ")
      as (_ & _ & Hvalue & _).
    apply Hvalue; [discriminate|by vm_compute|discriminate].
  - destruct (parseToolArguments_total JsonFragment.parse
                (argumentsHead +:+ argumentsTail)) as (_ & Hobject & _).
    apply Hobject; [discriminate|by vm_compute].
Defined.

End ReconstructorFacts.

(* ================================================================== *)
(** * Properties: trimmed strings *)
(* ================================================================== *)

Module TrimShapeFacts.
Import JsString Spec JsStringFacts TrimFacts.

Lemma string_rev_app_app (s acc : string) :
  String.rev_app s acc = String.rev s +:+ acc.
Proof.
  unfold String.rev. revert acc.
  induction s as [|c s IH]; intros acc; simpl; [done|].
  rewrite IH, (IH (String c "")), string_app_assoc. done.
Qed.

Lemma string_rev_app_distr (s t : string) :
  String.rev (s +:+ t) = String.rev t +:+ String.rev s.
Proof.
  induction s as [|c s IH]; simpl.
  - by rewrite string_app_empty_r.
  - unfold String.rev in *. simpl.
    rewrite (string_rev_app_app (s +:+ t)), (string_rev_app_app s (String c "")).
    unfold String.rev. rewrite IH, string_app_assoc. done.
Qed.

Lemma string_rev_involutive (s : string) : String.rev (String.rev s) = s.
Proof.
  induction s as [|c s IH]; [done|].
  unfold String.rev at 2. simpl. rewrite string_rev_app_app, string_rev_app_distr, IH. done.
Qed.

Lemma trimStart_padded (s : string) :
  ∃ w, s = w +:+ trimStart s ∧ allWhiteSpace w = true.
Proof.
  induction s as [|c s (w & Hs & Hw)]; simpl; [by exists ""|].
  destruct (isWhiteSpace c) eqn:Hc; [|by exists ""].
  exists (String c w). simpl. rewrite Hc, Hw. split; [|done].
  change (String c s = String c (w +:+ trimStart s)). by rewrite <- Hs.
Qed.

Lemma startsClean_trimStart (s : string) : startsClean (trimStart s) = true.
Proof.
  induction s as [|c s IH]; simpl; [done|].
  destruct (isWhiteSpace c) eqn:Hc; [done|]. simpl. by rewrite Hc.
Qed.

Lemma trimStart_fixed (s : string) : startsClean s = true → trimStart s = s.
Proof. destruct s as [|c s]; simpl; [done|]. by destruct (isWhiteSpace c). Qed.

Lemma trimEnd_padded (s : string) :
  ∃ w, s = trimEnd s +:+ w ∧ allWhiteSpace w = true.
Proof.
  unfold trimEnd. destruct (trimStart_padded (String.rev s)) as (w & Hs & Hw).
  exists (String.rev w). rewrite allWhiteSpace_rev. split; [|done].
  rewrite <- string_rev_app_distr, <- Hs. by rewrite string_rev_involutive.
Qed.

Lemma endsClean_trimEnd (s : string) : endsClean (trimEnd s) = true.
Proof.
  unfold endsClean, trimEnd. rewrite string_rev_involutive. apply startsClean_trimStart.
Qed.

Lemma trimEnd_fixed (s : string) : endsClean s = true → trimEnd s = s.
Proof.
  unfold endsClean, trimEnd. intros H. rewrite trimStart_fixed by done.
  apply string_rev_involutive.
Qed.

Lemma startsClean_trimEnd (s : string) :
  startsClean s = true → startsClean (trimEnd s) = true.
Proof.
  destruct (trimEnd_padded s) as (w & Hs & Hw).
  destruct s as [|c s]; simpl; intros Hc.
  - symmetry in Hs. destruct (trimEnd ""); [done|discriminate].
  - destruct (trimEnd (String c s)) as [|c' u]; [done|].
    simpl in Hs. injection Hs as -> _. done.
Qed.

Lemma trim_clean (s : string) :
  startsClean (trim s) = true ∧ endsClean (trim s) = true.
Proof.
  unfold trim. split.
  - apply startsClean_trimEnd, startsClean_trimStart.
  - apply endsClean_trimEnd.
Qed.

Lemma trim_fixed (s : string) :
  startsClean s = true → endsClean s = true → trim s = s.
Proof.
  intros Hs He. unfold trim. rewrite (trimStart_fixed s Hs). by apply trimEnd_fixed.
Qed.

Lemma trim_idempotent (s : string) : trim (trim s) = trim s.
Proof. destruct (trim_clean s). by apply trim_fixed. Qed.

Lemma trim_padded (s : string) : padded s (trim s).
Proof.
  destruct (trimStart_padded s) as (l & Hl & Hwl).
  destruct (trimEnd_padded (trimStart s)) as (r & Hr & Hwr).
  exists l, r. unfold trim. by rewrite <- Hr, <- Hl.
Qed.

Lemma trim_usable (s : string) :
  (0 <? String.length (trim s))%nat = true → usable (trim s).
Proof.
  intros H. destruct (trim_clean s). split; [|done].
  intros E. rewrite E in H. done.
Qed.

Lemma usable_trim (s : string) : usable s → trim s = s.
Proof. intros (_ & ? & ?). by apply trim_fixed. Qed.

Lemma usable_length (s : string) :
  usable s → (0 <? String.length s)%nat = true.
Proof. intros [H _]. destruct s; [done|]. done. Qed.

End TrimShapeFacts.

(* ================================================================== *)
(** * Properties: normalized names and schemas *)
(* ================================================================== *)

Module NormalizerFacts.
Import JsString Wire MiniMaxProvider Spec.
Import JsStringFacts TrimFacts TrimShapeFacts ToolSchemaFacts.

Lemma length_positive (s : string) :
  (0 <? String.length s)%nat = true ↔ s ≠ "".
Proof. destruct s; simpl; split; done. Qed.

Lemma length_positive_false (s : string) :
  (0 <? String.length s)%nat = false ↔ s = "".
Proof. destruct s; simpl; split; done. Qed.

Lemma normalizeToolName_Some (name : option string) (n : string) :
  normalizeToolName name = Some n ↔
  ∃ raw, name = Some raw ∧ n = trim raw ∧ trim raw ≠ "".
Proof.
  unfold normalizeToolName. destruct name as [raw|]; [|split; [done|by intros (?&?&?)]].
  destruct (0 <? String.length (trim raw))%nat eqn:H.
  - apply length_positive in H. split.
    + intros [= <-]. by exists raw.
    + intros (? & [= <-] & -> & _). done.
  - apply length_positive_false in H. split; [done|].
    intros (? & [= <-] & _ & ?). done.
Qed.

Lemma normalizeToolName_None (name : option string) :
  normalizeToolName name = None ↔
  match name with None => True | Some raw => whitespaceOnly raw end.
Proof.
  unfold normalizeToolName, whitespaceOnly. destruct name as [raw|]; [|done].
  rewrite <- trim_empty.
  destruct (0 <? String.length (trim raw))%nat eqn:H.
  - apply length_positive in H. split; done.
  - apply length_positive_false in H. split; done.
Qed.

Lemma normalizeToolDescription_Some (description : option string) (d : string) :
  normalizeToolDescription description = Some d ↔
  ∃ raw, description = Some raw ∧ d = trim raw ∧ trim raw ≠ "".
Proof.
  unfold normalizeToolDescription.
  destruct description as [raw|]; [|split; [done|by intros (?&?&?)]].
  destruct (0 <? String.length (trim raw))%nat eqn:H.
  - apply length_positive in H. split.
    + intros [= <-]. by exists raw.
    + intros (? & [= <-] & -> & _). done.
  - apply length_positive_false in H. split; [done|].
    intros (? & [= <-] & _ & ?). done.
Qed.

Lemma trim_nonempty_usable (s : string) : trim s ≠ "" → usable (trim s).
Proof. intros H. apply trim_usable. by apply length_positive. Qed.

Lemma normalizeToolParameters_wellFormed (v : value) :
  wellFormedSchema (normalizeToolParameters v).
Proof.
  destruct v as [| | | | | |fields];
    try (split; [by eexists|intros _; by eexists]).
  unfold normalizeToolParameters, wellFormedSchema.
  destruct (Js.has fields "type") eqn:Ht; simpl.
  - apply has_true in Ht. destruct Ht as [t Ht]. simpl. rewrite Ht. simpl.
    destruct (Js.isString t "object") eqn:Hs; simpl.
    + destruct (Js.has fields "properties") eqn:Hp; simpl.
      * apply has_true in Hp. rewrite Ht. split; [by eexists|done].
      * rewrite lookup_insert_ne, Ht by done. split; [by eexists|].
        intros _. rewrite lookup_insert_eq. by eexists.
    + rewrite Ht. split; [by eexists|]. intros [= ->].
      by rewrite (proj2 (isString_true _ _) eq_refl) in Hs.
  - rewrite lookup_insert_eq. simpl.
    destruct (Js.has (<["type":=VStr "object"]> fields) "properties") eqn:Hp;
      simpl.
    + apply has_true in Hp. rewrite lookup_insert_eq. split; [by eexists|done].
    + rewrite lookup_insert_ne, lookup_insert_eq by done.
      split; [by eexists|]. intros _. rewrite lookup_insert_eq. by eexists.
Qed.

Lemma normalizeToolParameters_fixed (fields : gmap string value) :
  normalizeToolParameters (VObj fields) = fields ↔ wellFormedSchema fields.
Proof.
  split.
  - intros <-. apply normalizeToolParameters_wellFormed.
  - intros [[t Ht] Hp]. unfold normalizeToolParameters.
    rewrite (proj2 (has_true fields "type")) by by eexists.
    simpl. rewrite Ht. simpl.
    destruct (Js.isString t "object") eqn:Hs; simpl; [|done].
    apply isString_true in Hs. subst t.
    by rewrite (proj2 (has_true fields "properties")) by auto.
Qed.

Lemma convertTool_wellFormed (tool : LanguageModelChatTool)
    (definition : MiniMaxToolDefinition) :
  convertTool tool = Some definition → wellFormedDefinition definition.
Proof.
  unfold convertTool. intros H.
  destruct (normalizeToolName (tool_name tool)) as [n|] eqn:Hn; [|done].
  simpl in H. injection H as <-.
  apply normalizeToolName_Some in Hn. destruct Hn as (raw & _ & -> & Hraw).
  split; [by apply trim_nonempty_usable|]. split; simpl.
  - intros d Hd. apply normalizeToolDescription_Some in Hd.
    destruct Hd as (raw' & _ & -> & Hraw'). by apply trim_nonempty_usable.
  - apply normalizeToolParameters_wellFormed.
Qed.

Lemma omap_convertTool_length (tools : list LanguageModelChatTool) :
  (length (omap convertTool tools) ≤ length tools)%nat.
Proof.
  induction tools as [|tool l IH]; [done|].
  change (omap convertTool (tool :: l))
    with (match convertTool tool with
          | Some definition => definition :: omap convertTool l
          | None => omap convertTool l
          end).
  destruct (convertTool tool); simpl; lia.
Qed.

Lemma convertTool_None (tool : LanguageModelChatTool) :
  convertTool tool = None ↔ nameless tool.
Proof.
  unfold convertTool, nameless. rewrite <- normalizeToolName_None.
  destruct (normalizeToolName (tool_name tool)); simpl; split; done.
Qed.

Lemma omap_convertTool_nil (tools : list LanguageModelChatTool) :
  omap convertTool tools = [] ↔ Forall nameless tools.
Proof.
  induction tools as [|tool tools IH]; simpl; [done|].
  rewrite Forall_cons, <- IH, <- convertTool_None.
  destruct (convertTool tool); split; (done || by intros [? ?]).
Qed.

Lemma convertTools_omap (tools : option (list LanguageModelChatTool)) :
  convertTools tools =
  match omap convertTool (default [] tools) with
  | [] => None
  | definitions => Some definitions
  end.
Proof.
  destruct tools as [[|tool tools]|]; [done| |done].
  unfold convertTools. rewrite convertTools_fold.
  change (default [] (Some (tool :: tools))) with (tool :: tools).
  rewrite app_nil_l. by destruct (omap convertTool (tool :: tools)).
Qed.

(** X1.  Every tool definition that [convertTools] returns is well
    formed: its name, and its description when it has one, are not empty
    and carry no white space at either end, and its parameters have the
    key [type], and the key [properties] when the type is ["object"].
    The result is never an empty list and is no longer than the list of
    host tools; it is absent exactly when no host tool has a name other
    than white space. *)
Theorem convertTools_wellFormed (tools : option (list LanguageModelChatTool)) :
  (∀ definitions, convertTools tools = Some definitions →
     definitions ≠ []
     ∧ Forall wellFormedDefinition definitions
     ∧ (length definitions ≤ length (default [] tools))%nat)
  ∧ (convertTools tools = None ↔ Forall nameless (default [] tools)).
Proof.
  rewrite convertTools_omap. split.
  - intros definitions H.
    assert (definitions = omap convertTool (default [] tools)) as ->
      by (by destruct (omap convertTool (default [] tools)); simplify_eq).
    split; [by destruct (omap convertTool (default [] tools))|]. split.
    + apply Forall_forall. intros d Hd. apply list_elem_of_omap in Hd.
      destruct Hd as (tool & _ & Hd). by eapply convertTool_wellFormed.
    + apply omap_convertTool_length.
  - rewrite <- omap_convertTool_nil.
    by destruct (omap convertTool (default [] tools)).
Qed.

(** X2.  The normalized parameters of a tool are always well formed (the
    key [type] is present, and an object schema has the key
    [properties]); normalizing them again changes nothing; and a plain
    object passes through unchanged exactly when it is well formed
    already. *)
Theorem normalizeToolParameters_stable (v : value) :
  wellFormedSchema (normalizeToolParameters v)
  ∧ normalizeToolParameters (VObj (normalizeToolParameters v))
    = normalizeToolParameters v
  ∧ (∀ fields, v = VObj fields →
       (normalizeToolParameters v = fields ↔ wellFormedSchema fields)).
Proof.
  split; [apply normalizeToolParameters_wellFormed|]. split.
  - apply normalizeToolParameters_fixed, normalizeToolParameters_wellFormed.
  - intros fields ->. apply normalizeToolParameters_fixed.
Qed.

(** X3.  [readNonEmptyString] returns a string only for a string value,
    and the string it returns is the value less the white space at its
    ends: not empty, no white space at either end, and a fixed point of
    the function.  It returns nothing exactly when the value is no
    string or a string of white space only. *)
Theorem readNonEmptyString_usable (v : value) :
  (∀ s, readNonEmptyString v = Some s →
     usable s
     ∧ readNonEmptyString (VStr s) = Some s
     ∧ ∃ raw, v = VStr raw ∧ padded raw s)
  ∧ (readNonEmptyString v = None ↔ ∀ raw, v = VStr raw → whitespaceOnly raw).
Proof.
  destruct v as [| | | |raw| |]; try (split; [done|split; done]).
  unfold readNonEmptyString, whitespaceOnly.
  destruct (0 <? String.length (trim raw))%nat eqn:H.
  - split.
    + intros s [= <-]. split; [by apply trim_usable|]. split.
      * by rewrite trim_idempotent, H.
      * exists raw. split; [done|apply trim_padded].
    + split; [done|]. intros Hw. apply length_positive in H.
      destruct H. apply trim_empty. by apply Hw.
  - split; [done|]. split; [|done]. intros _ ? [= <-].
    apply trim_empty. by apply length_positive_false.
Qed.

Lemma convertTools_wellFormed_witness :
  ∃ definitions,
    convertTools
      (Some [ {| tool_name := Some " read "; tool_description := Some "  ";
                 inputSchema := VNull |};
              {| tool_name := Some "  "; tool_description := None;
                 inputSchema := VNull |} ]) = Some definitions
    ∧ definitions ≠ []
    ∧ Forall wellFormedDefinition definitions.
Proof.
  eexists. split; [reflexivity|].
  destruct (convertTools_wellFormed
              (Some [ {| tool_name := Some " read ";
                         tool_description := Some "  ";
                         inputSchema := VNull |};
                      {| tool_name := Some "  "; tool_description := None;
                         inputSchema := VNull |} ])) as [H _].
  destruct (H _ eq_refl) as (? & ? & _). done.
Defined.

Lemma normalizeToolParameters_stable_witness :
  normalizeToolParameters (VObj {[ "type" := VStr "string" ]})
  = {[ "type" := VStr "string" ]}.
Proof.
  destruct (normalizeToolParameters_stable (VObj {[ "type" := VStr "string" ]}))
    as (_ & _ & H).
  apply (H _ eq_refl). split; [by eexists|]. intros [=].
Defined.

Lemma readNonEmptyString_usable_witness :
  readNonEmptyString (VStr " call_1 ") = Some "call_1" ∧ usable "call_1".
Proof.
  split; [reflexivity|].
  destruct (readNonEmptyString_usable (VStr " call_1 ")) as [H _].
  destruct (H "call_1" eq_refl) as (? & _). done.
Defined.

End NormalizerFacts.

(* ================================================================== *)
(** * Properties: token estimates *)
(* ================================================================== *)

Module EstimatorFacts.
Import MiniMaxProvider Spec JsStringFacts TokenCountFacts.
#[local] Open Scope nat_scope.

Lemma string_length_app (s t : string) :
  String.length (s +:+ t) = String.length s + String.length t.
Proof. induction s as [|c s IH]; simpl; [done|]. by rewrite IH. Qed.

Lemma estimateTokens_quarter (text : string) :
  isCeilOfQuarter (String.length text) (TokenCounter.estimateTokens text).
Proof.
  unfold TokenCounter.estimateTokens.
  destruct (Nat.eqb_spec (String.length text) 0) as [->|_];
    [unfold isCeilOfQuarter; lia|apply ceilDiv_quarter].
Qed.

Lemma textLength_joined (content : list Part) :
  textLength content = String.length (joined (textParts content)).
Proof.
  unfold textLength, textParts, joined.
  induction content as [|part content IH]; [done|].
  cbn [sum_list_with]. rewrite IH.
  destruct part; simpl; try done. by rewrite string_length_app.
Qed.

Lemma succ_le_pow10 (k : nat) : S k ≤ 10 ^ k.
Proof.
  induction k as [|k IH]; [simpl; lia|].
  rewrite Nat.pow_succ_r'. lia.
Qed.

Lemma hasDecimalDigits_le (n d : nat) :
  hasDecimalDigits n d → 1 ≤ d ∧ (1 ≤ n → d ≤ n).
Proof.
  unfold hasDecimalDigits. case_decide as Hn; [lia|].
  intros (Hd & Hlo & _). split; [done|]. intros _.
  pose proof (succ_le_pow10 (d - 1)). lia.
Qed.

(** X4.  The estimate of [estimateTokens] is zero exactly for the empty
    string.  A text never has a lower estimate than one of its prefixes,
    and cutting a text in two raises the total estimate by one token at
    most: the estimate of the whole lies between the sum of the parts
    less one and the sum of the parts. *)
Theorem estimateTokens_concatenation (s t : string) :
  (TokenCounter.estimateTokens s = 0 ↔ s = "")
  ∧ TokenCounter.estimateTokens s ≤ TokenCounter.estimateTokens (s +:+ t)
  ∧ TokenCounter.estimateTokens (s +:+ t)
    ≤ TokenCounter.estimateTokens s + TokenCounter.estimateTokens t
  ∧ TokenCounter.estimateTokens s + TokenCounter.estimateTokens t
    ≤ TokenCounter.estimateTokens (s +:+ t) + 1.
Proof.
  pose proof (estimateTokens_quarter s) as Hs.
  pose proof (estimateTokens_quarter t) as Ht.
  pose proof (estimateTokens_quarter (s +:+ t)) as Hst.
  unfold isCeilOfQuarter in *. rewrite string_length_app in Hst.
  rewrite <- length_zero_iff. lia.
Qed.

(** X5.  The count that [provideTokenCount] gives for a structured
    message is at least 1, even without any text, and never more than
    the count it gives for the same text passed as a string, as soon as
    there is text. *)
Theorem provideTokenCount_message_bound (content : list Part) :
  let text := joined (textParts content) in
  1 ≤ provideTokenCount (inr content)
  ∧ (text ≠ "" →
     provideTokenCount (inr content) ≤ provideTokenCount (inl text)).
Proof.
  intros text.
  destruct (hasDecimalDigits_total (textLength content)) as [d Hd].
  pose proof (hasDecimalDigits_le _ _ Hd) as [Hd1 Hdn].
  assert (isCeilOfQuarter d (provideTokenCount (inr content))) as Hr.
  { unfold provideTokenCount. rewrite totalChars_textLength. simpl.
    rewrite <- (ofNat_length _ _ Hd) at 1. apply estimateTokens_quarter. }
  pose proof (estimateTokens_quarter text) as Ht.
  unfold isCeilOfQuarter in *. split; [lia|].
  intros Htext. rewrite <- length_zero_iff in Htext.
  rewrite textLength_joined in Hdn. fold text in Hdn.
  unfold provideTokenCount at 2. lia.
Qed.

Lemma provideTokenCount_message_bound_witness :
  provideTokenCount (inr [LanguageModelTextPart "hello, "; OtherPart VNull;
                          LanguageModelTextPart "world"]) = 1
  ∧ provideTokenCount (inl "hello, world") = 3
  ∧ provideTokenCount (inr [LanguageModelTextPart "hello, "; OtherPart VNull;
                            LanguageModelTextPart "world"])
    ≤ provideTokenCount (inl "hello, world").
Proof.
  split; [reflexivity|]. split; [reflexivity|].
  apply (provideTokenCount_message_bound
           [LanguageModelTextPart "hello, "; OtherPart VNull;
            LanguageModelTextPart "world"]).
  discriminate.
Defined.

End EstimatorFacts.

(* ================================================================== *)
(** * Properties: converted conversations *)
(* ================================================================== *)

Module MessageListFacts.
Import JsString Wire MiniMaxProvider Spec.
Import JsStringFacts TrimFacts TrimShapeFacts NormalizerFacts
  MessageMapperFacts.

Section Rendering.
Variable JSON_stringify : Part → option (option string).
Variable String_ : Part → string.
Variable base64 : list Byte.byte → string.
Variable JSON_stringify_input : value → string.

#[local] Abbreviation concatResult :=
  (concatToolResultContent JSON_stringify String_ base64).
#[local] Abbreviation toMessages :=
  (toMiniMaxUserAndToolMessages JSON_stringify String_ base64).
#[local] Abbreviation toWire :=
  (toMiniMaxMessages JSON_stringify String_ base64 JSON_stringify_input).
#[local] Abbreviation convert :=
  (convertMessages JSON_stringify String_ base64 JSON_stringify_input).
#[local] Abbreviation toolContent :=
  (Spec.toolContent JSON_stringify String_ base64).

Lemma convertMessages_fold (messages : list LanguageModelChatRequestMessage)
    (start : list MiniMaxMessage) :
  foldl (λ converted message, converted ++ toWire message) start messages
  = start ++ concat (toWire <$> messages).
Proof.
  revert start. induction messages as [|m ms IH]; intros start; simpl.
  - by rewrite app_nil_r.
  - by rewrite IH, app_assoc.
Qed.

Lemma convertMessages_concat (messages : list LanguageModelChatRequestMessage) :
  convert messages = concat (toWire <$> messages).
Proof. unfold convertMessages. by rewrite convertMessages_fold. Qed.

Lemma toolContent_usable (content : list Part) : usable (toolContent content).
Proof.
  unfold Spec.toolContent. case_decide as H; [|by apply trim_nonempty_usable].
  split; [done|]. split; reflexivity.
Qed.

Lemma toWire_cases (message : LanguageModelChatRequestMessage) :
  toWire message =
  match role message with
  | Assistant =>
      [toMiniMaxAssistantMessage JSON_stringify_input (getMessageParts message)]
  | User => toMessages (getMessageParts message)
  | System => [SystemMessage (concatTextParts (getMessageParts message))]
  end.
Proof. unfold toMiniMaxMessages. by destruct (role message). Qed.

Lemma toMessages_nonempty (parts : list Part) : toMessages parts ≠ [].
Proof.
  rewrite toMessages_eq. case_decide as H; [done|].
  destruct (toolResults parts); [|done]. destruct H. by right.
Qed.

Lemma toWire_nonempty (message : LanguageModelChatRequestMessage) :
  toWire message ≠ [].
Proof.
  rewrite toWire_cases. destruct (role message); [|done..].
  apply toMessages_nonempty.
Qed.

Lemma assistant_role (parts : list Part) :
  wireRole (toMiniMaxAssistantMessage JSON_stringify_input parts) = "assistant".
Proof.
  unfold toMiniMaxAssistantMessage. by destruct (foldl _ _ _).
Qed.

(** X6.  [convertMessages] converts the host messages one by one and in
    order: the conversion of a list is the concatenation of the
    conversions of its messages, so that it distributes over
    concatenation.  No host message is lost: each one gives at least one
    wire message, and the result has at least as many messages as the
    input. *)
Theorem convertMessages_in_order
    (before after : list LanguageModelChatRequestMessage) :
  convert (before ++ after) = convert before ++ convert after
  ∧ convert before = concat (toWire <$> before)
  ∧ Forall (λ message, toWire message ≠ []) before
  ∧ (length before ≤ length (convert before))%nat.
Proof.
  rewrite !convertMessages_concat, fmap_app, concat_app.
  split; [done|]. split; [done|]. split.
  - apply Forall_forall. intros message _. apply toWire_nonempty.
  - induction before as [|m ms IH]; [simpl; lia|].
    rewrite fmap_cons, concat_cons, length_app.
    pose proof (toWire_nonempty m).
    destruct (toWire m); [done|]. cbn [length]. lia.
Qed.

(** X7.  A wire message keeps the role of the host message it comes
    from, except for the tool messages, which come from user messages
    only.  A system or an assistant message gives exactly one wire
    message. *)
Theorem toMiniMaxMessages_roles (message : LanguageModelChatRequestMessage) :
  Forall (λ m, wireRole m = convertRole (role message)
               ∨ (role message = User ∧ wireRole m = "tool"))
    (toWire message)
  ∧ (role message ≠ User → length (toWire message) = 1%nat).
Proof.
  rewrite toWire_cases. destruct (role message) eqn:Hrole.
  - split; [|done]. rewrite toMessages_eq. apply Forall_app. split.
    + case_decide; [|done]. apply Forall_singleton. by left.
    + apply Forall_fmap, Forall_forall. intros r _. by right.
  - split; [|done]. apply Forall_singleton. left. apply assistant_role.
  - split; [|done]. apply Forall_singleton. by left.
Qed.

(** X8.  No tool message of a converted conversation has empty content
    or content with white space at either end: the content of a tool
    message is the trimmed rendering of the tool result, or ["{}"]. *)
Theorem convertMessages_tool_content
    (messages : list LanguageModelChatRequestMessage) :
  Forall toolContentUsable (convert messages)
  ∧ ∀ content, usable (concatResult content).
Proof.
  assert (∀ content, usable (concatResult content)) as Husable.
  { intros content. rewrite concatToolResultContent_toolContent.
    apply toolContent_usable. }
  split; [|done]. rewrite convertMessages_concat.
  apply Forall_concat, Forall_fmap, Forall_forall. intros message _.
  unfold compose. rewrite toWire_cases. destruct (role message).
  - rewrite toMessages_eq. apply Forall_app. split.
    + by case_decide; [apply Forall_singleton|].
    + apply Forall_fmap, Forall_forall. intros r _. apply toolContent_usable.
  - apply Forall_singleton. unfold toMiniMaxAssistantMessage.
    by destruct (foldl _ _ _).
  - by apply Forall_singleton.
Qed.

End Rendering.

Lemma toMiniMaxMessages_roles_witness :
  length (sampleMapper {| role := System;
                          content := ContentString "Be brief." |}) = 1%nat.
Proof.
  apply (toMiniMaxMessages_roles (λ _, Some None) (λ _, "") (λ _, "")
           (λ _, "{}")
           {| role := System; content := ContentString "Be brief." |}).
  discriminate.
Defined.

End MessageListFacts.

(* ================================================================== *)
(** * Properties: assistant turns *)
(* ================================================================== *)

Module AssistantTurnFacts.
Import JsString Wire MiniMaxProvider Spec.
Import JsStringFacts TrimFacts TrimShapeFacts NormalizerFacts
  MessageMapperFacts.

Lemma is_Some_None_false (A : Type) : bool_decide (is_Some (@None A)) = false.
Proof. apply bool_decide_eq_false_2. by intros [? ?]. Qed.

Lemma stringsOf_forallb (items : list value) :
  forallb (λ item, match item with VStr _ => true | _ => false end) items
  = bool_decide (is_Some (stringsOf items)).
Proof.
  induction items as [|item items IH]; [done|]. cbn [forallb stringsOf].
  rewrite IH. destruct item; simpl; try done.
  apply bool_decide_ext. by rewrite fmap_is_Some.
Qed.

Lemma joinStrings_joined (items : list value) (l : list string) :
  stringsOf items = Some l → joinStrings items = joined l.
Proof.
  unfold joinStrings.
  enough (∀ start,
    stringsOf items = Some l →
    foldl (λ text item, match item with VStr s => text +:+ s | _ => text end)
      start items = start +:+ joined l) as H by apply H.
  revert l. induction items as [|item items IH]; intros l start; simpl.
  - intros [= <-]. by rewrite string_app_empty_r.
  - destruct item; simpl; try done.
    destruct (stringsOf items) as [l'|] eqn:Hl; simpl; [|done].
    intros [= <-]. rewrite (IH l' _ eq_refl). simpl.
    by rewrite string_app_assoc.
Qed.

Lemma isThinkingPart_thinkingText (part : Part) :
  isThinkingPart part = bool_decide (is_Some (thinkingText part)).
Proof.
  destruct part as [| | | |[| | | | | |fields]]; try done. simpl.
  destruct (fields !! "value") as [[| | | |s|items|]|]; try done.
  rewrite stringsOf_forallb. apply bool_decide_ext. by rewrite fmap_is_Some.
Qed.

Lemma blank_text (text : string) :
  negb (nonEmpty text) || (String.length (trim text) =? 0)%nat
  = bool_decide (whitespaceOnly text).
Proof.
  unfold whitespaceOnly. destruct text as [|c text]; [done|]. simpl negb.
  rewrite orb_false_l. apply eq_true_iff_eq.
  rewrite Nat.eqb_eq, length_zero_iff, trim_empty, bool_decide_eq_true. done.
Qed.

Lemma thinkingText_source (fields : gmap string value) (text : string) :
  thinkingText (OtherPart (VObj fields)) = Some text →
  match fields !! "value" with
  | Some (VStr s) => s
  | Some (VArr items) => joinStrings items
  | _ => ""
  end = text.
Proof.
  simpl. destruct (fields !! "value") as [[| | | |s|items|]|]; try done.
  - by intros [= ->].
  - destruct (stringsOf items) as [l|] eqn:Hl; [|done].
    intros [= <-]. by apply joinStrings_joined.
Qed.

Lemma toReasoningDetail_None (part : Part) (position : nat) :
  reasoningText part = None → toReasoningDetail part position = None.
Proof.
  unfold toReasoningDetail, reasoningText.
  rewrite isThinkingPart_thinkingText.
  destruct (thinkingText part) as [text|] eqn:Htext; [|done]. simpl.
  destruct part as [| | | |[| | | | | |fields]]; try done.
  rewrite (thinkingText_source _ _ Htext), blank_text.
  case_decide; [|done]. by rewrite bool_decide_eq_true_2.
Qed.

Lemma toReasoningDetail_Some (part : Part) (position : nat) (text : string) :
  reasoningText part = Some text →
  ∃ detail, toReasoningDetail part position = Some detail
            ∧ detailFor part text position detail.
Proof.
  unfold toReasoningDetail, reasoningText.
  rewrite isThinkingPart_thinkingText.
  destruct (thinkingText part) as [text'|] eqn:Htext; [|done]. simpl.
  case_decide as Hblank; [done|]. intros [= ->].
  destruct part as [| | | |[| | | | | |fields]]; try done.
  rewrite (thinkingText_source _ _ Htext), blank_text.
  rewrite bool_decide_eq_false_2 by done.
  eexists. split; [reflexivity|].
  unfold detailFor, metadataOf. simpl.
  destruct (readNonEmptyString (default VUndefined (fields !! "id")));
    destruct (readNonEmptyString (default VUndefined (fields !! "format")));
    destruct (fields !! "metadata") as [[| | | | | |metadata]|];
    cbn [default from_option id];
    (split; [try (apply lookup_union_None_2; [apply lookup_delete_eq|]);
             by simplify_map_eq|]);
    (split; [intros k v Hne Hk; try done;
             by apply lookup_union_Some_l; rewrite lookup_delete_ne|]);
    repeat split; intros Hm;
    try (rewrite lookup_union_r by by rewrite lookup_delete_ne);
    by simplify_map_eq.
Qed.

Section Rendering.
Variable JSON_stringify_input : value → string.

#[local] Abbreviation step :=
  (λ '(toolCalls, reasoningDetails) part,
     match part with
     | LanguageModelToolCallPart callId name input =>
         (toolCalls ++
            [{| tc_id := callId; tc_name := name;
                tc_arguments :=
                  JSON_stringify_input
                    match input with
                    | VUndefined | VNull => VObj ∅
                    | _ => input
                    end |}],
          reasoningDetails)
     | _ =>
         match toReasoningDetail part (length reasoningDetails) with
         | Some detail => (toolCalls, reasoningDetails ++ [detail])
         | None => (toolCalls, reasoningDetails)
         end
     end).

(** The loop of [toMiniMaxAssistantMessage], from any accumulators. *)
Lemma assistant_fold (parts : list Part) :
  ∀ (toolCalls : list MiniMaxToolCall) (details : list (gmap string value)),
  ∃ added,
    foldl step (toolCalls, details) parts
    = (toolCalls ++ wireToolCalls JSON_stringify_input parts, details ++ added)
    ∧ length added = length (reasoningParts parts)
    ∧ ∀ i detail, added !! i = Some detail →
        ∃ part text,
          reasoningParts parts !! i = Some part
          ∧ reasoningText part = Some text
          ∧ detailFor part text (length details + i) detail.
Proof.
  induction parts as [|part parts IH]; intros toolCalls details.
  { exists []. by rewrite !app_nil_r. }
  cbn [foldl]. unfold reasoningParts.
  destruct (reasoningText part) as [text|] eqn:Htext.
  - rewrite filter_cons_True by by eexists.
    destruct (toReasoningDetail_Some part (length details) text Htext)
      as (detail & Hdetail & Hfor).
    assert (step (toolCalls, details) part = (toolCalls, details ++ [detail]))
      as ->.
    { destruct part; try done; by rewrite Hdetail. }
    destruct (IH toolCalls (details ++ [detail])) as (added & -> & Hlen & Hadded).
    exists (detail :: added). split; [|split].
    + rewrite <- app_assoc. by destruct part.
    + simpl. by rewrite Hlen.
    + intros [|i] d Hd.
      * injection Hd as <-. exists part, text.
        by rewrite Nat.add_0_r.
      * destruct (Hadded i d Hd) as (part' & text' & ? & ? & Hfor').
        exists part', text'. rewrite length_app in Hfor'. simpl in Hfor'.
        by replace (length details + S i)%nat
          with (length details + 1 + i)%nat by lia.
  - rewrite filter_cons_False by (rewrite Htext; by intros [? ?]).
    destruct part as [value|callId name input|callId content|data mime|v].
    2: { destruct (IH (toolCalls ++
                         [{| tc_id := callId; tc_name := name;
                             tc_arguments :=
                               JSON_stringify_input
                                 match input with
                                 | VUndefined | VNull => VObj ∅
                                 | _ => input
                                 end |}]) details)
           as (added & -> & Hlen & Hadded).
         exists added. by rewrite <- app_assoc. }
    all: cbn beta iota;
      rewrite (toReasoningDetail_None _ (length details) Htext);
      destruct (IH toolCalls details) as (added & -> & Hlen & Hadded);
      by exists added.
Qed.

Lemma toMiniMaxAssistantMessage_eq (parts : list Part) :
  ∃ details,
    toMiniMaxAssistantMessage JSON_stringify_input parts
    = AssistantMessage (joined (textParts parts))
        (unlessEmpty (wireToolCalls JSON_stringify_input parts))
        (unlessEmpty details)
    ∧ length details = length (reasoningParts parts)
    ∧ ∀ i detail, details !! i = Some detail →
        ∃ part text,
          reasoningParts parts !! i = Some part
          ∧ reasoningText part = Some text
          ∧ detailFor part text i detail.
Proof.
  destruct (assistant_fold parts [] []) as (details & Hfold & Hlen & Hall).
  exists details. split; [|done].
  unfold toMiniMaxAssistantMessage. rewrite Hfold, !app_nil_l.
  rewrite concatTextParts_joined.
  by destruct (wireToolCalls JSON_stringify_input parts), details.
Qed.

(** X9.  The wire message of an assistant turn carries the text parts of
    the turn, concatenated in order, and one tool call for each tool-call
    part, in order, with the call id and the name of the part and its
    input serialized, an absent input as the empty object.  The field
    [tool_calls] is absent when the turn has no tool-call part; it is
    never an empty list. *)
Theorem assistant_turn_tool_calls (parts : list Part) :
  ∃ reasoning_details,
    toMiniMaxAssistantMessage JSON_stringify_input parts
    = AssistantMessage (joined (textParts parts))
        (unlessEmpty (wireToolCalls JSON_stringify_input parts))
        reasoning_details.
Proof.
  destruct (toMiniMaxAssistantMessage_eq parts) as (details & -> & _).
  by eexists.
Qed.

(** X10.  The field [reasoning_details] of the wire message of an
    assistant turn has one entry for each thinking part of the turn
    whose text is more than white space, in order; it is absent when
    there is none, and never an empty list.  The entry of a part has the
    keys of the metadata of the part, as they are there, except
    [__proto__], which is never a key of the entry; unless the metadata
    has these keys, its [type] is ["reasoning.text"], its [text] is the
    text of the part, and its [index] is its position in the list. *)
Theorem assistant_turn_reasoning_details (parts : list Part) :
  ∃ tool_calls details,
    toMiniMaxAssistantMessage JSON_stringify_input parts
    = AssistantMessage (joined (textParts parts)) tool_calls
        (unlessEmpty details)
    ∧ length details = length (reasoningParts parts)
    ∧ ∀ i detail, details !! i = Some detail →
        ∃ part text,
          reasoningParts parts !! i = Some part
          ∧ reasoningText part = Some text
          ∧ detailFor part text i detail.
Proof.
  destruct (toMiniMaxAssistantMessage_eq parts) as (details & -> & ? & ?).
  by eexists _, details.
Qed.

End Rendering.

Lemma assistant_turn_reasoning_details_witness :
  ∃ tool_calls detail,
    toMiniMaxAssistantMessage (λ _, "{}")
      [ LanguageModelTextPart "Done.";
        OtherPart (VObj {[ "value" := VStr " " ]});
        OtherPart (VObj {[ "value" := VArr [VStr "I "; VStr "plan"];
                           "metadata" :=
                             VObj {[ "type" := VStr "summary";
                                     "__proto__" := VObj ∅ ]} ]}) ]
    = AssistantMessage "Done." tool_calls (Some [detail])
    ∧ detail !! "type" = Some (VStr "summary")
    ∧ detail !! "__proto__" = None
    ∧ detail !! "index" = Some (VNum (Int 0))
    ∧ detail !! "text" = Some (VStr "I plan").
Proof.
  destruct (assistant_turn_reasoning_details (λ _, "{}")
              [ LanguageModelTextPart "Done.";
                OtherPart (VObj {[ "value" := VStr " " ]});
                OtherPart
                  (VObj {[ "value" := VArr [VStr "I "; VStr "plan"];
                           "metadata" :=
                             VObj {[ "type" := VStr "summary";
                                     "__proto__" := VObj ∅ ]} ]}) ])
    as (tool_calls & details & Heq & Hlen & Hall).
  destruct details as [|detail [|? ?]]; [done| |done].
  exists tool_calls, detail. split; [exact Heq|].
  destruct (Hall O detail eq_refl) as (part & text & Hpart & Htext & Hfor).
  vm_compute in Hpart. injection Hpart as <-.
  vm_compute in Htext. injection Htext as <-.
  destruct Hfor as (Hproto & Hmeta & _ & Hindex & Htext).
  split; [by apply Hmeta|]. split; [exact Hproto|].
  split; [by apply Hindex|by apply Htext].
Defined.

End AssistantTurnFacts.

(* ================================================================== *)
(** * Properties: the streaming loop *)
(* ================================================================== *)

Module StreamFacts.
Import JsString Wire MiniMaxClient MiniMaxProvider Spec.
Import JsStringFacts ReconstructorFacts.

Lemma reportedTexts_app (l k : list ResponsePart) :
  reportedTexts (l ++ k) = reportedTexts l ++ reportedTexts k.
Proof. apply omap_app. Qed.

Lemma joined_snoc (l : list string) (s : string) :
  joined (l ++ [s]) = joined l +:+ s.
Proof.
  induction l as [|t l IH]; simpl.
  - apply string_app_empty_r.
  - by rewrite IH, string_app_assoc.
Qed.

Lemma reasoningDelta_cases (buffer latest : string) :
  latest = buffer +:+ reasoningDelta buffer latest
  ∨ reasoningDelta buffer latest = latest.
Proof.
  unfold reasoningDelta. destruct (startsWith latest buffer) eqn:H; [|by right].
  apply startsWith_true in H as [suffix ->]. left. by rewrite slice_app.
Qed.

Lemma default_last_cons (b t : string) (l : list string) :
  default b (last (t :: l)) = default t (last l).
Proof.
  revert b t. induction l as [|u l IH]; intros b t; [done|].
  rewrite last_cons_cons. by rewrite (IH b u), (IH t u).
Qed.

Section Stream.
Variable JSON_parse : string → option value.

#[local] Abbreviation invocation := (Spec.invocation JSON_parse).

(** What one choice adds to the reported parts. *)
Lemma processChoice_reported (ctor : bool) (st : StreamState) (choice : Choice) :
  ∃ thinking,
    reported (processChoice JSON_parse ctor st choice)
    = reported st ++ thinking
        ++ (if Js.truthy (contentOf choice)
            then [ReportText (contentOf choice)] else [])
        ++ (if negb (toolCallsEmitted st) && isToolCallFinish choice
            then invocation
                   <$> emittedCalls
                         (accumulateToolCalls choice (pendingToolCalls st))
            else [])
    ∧ Forall isThinking thinking.
Proof.
  assert (∃ thinking,
            reported (stepReasoning ctor choice st) = reported st ++ thinking
            ∧ Forall isThinking thinking) as (thinking & Hr & Hthinking).
  { destruct ctor; [|exists []; by rewrite app_nil_r].
    rewrite stepReasoning_eq.
    destruct (getLatestReasoningUpdate choice) as [latest|];
      [|exists []; by rewrite app_nil_r].
    cbv zeta. case_decide; [exists []; by rewrite app_nil_r|].
    eexists. split; [reflexivity|]. by apply Forall_singleton. }
  exists thinking. split; [|done].
  destruct (stepReasoning_toolCalls ctor choice st) as (Hp & He & _).
  destruct (stepContent_eq choice (stepReasoning ctor choice st))
    as (_ & Hp' & He' & _).
  unfold processChoice. rewrite stepToolCalls_eq.
  cbn [reported]. rewrite Hp', He', Hp, He.
  rewrite !app_assoc. f_equal.
  unfold stepContent, contentOf.
  destruct (Js.truthy _); [|by rewrite Hr, app_nil_r].
  unfold report. cbn [reported]. by rewrite Hr.
Qed.

Lemma reportedTexts_thinking (thinking : list ResponsePart) :
  Forall isThinking thinking → reportedTexts thinking = [].
Proof.
  induction 1 as [|part thinking Hpart _ IH]; [done|].
  by destruct part.
Qed.

Lemma reportedTexts_invocations (calls : list AccumulatedToolCall) :
  reportedTexts (invocation <$> calls) = [].
Proof. by induction calls. Qed.

Lemma processChoices_texts (ctor : bool) (cs : list Choice) (st : StreamState) :
  reportedTexts (reported (processChoices JSON_parse ctor st cs))
  = reportedTexts (reported st)
      ++ filter (λ content, Js.truthy content) (contentOf <$> cs).
Proof.
  revert st. induction cs as [|choice cs IH]; intros st.
  { by rewrite app_nil_r. }
  unfold processChoices in *. cbn [foldl]. rewrite IH.
  destruct (processChoice_reported ctor st choice) as (thinking & -> & Hth).
  rewrite !reportedTexts_app, (reportedTexts_thinking _ Hth), app_nil_l.
  rewrite fmap_cons, <- !app_assoc. f_equal.
  assert (reportedTexts
            (if negb (toolCallsEmitted st) && isToolCallFinish choice
             then invocation
                    <$> emittedCalls
                          (accumulateToolCalls choice (pendingToolCalls st))
             else []) = []) as ->
    by (destruct (negb _ && _); [apply reportedTexts_invocations|done]).
  rewrite app_nil_l.
  destruct (Js.truthy (contentOf choice)) eqn:Ht.
  - by rewrite filter_cons_True by by apply Is_true_true.
  - by rewrite filter_cons_False by by apply Is_true_false.
Qed.

Lemma processChoices_prefix (ctor : bool) (cs : list Choice) (st : StreamState) :
  reported st `prefix_of` reported (processChoices JSON_parse ctor st cs).
Proof.
  revert st. induction cs as [|choice cs IH]; intros st; [done|].
  unfold processChoices in *. cbn [foldl].
  etrans; [|apply IH].
  destruct (processChoice_reported ctor st choice) as (thinking & -> & _).
  by eexists.
Qed.

Lemma processChoices_app (ctor : bool) (cs more : list Choice) (st : StreamState) :
  processChoices JSON_parse ctor st (cs ++ more)
  = processChoices JSON_parse ctor (processChoices JSON_parse ctor st cs) more.
Proof. apply foldl_app. Qed.

Lemma processed_app (stream more : list (bool * ChatCompletionChunk)) :
  processed (stream ++ more)
  = processed stream
      ++ (if existsb fst stream then [] else processed more).
Proof.
  induction stream as [|[cancelled chunk] stream IH]; [done|].
  destruct cancelled; [done|]. simpl. by rewrite IH, app_assoc.
Qed.

(** X11.  The text of the answer passes through unchanged and in order:
    the text parts reported for a stream are exactly the truthy
    [content] fields of the deltas of the choices processed, whether or
    not the host supports thinking parts. *)
Theorem content_passes_through (ctor : bool)
    (stream : list (bool * ChatCompletionChunk)) :
  reportedTexts (reported (consume JSON_parse ctor initialState stream))
  = filter (λ content, Js.truthy content) (contentOf <$> processed stream).
Proof. by rewrite consume_processed, processChoices_texts. Qed.

(** X12.  The response is append-only, and cancellation ends it: what a
    longer stream reports extends what its beginning reports, and once
    a chunk has arrived after cancellation was requested, nothing that
    follows changes the state or reports anything. *)
Theorem cancellation_ends_response (ctor : bool) (st : StreamState)
    (stream more : list (bool * ChatCompletionChunk)) :
  reported st `prefix_of` reported (consume JSON_parse ctor st stream)
  ∧ reported (consume JSON_parse ctor st stream)
      `prefix_of` reported (consume JSON_parse ctor st (stream ++ more))
  ∧ (Exists (λ arrival, arrival.1 = true) stream →
     consume JSON_parse ctor st (stream ++ more)
     = consume JSON_parse ctor st stream).
Proof.
  rewrite !consume_processed, processed_app. split; [|split].
  - apply processChoices_prefix.
  - rewrite processChoices_app. apply processChoices_prefix.
  - intros Hcancelled.
    assert (existsb fst stream = true) as ->.
    { apply existsb_exists. apply Exists_exists in Hcancelled.
      destruct Hcancelled as (arrival & Hin & Hfst).
      exists arrival. split; [by apply list_elem_of_In|done]. }
    by rewrite app_nil_r.
Qed.

(** One choice, as far as reasoning goes, on a host with thinking
    parts. *)
Lemma processChoice_reasoning_cases (st : StreamState) (choice : Choice) :
  let st' := processChoice JSON_parse true st choice in
  match latestText choice with
  | Some latest =>
      let delta := reasoningDelta (reasoningBuffer st) latest in
      if decide (delta = "")
      then reasoningBuffer st' = reasoningBuffer st
           ∧ thinkingTexts (reported st') = thinkingTexts (reported st)
      else reasoningBuffer st' = latest
           ∧ thinkingTexts (reported st')
             = thinkingTexts (reported st) ++ [delta]
  | None =>
      reasoningBuffer st' = reasoningBuffer st
      ∧ thinkingTexts (reported st') = thinkingTexts (reported st)
  end.
Proof.
  cbv zeta.
  destruct (processChoice_reasoning JSON_parse true st choice) as [-> ->].
  rewrite stepReasoning_eq, <- latestText_eq.
  destruct (getLatestReasoningUpdate choice) as [latest|]; [|done].
  cbn [fmap option_fmap option_map]. cbv zeta. case_decide; [done|].
  cbn [reasoningBuffer reported]. by rewrite thinkingTexts_app.
Qed.

Lemma reasoning_invariant (cs : list Choice) (st : StreamState) :
  Forall (λ delta, delta ≠ "") (thinkingTexts (reported st)) →
  (∃ prefix, joined (thinkingTexts (reported st))
             = prefix +:+ reasoningBuffer st) →
  let st' := processChoices JSON_parse true st cs in
  Forall (λ delta, delta ≠ "") (thinkingTexts (reported st'))
  ∧ ∃ prefix, joined (thinkingTexts (reported st'))
              = prefix +:+ reasoningBuffer st'.
Proof.
  revert st. induction cs as [|choice cs IH]; intros st Hne Hinv; [done|].
  unfold processChoices in *. cbn [foldl]. apply IH.
  - pose proof (processChoice_reasoning_cases st choice) as H. cbv zeta in H.
    destruct (latestText choice) as [latest|]; [|by destruct H as [_ ->]].
    case_decide as Hd; [by destruct H as [_ ->]|].
    destruct H as [_ ->]. apply Forall_app. split; [done|].
    by apply Forall_singleton.
  - pose proof (processChoice_reasoning_cases st choice) as H. cbv zeta in H.
    destruct Hinv as [prefix Hinv].
    destruct (latestText choice) as [latest|];
      [|destruct H as [-> ->]; by exists prefix].
    case_decide as Hd; [destruct H as [-> ->]; by exists prefix|].
    destruct H as [-> ->]. rewrite joined_snoc, Hinv.
    destruct (reasoningDelta_cases (reasoningBuffer st) latest) as [Hl|Hl].
    + exists prefix. by rewrite string_app_assoc, <- Hl.
    + exists (prefix +:+ reasoningBuffer st). by rewrite Hl.
Qed.

Lemma reasoning_cumulative (cs : list Choice) (st : StreamState) :
  joined (thinkingTexts (reported st)) = reasoningBuffer st →
  cumulative (reasoningBuffer st) cs →
  let st' := processChoices JSON_parse true st cs in
  joined (thinkingTexts (reported st')) = reasoningBuffer st'
  ∧ reasoningBuffer st'
    = default (reasoningBuffer st) (last (omap latestText cs)).
Proof.
  revert st. induction cs as [|choice cs IH]; intros st Hinv Hcum; [done|].
  unfold processChoices in *. cbn [foldl].
  pose proof (processChoice_reasoning_cases st choice) as H. cbv zeta in H.
  cbn [cumulative omap list_omap] in *.
  destruct (latestText choice) as [latest|].
  - destruct Hcum as [[suffix ->] Hcum].
    rewrite reasoningDelta_prefix in H. rewrite default_last_cons.
    case_decide as Hd.
    + subst suffix. rewrite string_app_empty_r in Hcum |- *.
      destruct H as [Hb Ht].
      destruct (IH (processChoice JSON_parse true st choice)) as [-> ->];
        [by rewrite Hb, Ht|by rewrite Hb|by rewrite Hb].
    + destruct H as [Hb Ht].
      destruct (IH (processChoice JSON_parse true st choice)) as [-> ->];
        [by rewrite Hb, Ht, joined_snoc, Hinv|by rewrite Hb|by rewrite Hb].
  - destruct H as [Hb Ht].
    destruct (IH (processChoice JSON_parse true st choice)) as [-> ->];
      [by rewrite Hb, Ht|by rewrite Hb|by rewrite Hb].
Qed.

(** X13.  On a host with thinking parts, no empty thinking delta is ever
    reported, and the deltas reported so far, concatenated, always end
    with the reasoning text last taken over.  When the reasoning texts of
    the stream are cumulative, each one extending the one before it, the
    deltas concatenated are exactly the last reasoning text received:
    nothing is reported twice and nothing is lost. *)
Theorem reasoning_deltas_rebuild (cs : list Choice) :
  let st := processChoices JSON_parse true initialState cs in
  let deltas := thinkingTexts (reported st) in
  Forall (λ delta, delta ≠ "") deltas
  ∧ (∃ prefix, joined deltas = prefix +:+ reasoningBuffer st)
  ∧ (cumulative "" cs →
     joined deltas = default "" (last (omap latestText cs))).
Proof.
  cbv zeta.
  destruct (reasoning_invariant cs initialState) as [Hne Hinv];
    [done|by exists ""|].
  split; [done|]. split; [done|]. intros Hcum.
  destruct (reasoning_cumulative cs initialState) as [-> ->]; done.
Qed.

End Stream.

Lemma cancellation_ends_response_witness :
  consume JsonFragment.parse true initialState
    ([(false, {| choices := [finishChoice "stop"] |});
      (true, {| choices := [finishChoice "tool_calls"] |})] ++ sampleStream)
  = consume JsonFragment.parse true initialState
      [(false, {| choices := [finishChoice "stop"] |});
       (true, {| choices := [finishChoice "tool_calls"] |})].
Proof.
  apply (cancellation_ends_response JsonFragment.parse true initialState
           [(false, {| choices := [finishChoice "stop"] |});
            (true, {| choices := [finishChoice "tool_calls"] |})]
           sampleStream).
  apply Exists_cons_tl, Exists_cons_hd. reflexivity.
Defined.

Lemma reasoning_deltas_rebuild_witness :
  joined (thinkingTexts
            (reported (processChoices JsonFragment.parse true initialState
                         (take 3 reasoningSample))))
  = "Let me think".
Proof.
  apply (reasoning_deltas_rebuild JsonFragment.parse (take 3 reasoningSample)).
  simpl. split; [by exists "Let"|]. split; [by exists " me think"|].
  split; [by exists ""|done].
Defined.

End StreamFacts.

(* ================================================================== *)
(** * Properties: tool-call accumulators *)
(* ================================================================== *)

Module AccumulatorFacts.
Import JsString Wire MiniMaxClient MiniMaxProvider Spec.
Import JsStringFacts ReconstructorFacts StreamFacts.

Lemma grown_refl (call : AccumulatedToolCall) : grown call call.
Proof.
  split; [done|]. split; [exists ""; by rewrite string_app_empty_r|done].
Qed.

Lemma grown_trans (a b c : AccumulatedToolCall) :
  grown a b → grown b c → grown a c.
Proof.
  intros (Hi & [s Hs] & Hid & Hn) (Hi' & [s' Hs'] & Hid' & Hn').
  split; [congruence|]. split; [|split; auto].
  exists (s +:+ s'). by rewrite Hs', Hs, string_app_assoc.
Qed.

Lemma known_overwrite (old : option string) (new : string) :
  known old → known (overwrite old new).
Proof.
  unfold overwrite. case_decide; [done|]. intros _. by exists new.
Qed.

Lemma accumulateToolCall_grows (pending : gmap Z AccumulatedToolCall)
    (rawCall : value) (k : Z) (old : AccumulatedToolCall) :
  pending !! k = Some old →
  ∃ new, accumulateToolCall pending rawCall !! k = Some new ∧ grown old new.
Proof.
  intros Hold. destruct (Js.isObjectLike rawCall) eqn:Hobj.
  - rewrite accumulateToolCall_merge by done. cbv zeta.
    destruct (decide (targetOf pending rawCall = k)) as [Hk|Hk].
    + rewrite Hk, lookup_insert_eq. eexists. split; [reflexivity|].
      unfold accumulatorAt. rewrite Hold. simpl.
      split; [done|]. split; [by eexists|].
      split; apply known_overwrite.
    + rewrite lookup_insert_ne by done. exists old. split; [done|].
      apply grown_refl.
  - rewrite accumulateToolCall_skip by done. exists old. split; [done|].
    apply grown_refl.
Qed.

Lemma accumulateToolCalls_grows (choice : Choice)
    (pending : gmap Z AccumulatedToolCall) (k : Z) (old : AccumulatedToolCall) :
  pending !! k = Some old →
  ∃ new, accumulateToolCalls choice pending !! k = Some new ∧ grown old new.
Proof.
  unfold accumulateToolCalls.
  destruct (Js.get (delta choice) "tool_calls") as [| | | | |calls|];
    try (intros; exists old; split; [done|apply grown_refl]).
  revert pending old.
  induction calls as [|rawCall calls IH]; intros pending old Hold; simpl.
  - exists old. split; [done|apply grown_refl].
  - destruct (accumulateToolCall_grows pending rawCall k old Hold)
      as (mid & Hmid & Hg).
    destruct (IH _ _ Hmid) as (new & Hnew & Hg').
    exists new. split; [done|]. by eapply grown_trans.
Qed.

Lemma pendingAfter_grows (cs : list Choice)
    (pending : gmap Z AccumulatedToolCall) (k : Z) (old : AccumulatedToolCall) :
  pending !! k = Some old →
  ∃ new, pendingAfter pending cs !! k = Some new ∧ grown old new.
Proof.
  revert pending old.
  induction cs as [|choice cs IH]; intros pending old Hold; simpl.
  - exists old. split; [done|apply grown_refl].
  - destruct (accumulateToolCalls_grows choice pending k old Hold)
      as (mid & Hmid & Hg).
    destruct (IH _ _ Hmid) as (new & Hnew & Hg').
    exists new. split; [done|]. by eapply grown_trans.
Qed.

Section Stream.
Variable JSON_parse : string → option value.

Lemma processChoices_pending (ctor : bool) (cs : list Choice)
    (st : StreamState) :
  pendingToolCalls (processChoices JSON_parse ctor st cs)
  = pendingAfter (pendingToolCalls st) cs.
Proof.
  revert st. induction cs as [|choice cs IH]; intros st; [done|].
  unfold processChoices in *. cbn [foldl]. rewrite IH. simpl.
  by destruct (processChoice_toolCalls JSON_parse ctor st choice) as (-> & _).
Qed.

(** X14.  The accumulators of a response only grow.  An accumulator
    that exists after some choices exists after any choices that
    follow, under the same index; its argument text is extended, never
    cut or replaced; and an id and a name that were received stay
    received.  So a call that has both an id and a name keeps them. *)
Theorem accumulators_only_grow (ctor : bool) (before after : list Choice)
    (k : Z) (old : AccumulatedToolCall) :
  pendingToolCalls (processChoices JSON_parse ctor initialState before) !! k
  = Some old →
  ∃ new,
    pendingToolCalls
      (processChoices JSON_parse ctor initialState (before ++ after)) !! k
    = Some new
    ∧ grown old new
    ∧ (hasIdAndName old → hasIdAndName new).
Proof.
  rewrite processChoices_app, !processChoices_pending. intros Hold.
  destruct (pendingAfter_grows after _ k old Hold) as (new & Hnew & Hg).
  exists new. split; [done|]. split; [done|].
  destruct Hg as (_ & _ & Hid & Hname).
  intros (id & name & Hi & Hine & Hn & Hnne).
  destruct Hid as (id' & ? & ?); [by exists id|].
  destruct Hname as (name' & ? & ?); [by exists name|].
  by exists id', name'.
Qed.

End Stream.

Lemma accumulators_only_grow_witness :
  ∃ new,
    pendingToolCalls
      (processChoices JsonFragment.parse true initialState
         (take 3 (processed sampleStream) ++ drop 3 (processed sampleStream)))
      !! 0 = Some new
    ∧ grown {| index := 0; call_id := Some "c1"; call_name := Some "run";
               arguments := argumentsHead |} new.
Proof.
  pose proof (accumulators_only_grow JsonFragment.parse true
              (take 3 (processed sampleStream))
              (drop 3 (processed sampleStream)) 0
              {| index := 0; call_id := Some "c1"; call_name := Some "run";
                 arguments := argumentsHead |}) as H.
  assert (pendingToolCalls
            (processChoices JsonFragment.parse true initialState
               (take 3 (processed sampleStream))) !! 0
          = Some {| index := 0; call_id := Some "c1"; call_name := Some "run";
                    arguments := argumentsHead |}) as H1
    by (vm_compute; reflexivity).
  destruct (H H1) as (new & Hnew & Hg & _).
  exists new. split; [exact Hnew|exact Hg].
Defined.

End AccumulatorFacts.

(* ================================================================== *)
(** * Properties: fragments without an index *)
(* ================================================================== *)

Module UnindexedFacts.
Import JsString Wire MiniMaxClient MiniMaxProvider Spec.
Import JsStringFacts ReconstructorFacts StreamFacts AccumulatorFacts.

Lemma pendingAfter_fragments (cs : list Choice)
    (pending : gmap Z AccumulatedToolCall) :
  pendingAfter pending cs = foldl accumulateToolCall pending (fragmentsOf cs).
Proof.
  revert pending. induction cs as [|choice cs IH]; intros pending; [done|].
  unfold fragmentsOf in *. cbn [pendingAfter foldl mbind list_bind].
  unfold pendingAfter in IH. rewrite IH, foldl_app. f_equal.
  unfold accumulateToolCalls.
  by destruct (Js.get (delta choice) "tool_calls").
Qed.

Lemma unindexed_fold (fragments : list value) :
  ∀ (pending : gmap Z AccumulatedToolCall) (n : nat),
  size pending = n →
  (∀ k, is_Some (pending !! k) → 0 ≤ k < Z.of_nat n) →
  Forall unindexed fragments →
  let pending' := foldl accumulateToolCall pending fragments in
  size pending' = (n + length fragments)%nat
  ∧ (∀ k call, pending !! k = Some call → pending' !! k = Some call)
  ∧ ∀ i fragment, fragments !! i = Some fragment →
      pending' !! Z.of_nat (n + i) = Some (opened (n + i) fragment).
Proof.
  induction fragments as [|f fs IH]; intros pending n Hsize Hdom Hall.
  { cbn [foldl length]. split; [lia|]. split; [done|]. intros i ? [=]. }
  apply Forall_cons in Hall as [[Hobj Hdecl] Hall]. cbn [foldl].
  assert (pending !! Z.of_nat n = None) as Hfree.
  { apply eq_None_not_Some. intros H. apply Hdom in H. lia. }
  assert (accumulateToolCall pending f
          = <[Z.of_nat n := opened n f]> pending) as ->.
  { rewrite accumulateToolCall_merge by done. cbv zeta.
    unfold targetOf. rewrite Hdecl, Hsize. cbn [default from_option id].
    unfold accumulatorAt. rewrite Hfree. done. }
  destruct (IH (<[Z.of_nat n := opened n f]> pending) (S n))
    as (Hsize' & Hkeep & Hnew); [| |done|].
  { by rewrite map_size_insert_None, Hsize. }
  { intros k. rewrite lookup_insert_is_Some. intros [<-|[_ H]]; [lia|].
    apply Hdom in H. lia. }
  cbv zeta. split; [cbn [length]; lia|]. split.
  - intros k call Hk. apply Hkeep. rewrite lookup_insert_ne; [done|].
    intros <-. by rewrite Hfree in Hk.
  - intros [|i] fragment Hi.
    + injection Hi as <-. rewrite Nat.add_0_r. apply Hkeep.
      by rewrite lookup_insert_eq.
    + replace (n + S i)%nat with (S n + i)%nat by lia. by apply Hnew.
Qed.

Section Stream.
Variable JSON_parse : string → option value.

(** X15.  Fragments without an index are never merged.  When no
    tool-call fragment of a response declares an index, every fragment
    opens an accumulator of its own, numbered by its position in the
    stream and holding what this fragment alone supplies: argument text
    that arrives in a later fragment is not appended to the call of an
    earlier one. *)
Theorem unindexed_fragments_never_merge (ctor : bool) (cs : list Choice) :
  Forall unindexed (fragmentsOf cs) →
  let pending :=
    pendingToolCalls (processChoices JSON_parse ctor initialState cs) in
  size pending = length (fragmentsOf cs)
  ∧ ∀ i fragment, fragmentsOf cs !! i = Some fragment →
      pending !! Z.of_nat i = Some (opened i fragment).
Proof.
  intros Hall. cbv zeta.
  rewrite processChoices_pending, pendingAfter_fragments.
  destruct (unindexed_fold (fragmentsOf cs) ∅ O) as (Hsize & _ & Hnew);
    [done|by intros k [? ?]|done|].
  split; [done|]. intros i fragment Hi. by apply (Hnew i).
Qed.

End Stream.

Lemma unindexed_fragments_never_merge_witness :
  pendingToolCalls
    (processChoices JsonFragment.parse true initialState
       [fragmentsChoice
          [VObj {[ "id" := VStr "c1";
                   "function" := VObj {[ "name" := VStr "run" ]} ]};
           VObj {[ "function" := VObj {[ "arguments" := VStr "{}" ]} ]}]
          VNull]) !! 1
  = Some {| index := 1; call_id := None; call_name := None;
            arguments := "{}" |}.
Proof.
  destruct (unindexed_fragments_never_merge JsonFragment.parse true
              [fragmentsChoice
                 [VObj {[ "id" := VStr "c1";
                          "function" := VObj {[ "name" := VStr "run" ]} ]};
                  VObj {[ "function" :=
                            VObj {[ "arguments" := VStr "{}" ]} ]}]
                 VNull]) as [_ H]; [by repeat constructor|].
  exact (H 1%nat
           (VObj {[ "function" := VObj {[ "arguments" := VStr "{}" ]} ]})
           eq_refl).
Defined.

End UnindexedFacts.

(* ================================================================== *)
(** * Properties: requests and forwarding *)
(* ================================================================== *)

Module DriverFacts.
Import JsString Wire MiniMaxClient Spec.
Import JsStringFacts TrimFacts TrimShapeFacts NormalizerFacts.

Section Client.
Variable String_ : value → string.

Lemma forward_eq (arrivals : list (bool * ChatCompletionChunk))
    (failure : option Thrown) :
  forward String_ arrivals failure
  = (beforeCancellation arrivals,
     if existsb fst arrivals then None
     else toMiniMaxError String_ <$> failure).
Proof.
  induction arrivals as [|[cancelled chunk] rest IH]; [done|].
  cbn [forward]. destruct cancelled; [done|]. by rewrite IH.
Qed.

Lemma beforeCancellation_prefix (arrivals : list (bool * ChatCompletionChunk)) :
  beforeCancellation arrivals `prefix_of` arrivals.*2.
Proof.
  induction arrivals as [|[cancelled chunk] rest IH]; [done|].
  destruct cancelled; [apply prefix_nil|]. by apply prefix_cons.
Qed.

Lemma beforeCancellation_all (arrivals : list (bool * ChatCompletionChunk)) :
  existsb fst arrivals = false → beforeCancellation arrivals = arrivals.*2.
Proof.
  induction arrivals as [|[cancelled chunk] rest IH]; [done|].
  destruct cancelled; [done|]. simpl. intros H. by rewrite IH.
Qed.

Lemma existsb_cancelled (arrivals : list (bool * ChatCompletionChunk)) :
  existsb fst arrivals = true ↔ Exists (λ arrival, arrival.1 = true) arrivals.
Proof.
  induction arrivals as [|[cancelled chunk] rest IH]; simpl.
  - split; [done|]. by intros ?%Exists_nil.
  - rewrite Exists_cons, orb_true_iff, IH. done.
Qed.

Lemma streamChat_run (transport : Transport)
    (model : option string)
    (messages : list MiniMaxMessage) (options : option ChatOptions)
    (params : CreateParams) :
  let run := streamChat String_ transport model messages options in
  requests run = [params] →
  (∃ key, options ≫= apiKey = Some key ∧ p_apiKey params = trim key
          ∧ trim key ≠ "")
  ∧ p_baseURL params = baseUrl
  ∧ p_model params = model
  ∧ p_stream params = true
  ∧ p_messages params = toOpenAiMessages messages
  ∧ p_tools params ≠ Some []
  ∧ match transport params with
    | inl error =>
        yielded run = [] ∧ thrown run = Some (toMiniMaxError String_ error)
    | inr upstream =>
        yielded run = beforeCancellation (arrivals upstream)
        ∧ thrown run
          = if existsb fst (arrivals upstream) then None
            else toMiniMaxError String_ <$> failure upstream
    end.
Proof.
  cbv zeta. unfold streamChat.
  destruct (options ≫= apiKey) as [key|]; [|done]. cbn [fmap option_fmap option_map].
  destruct (trim key) as [|c rest] eqn:Hkey; [done|].
  match goal with
  | |- context [transport ?p] => set (request := p)
  end.
  assert (p_tools request ≠ Some []) as Htools.
  { subst request. cbn [p_tools].
    by destruct (options ≫= tools) as [[|? ?]|]. }
  destruct (transport request) as [error|upstream] eqn:Hsend.
  - cbn [requests]. intros [= <-]. rewrite Hsend.
    split; [exists key; by rewrite Hkey|done].
  - rewrite forward_eq. cbn [requests]. intros [= <-]. rewrite Hsend.
    split; [exists key; by rewrite Hkey|done].
Qed.

Lemma streamChat_requests (transport : Transport)
    (model : option string)
    (messages : list MiniMaxMessage) (options : option ChatOptions) :
  (length (requests (streamChat String_ transport model messages options))
   ≤ 1)%nat.
Proof.
  unfold streamChat.
  destruct (trim <$> options ≫= apiKey) as [[|c rest]|];
    [simpl; lia| |simpl; lia].
  destruct (transport _); [simpl; lia|].
  destruct (forward _ _ _). simpl. lia.
Qed.

(** X16.  [streamChat] sends at most one request.  The request goes to
    the MiniMax endpoint as a streaming request for the model and the
    messages given, one wire message for each message; its key is the
    key of the options less the white space at its ends, and is not
    empty; and its list of tools is absent rather than empty. *)
Theorem streamChat_request_wellformed (transport : Transport)
    (model : option string)
    (messages : list MiniMaxMessage) (options : option ChatOptions) :
  let run := streamChat String_ transport model messages options in
  (length (requests run) ≤ 1)%nat
  ∧ ∀ params, requests run = [params] →
      usable (p_apiKey params)
      ∧ (∃ key, options ≫= apiKey = Some key ∧ padded key (p_apiKey params))
      ∧ p_baseURL params = "https://api.minimax.io/v1"
      ∧ p_stream params = true
      ∧ p_model params = model
      ∧ p_messages params = toOpenAiMessages messages
      ∧ length (p_messages params) = length messages
      ∧ p_tools params ≠ Some [].
Proof.
  cbv zeta. split; [apply streamChat_requests|]. intros params Hparams.
  destruct (streamChat_run transport model messages options params Hparams)
    as ((key & Hkey & Hp & Hne) & Hurl & Hmodel & Hstream & Hmsgs & Htools & _).
  rewrite Hp. split; [by apply trim_nonempty_usable|].
  split; [exists key; split; [done|apply trim_padded]|].
  split; [done|]. split; [done|]. split; [done|]. split; [done|].
  split; [|done]. rewrite Hmsgs. unfold toOpenAiMessages.
  by rewrite length_fmap.
Qed.

(** X17.  Cancellation is silent, and an error comes last.  When the
    request is accepted, the chunks that [streamChat] yields are a
    prefix of the chunks that arrive; if a chunk arrives after
    cancellation was requested, the generator ends without an error;
    and if it throws, then every chunk that arrived has been yielded
    before, and the error is a classified one. *)
Theorem streamChat_cancellation_silent (transport : Transport)
    (model : option string)
    (messages : list MiniMaxMessage) (options : option ChatOptions)
    (params : CreateParams) (upstream : Upstream) :
  let run := streamChat String_ transport model messages options in
  requests run = [params] → transport params = inr upstream →
  yielded run `prefix_of` (arrivals upstream).*2
  ∧ (Exists (λ arrival, arrival.1 = true) (arrivals upstream) →
     thrown run = None)
  ∧ (∀ error, thrown run = Some error →
       yielded run = (arrivals upstream).*2
       ∧ (∃ cause, failure upstream = Some cause
                   ∧ error = toMiniMaxError String_ cause)
       ∧ code error ∈ classifierCodes).
Proof.
  cbv zeta. intros Hparams Hsend.
  destruct (streamChat_run transport model messages options params Hparams)
    as (_ & _ & _ & _ & _ & _ & Hrun).
  rewrite Hsend in Hrun. destruct Hrun as [-> ->].
  split; [apply beforeCancellation_prefix|]. split.
  - intros Hc. apply existsb_cancelled in Hc. by rewrite Hc.
  - intros error.
    destruct (existsb fst (arrivals upstream)) eqn:Hc; [done|].
    destruct (failure upstream) as [cause|]; [|done].
    intros [= <-]. split; [by apply beforeCancellation_all|].
    split; [by exists cause|].
    destruct cause as [name msg status|name msg|v]; simpl;
      repeat case_bool_decide; unfold classifierCodes; set_solver.
Qed.

End Client.

Lemma streamChat_request_wellformed_witness :
  ∃ params,
    requests (streamChat (λ _, "") echoTransport (Some "MiniMax-M2.5")
                [UserMessage "Ping"]
                (Some {| temperature := None; maxTokens := None;
                         apiKey := Some " sk-1 "; tools := Some [];
                         toolChoice := None; reasoningSplit := None |}))
    = [params]
    ∧ p_apiKey params = "sk-1" ∧ usable (p_apiKey params)
    ∧ p_tools params = None.
Proof.
  eexists. split; [reflexivity|]. split; [reflexivity|].
  split; [|reflexivity].
  destruct (streamChat_request_wellformed (λ _, "") echoTransport
              (Some "MiniMax-M2.5") [UserMessage "Ping"]
              (Some {| temperature := None; maxTokens := None;
                       apiKey := Some " sk-1 "; tools := Some [];
                       toolChoice := None; reasoningSplit := None |}))
    as [_ H].
  destruct (H _ eq_refl) as (Husable & _). exact Husable.
Defined.

Lemma streamChat_cancellation_silent_witness :
  let transport : Transport :=
    λ _, inr {| arrivals := [(false, {| choices := [] |});
                             (true, {| choices := [] |})];
                failure := Some (OtherError "Error" "socket hang up") |} in
  let run :=
    streamChat (λ _, "") transport (Some "MiniMax-M2.5")
      [UserMessage "Ping"]
      (Some {| temperature := None; maxTokens := None;
               apiKey := Some "sk-1"; tools := None;
               toolChoice := None; reasoningSplit := None |}) in
  yielded run = [{| choices := [] |}] ∧ thrown run = None.
Proof.
  cbv zeta. split; [reflexivity|].
  eapply (streamChat_cancellation_silent (λ _, "")
            (λ _, inr {| arrivals := [(false, {| choices := [] |});
                                      (true, {| choices := [] |})];
                         failure := Some (OtherError "Error" "socket hang up") |})
            (Some "MiniMax-M2.5") [UserMessage "Ping"]
            (Some {| temperature := None; maxTokens := None;
                     apiKey := Some "sk-1"; tools := None;
                     toolChoice := None; reasoningSplit := None |})).
  - reflexivity.
  - reflexivity.
  - apply Exists_cons_tl, Exists_cons_hd. reflexivity.
Defined.

End DriverFacts.

(* ================================================================== *)
(** * Properties: the stored API key *)
(* ================================================================== *)

Module AuthenticationFacts.
Import JsString Vscode MiniMaxAuthentication Spec.
Import JsStringFacts TrimFacts TrimShapeFacts NormalizerFacts.

Lemma promptForApiKey_Some (input : option string) (host : Host) (key : string) :
  (promptForApiKey input host).1 = Some key ↔
  ∃ raw, input = Some raw ∧ raw ≠ "" ∧ key = trim raw.
Proof.
  unfold promptForApiKey. destruct input as [[|c raw]|]; simpl.
  - split; [done|]. by intros (? & [= <-] & ? & _).
  - split.
    + intros [= <-]. by eexists.
    + by intros (? & [= <-] & _ & ->).
  - split; [done|]. by intros (? & ? & _).
Qed.

Lemma promptForApiKey_stores (raw : string) (host : Host) :
  raw ≠ "" →
  promptForApiKey (Some raw) host
  = (Some (trim raw),
     notify (Information "MiniMax API key saved successfully")
       (store API_KEY_SECRET_KEY (trim raw) host)).
Proof. by destruct raw. Qed.

Lemma promptForApiKey_None (input : option string) (host : Host) :
  (promptForApiKey input host).1 = None →
  promptForApiKey input host = (None, host).
Proof. by destruct input as [[|c raw]|]. Qed.

Lemma validateInput_None (value : string) :
  validateInput value = None ↔ ¬ whitespaceOnly value.
Proof.
  unfold validateInput, whitespaceOnly. rewrite <- trim_empty.
  destruct value as [|c value]; [by split|]. simpl negb. rewrite orb_false_l.
  destruct (Nat.eqb_spec (String.length (trim (String c value))) 0) as [H|H];
    rewrite length_zero_iff in H; split; done.
Qed.

(** X18.  The stored API key round-trips.  After [deleteApiKey] no key
    is stored.  [promptForApiKey] returns a key exactly when the input
    box returns a non-empty text: for such a text it returns the text
    less the white space at its ends, this is the key stored
    afterwards, and the one notification that the key was saved is
    shown; when the box is dismissed or returns the empty text, it
    returns nothing and leaves the host as it was.  [getOrPromptApiKey]
    returns the stored key and does not prompt when there is one.  No
    operation touches another secret. *)
Theorem api_key_round_trip (input : option string) (host : Host) :
  getApiKey (deleteApiKey host) = None
  ∧ (∀ raw, input = Some raw → raw ≠ "" →
       (promptForApiKey input host).1 = Some (trim raw)
       ∧ getApiKey (promptForApiKey input host).2 = Some (trim raw)
       ∧ notifications (promptForApiKey input host).2
         = notifications host
             ++ [Information "MiniMax API key saved successfully"])
  ∧ (input = None ∨ input = Some "" →
     promptForApiKey input host = (None, host))
  ∧ (∀ key, (promptForApiKey input host).1 = Some key →
       getApiKey (promptForApiKey input host).2 = Some key
       ∧ (∃ raw, input = Some raw ∧ raw ≠ "" ∧ padded raw key)
       ∧ length (notifications (promptForApiKey input host).2)
         = S (length (notifications host)))
  ∧ ((promptForApiKey input host).1 = None →
     (promptForApiKey input host).2 = host)
  ∧ (∀ key, getApiKey host = Some key →
       getOrPromptApiKey input host = (Some key, host))
  ∧ (getApiKey host = None →
     getOrPromptApiKey input host = promptForApiKey input host)
  ∧ (∀ name, name ≠ API_KEY_SECRET_KEY →
       secrets (deleteApiKey host) !! name = secrets host !! name
       ∧ secrets (promptForApiKey input host).2 !! name = secrets host !! name
       ∧ secrets (getOrPromptApiKey input host).2 !! name
         = secrets host !! name).
Proof.
  split; [apply lookup_delete_eq|].
  split; [|split; [|split; [|split; [|split; [|split]]]]].
  - intros raw -> Hraw. rewrite promptForApiKey_stores by done. simpl.
    split; [done|]. split; [apply lookup_insert_eq|done].
  - by intros [-> | ->].
  - intros key Hkey. apply promptForApiKey_Some in Hkey.
    destruct Hkey as (raw & -> & Hraw & ->).
    rewrite promptForApiKey_stores by done. simpl.
    split; [apply lookup_insert_eq|]. split.
    + exists raw. split; [done|]. split; [done|apply trim_padded].
    + rewrite length_app. simpl. lia.
  - intros H. by rewrite promptForApiKey_None.
  - intros key Hkey. unfold getOrPromptApiKey. by rewrite Hkey.
  - intros Hkey. unfold getOrPromptApiKey. by rewrite Hkey.
  - intros name Hname.
    assert (secrets (promptForApiKey input host).2 !! name
            = secrets host !! name) as Hprompt.
    { destruct input as [[|c raw]|]; [done| |done]. simpl.
      by rewrite lookup_insert_ne. }
    split; [by apply lookup_delete_ne|]. split; [done|].
    unfold getOrPromptApiKey. by destruct (getApiKey host).
Qed.

(** X19.  The input box rejects exactly the texts that are empty or
    white space only; and a text that it accepts is stored as a usable
    key: not empty and without white space at either end. *)
Theorem validated_key_usable (raw : string) (host : Host) :
  (validateInput raw = None ↔ ¬ whitespaceOnly raw)
  ∧ (validateInput raw = None →
     ∃ key, (promptForApiKey (Some raw) host).1 = Some key
            ∧ getApiKey (promptForApiKey (Some raw) host).2 = Some key
            ∧ usable key).
Proof.
  split; [apply validateInput_None|]. intros Hvalid.
  apply validateInput_None in Hvalid.
  assert (trim raw ≠ "") as Htrim by by rewrite trim_empty.
  assert (raw ≠ "") as Hraw by by intros ->.
  exists (trim raw). rewrite promptForApiKey_stores by done. simpl.
  split; [done|]. split; [apply lookup_insert_eq|].
  by apply trim_nonempty_usable.
Qed.

Lemma api_key_round_trip_witness :
  let host := {| secrets := ∅; notifications := [] |} in
  (promptForApiKey (Some " sk-1 ") host).1 = Some "sk-1"
  ∧ getApiKey (promptForApiKey (Some " sk-1 ") host).2 = Some "sk-1"
  ∧ notifications (promptForApiKey (Some " sk-1 ") host).2
    = [Information "MiniMax API key saved successfully"]
  ∧ getOrPromptApiKey (Some "other")
      (promptForApiKey (Some " sk-1 ") host).2
    = (Some "sk-1", (promptForApiKey (Some " sk-1 ") host).2).
Proof.
  cbv zeta.
  destruct (api_key_round_trip (Some " sk-1 ")
              {| secrets := ∅; notifications := [] |})
    as (_ & Hprompt & _).
  destruct (Hprompt " sk-1 " eq_refl) as (Hkey & Hget & Hshown); [done|].
  split; [exact Hkey|]. split; [exact Hget|]. split; [exact Hshown|].
  destruct (api_key_round_trip (Some "other")
              (promptForApiKey (Some " sk-1 ")
                 {| secrets := ∅; notifications := [] |}).2)
    as (_ & _ & _ & _ & _ & Hstored & _).
  apply Hstored. exact Hget.
Defined.

Lemma validated_key_usable_witness :
  ∃ key,
    (promptForApiKey (Some " sk-1 ")
       {| secrets := ∅; notifications := [] |}).1 = Some key
    ∧ usable key.
Proof.
  destruct (validated_key_usable " sk-1 "
              {| secrets := ∅; notifications := [] |}) as [_ H].
  destruct (H eq_refl) as (key & Hkey & _ & Husable).
  by exists key.
Defined.

End AuthenticationFacts.

(* ================================================================== *)
(** * Properties: model catalogue *)
(* ================================================================== *)

Module CatalogueFacts.
Import JsString Wire MiniMaxClient MiniMaxProvider Spec.
Import JsStringFacts TrimFacts TrimShapeFacts NormalizerFacts
  ToolSchemaFacts.

Lemma MODEL_BY_ID_lookup (id : string) (model : ModelInfo) :
  MODEL_BY_ID !! id = Some model ↔
  model ∈ SUPPORTED_MODELS ∧ model_id model = id.
Proof.
  unfold MODEL_BY_ID, SUPPORTED_MODELS. cbn [foldl model_id].
  rewrite !lookup_insert_Some, lookup_empty, !elem_of_cons, elem_of_nil.
  split.
  - intros [[<- <-]|[? [[<- <-]|[? [[<- <-]|[? ?]]]]]]; try done; auto.
  - intros [[->|[->|[->|[]]]] <-]; cbn [model_id]; auto 10.
Qed.

Lemma getModelById_Own (id : string) (model : ModelInfo) :
  getModelById id = Own model ↔ model ∈ SUPPORTED_MODELS ∧ model_id model = id.
Proof.
  rewrite <- MODEL_BY_ID_lookup. unfold getModelById.
  destruct (MODEL_BY_ID !! id) as [found|].
  - split; by intros [= ->].
  - case_bool_decide; split; done.
Qed.

(** X20.  [getModelById] finds every supported model under its own id,
    and what it finds under an id is a supported model with that id.
    It finds nothing under any other id, except under the names that
    every object inherits, where the table yields a value that is no
    model. *)
Theorem getModelById_round_trip :
  (∀ model, model ∈ SUPPORTED_MODELS → getModelById (model_id model) = Own model)
  ∧ (∀ id model, getModelById id = Own model →
       model ∈ SUPPORTED_MODELS ∧ model_id model = id)
  ∧ (∀ id, getModelById id = Absent ↔
       ¬ (id ∈ model_id <$> SUPPORTED_MODELS) ∧ ¬ (id ∈ inheritedNames))
  ∧ (∀ id, getModelById id = Inherited ↔ id ∈ inheritedNames).
Proof.
  assert (∀ id, id ∈ model_id <$> SUPPORTED_MODELS ↔
                is_Some (MODEL_BY_ID !! id)) as Hsupported.
  { intros id. rewrite list_elem_of_fmap. split.
    - intros (model & -> & Hin). exists model. by apply MODEL_BY_ID_lookup.
    - intros [model Hm]. apply MODEL_BY_ID_lookup in Hm as [? <-].
      by exists model. }
  assert (∀ id, id ∈ inheritedNames → MODEL_BY_ID !! id = None) as Hinherited.
  { intros id Hin. apply eq_None_not_Some. rewrite <- Hsupported.
    intros Hs. revert Hin. unfold inheritedNames.
    unfold SUPPORTED_MODELS in Hs. cbn [fmap list_fmap model_id] in Hs.
    rewrite !elem_of_cons, elem_of_nil in Hs. rewrite !elem_of_cons, elem_of_nil.
    destruct Hs as [->|[->|[->|[]]]]; intros H; repeat destruct H as [H|H];
      done. }
  unfold getModelById. split; [|split; [|split]].
  - intros model Hmodel.
    by rewrite (proj2 (MODEL_BY_ID_lookup (model_id model) model)).
  - intros id model.
    destruct (MODEL_BY_ID !! id) as [found|] eqn:Hfound;
      [|by case_bool_decide].
    intros [= ->]. by apply MODEL_BY_ID_lookup.
  - intros id. rewrite Hsupported.
    destruct (MODEL_BY_ID !! id) as [found|] eqn:Hfound.
    + split; [done|]. intros [H _]. destruct H. by eexists.
    + case_bool_decide as Hin.
      * split; [done|]. by intros [_ ?].
      * split; [|done]. intros _. split; [by intros [? ?]|done].
  - intros id.
    destruct (MODEL_BY_ID !! id) as [found|] eqn:Hfound.
    + split; [done|]. intros Hin. by rewrite Hinherited in Hfound.
    + by case_bool_decide.
Qed.

Lemma configuredIds_elem (items : list value) (id : string) :
  id ∈ (list_to_set
          (omap (λ value, match value with VStr s => Some s | _ => None end)
             items) : gset string)
  ↔ VStr id ∈ items.
Proof.
  rewrite elem_of_list_to_set, list_elem_of_omap. split.
  - intros (item & Hin & Hitem). destruct item; try done. by injection Hitem as ->.
  - intros Hin. by exists (VStr id).
Qed.

Lemma getVisibleModels_sublist (raw : value) :
  getVisibleModels raw `sublist_of` SUPPORTED_MODELS.
Proof.
  unfold getVisibleModels. destruct raw; try done.
  destruct (0 <? length _)%nat; [apply sublist_filter|done].
Qed.

(** X21.  The models shown are never none.  When the setting
    [minimax.visibleModels] is an array that lists the id of at least
    one supported model, the models shown are the supported models whose
    id it lists, in the order of the table; in every other case (no
    array, no string in it, no supported id) they are all the supported
    models. *)
Theorem getVisibleModels_selection (raw : value) :
  let visible := getVisibleModels raw in
  visible ≠ []
  ∧ visible `sublist_of` SUPPORTED_MODELS
  ∧ ((∃ model, model ∈ SUPPORTED_MODELS ∧ configured raw (model_id model)) →
     ∀ model, model ∈ visible ↔
              model ∈ SUPPORTED_MODELS ∧ configured raw (model_id model))
  ∧ ((∀ model, model ∈ SUPPORTED_MODELS → ¬ configured raw (model_id model)) →
     visible = SUPPORTED_MODELS).
Proof.
  cbv zeta. unfold getVisibleModels.
  destruct raw as [| | | | |items|];
    try (split; [done|]; split; [done|]; split; [|done];
         intros (model & _ & items & ? & _); done).
  set (configuredIds := list_to_set _ : gset string).
  assert (∀ model, model_id model ∈ configuredIds
                   ↔ configured (VArr items) (model_id model)) as Hconf.
  { intros model. unfold configuredIds. rewrite configuredIds_elem. split.
    - intros Hin. by exists items.
    - by intros (? & [= <-] & ?). }
  destruct (filter (λ model, model_id model ∈ configuredIds) SUPPORTED_MODELS)
    as [|first rest] eqn:Hfilter.
  - cbn [length Nat.ltb Nat.leb]. split; [done|]. split; [done|].
    split; [|done]. intros (model & Hin & Hc).
    assert (model ∈ filter (λ model, model_id model ∈ configuredIds)
                      SUPPORTED_MODELS) as Hm
      by (apply list_elem_of_filter; split; [by apply Hconf|done]).
    rewrite Hfilter in Hm. by apply elem_of_nil in Hm.
  - cbn [length Nat.ltb Nat.leb]. rewrite <- Hfilter.
    split; [by rewrite Hfilter|]. split; [apply sublist_filter|]. split.
    + intros _ model. rewrite list_elem_of_filter, Hconf. tauto.
    + intros Hnone.
      assert (first ∈ filter (λ model, model_id model ∈ configuredIds)
                        SUPPORTED_MODELS) as Hm
        by (rewrite Hfilter; apply elem_of_cons; by left).
      apply list_elem_of_filter in Hm as [Hc Hin].
      apply Hconf in Hc. by destruct (Hnone first Hin).
Qed.

Lemma extractConfiguredApiKey_Some (options : gmap string value) (key : string) :
  extractConfiguredApiKey options = Some key ↔
  ∃ rawKey, configurationKey options rawKey
            ∧ key = trim rawKey ∧ trim rawKey ≠ "".
Proof.
  unfold extractConfiguredApiKey, configurationKey. simpl.
  destruct (options !! "configuration") as [config|]; simpl.
  - destruct (Js.isObjectLike config) eqn:Hobj; simpl.
    + destruct (Js.get config "apiKey") as [| | | |rawKey| |] eqn:Hkey;
        try (split; [done|]; intros (? & (? & [= <-] & _ & ?) & _);
             congruence).
      destruct (0 <? String.length (trim rawKey))%nat eqn:Hlen.
      * apply length_positive in Hlen. split.
        -- intros [= <-]. exists rawKey. split; [by exists config|done].
        -- intros (? & (? & [= <-] & _ & Hk) & -> & _). congruence.
      * apply length_positive_false in Hlen. split; [done|].
        intros (? & (? & [= <-] & _ & Hk) & _ & ?). congruence.
    + split; [done|]. intros (? & (? & [= <-] & ? & _) & _). congruence.
  - split; [done|]. by intros (? & (? & ? & _) & _).
Qed.

Lemma listed_elem (raw : value) (options : gmap string value)
    (info : LanguageModelChatInformation) :
  info ∈ provideLanguageModelChatInformation raw options →
  ∃ rawKey model,
    configurationKey options rawKey ∧ trim rawKey ≠ ""
    ∧ model ∈ SUPPORTED_MODELS
    ∧ info_id info = model_id model
    ∧ minimaxApiKey info = Some (trim rawKey).
Proof.
  unfold provideLanguageModelChatInformation.
  destruct (Js.has options "configuration"); [|by intros ?%elem_of_nil].
  cbn [negb].
  destruct (extractConfiguredApiKey options) as [key|] eqn:Hkey;
    [|by intros ?%elem_of_nil].
  apply extractConfiguredApiKey_Some in Hkey as (rawKey & Hconf & -> & Htrim).
  destruct (trim rawKey) as [|c rest] eqn:Hraw; [done|]. rewrite <- Hraw.
  unfold modelsWithApiKey. intros (model & -> & Hmodel)%list_elem_of_fmap.
  exists rawKey, model. split; [done|]. split; [by rewrite Hraw|].
  split; [|done]. eapply elem_of_sublist; [done|apply getVisibleModels_sublist].
Qed.

(** X22.  [provideLanguageModelChatInformation] lists no model unless
    the configuration of the options carries an API key that is more
    than white space.  When it does, it lists the models shown, in their
    order and under their ids, each with tool calling, with the context
    length of the model as both token limits, and with the key less the
    white space at its ends attached. *)
Theorem models_listed_with_key (raw : value) (options : gmap string value) :
  let listed := provideLanguageModelChatInformation raw options in
  (extractConfiguredApiKey options = None → listed = [])
  ∧ (listed ≠ [] →
     ∃ rawKey, configurationKey options rawKey ∧ ¬ whitespaceOnly rawKey)
  ∧ (∀ rawKey, configurationKey options rawKey → ¬ whitespaceOnly rawKey →
       info_id <$> listed = model_id <$> getVisibleModels raw
       ∧ Forall (λ info,
                   minimaxApiKey info = Some (trim rawKey)
                   ∧ usable (trim rawKey)
                   ∧ toolCalling info = true
                   ∧ ∃ model, model ∈ SUPPORTED_MODELS
                              ∧ info_id info = model_id model
                              ∧ info_name info = model_name model
                              ∧ maxInputTokens info = contextLength model
                              ∧ maxOutputTokens info = contextLength model)
           listed).
Proof.
  cbv zeta. unfold provideLanguageModelChatInformation.
  split; [|split].
  - intros ->. by destruct (Js.has options "configuration").
  - destruct (extractConfiguredApiKey options) as [key|] eqn:Hkey;
      [|by destruct (Js.has options "configuration")].
    intros _. apply extractConfiguredApiKey_Some in Hkey.
    destruct Hkey as (rawKey & Hconf & _ & Htrim).
    exists rawKey. split; [done|]. unfold whitespaceOnly.
    by rewrite <- trim_empty.
  - intros rawKey Hconf Hblank.
    assert (trim rawKey ≠ "") as Htrim
      by (unfold whitespaceOnly in Hblank; by rewrite trim_empty).
    assert (extractConfiguredApiKey options = Some (trim rawKey)) as ->
      by (apply extractConfiguredApiKey_Some; by exists rawKey).
    assert (Js.has options "configuration" = true) as ->.
    { apply has_true. destruct Hconf as (config & -> & _). by eexists. }
    cbn [negb]. destruct (trim rawKey) as [|c rest] eqn:Hkey; [done|].
    rewrite <- Hkey. unfold modelsWithApiKey. split.
    + rewrite <- list_fmap_compose. by apply list_fmap_ext.
    + apply Forall_fmap, Forall_forall. intros model Hmodel. simpl.
      split; [done|]. split; [by apply trim_nonempty_usable; rewrite Hkey|].
      split; [done|]. exists model. split; [|done].
      eapply elem_of_sublist; [done|apply getVisibleModels_sublist].
Qed.

Lemma getModelById_round_trip_witness :
  getModelById "MiniMax-M2.1"
  = Own {| model_id := "MiniMax-M2.1"; model_name := "MiniMax M2.1";
           contextLength := 204800 |}
  ∧ getModelById "minimax-m2.1" = Absent
  ∧ getModelById "toString" = Inherited.
Proof.
  destruct getModelById_round_trip as (Hown & _ & Habsent & Hinherited).
  split; [|split].
  - apply (Hown {| model_id := "MiniMax-M2.1"; model_name := "MiniMax M2.1";
                   contextLength := 204800 |}).
    unfold SUPPORTED_MODELS. rewrite !elem_of_cons. auto.
  - apply Habsent. split; apply (bool_decide_unpack _); by vm_compute.
  - apply Hinherited. apply (bool_decide_unpack _). by vm_compute.
Defined.

Lemma getVisibleModels_selection_witness :
  getVisibleModels (VArr [VStr "MiniMax-M2"; VNum (Int 3); VStr "other"])
  = [ {| model_id := "MiniMax-M2"; model_name := "MiniMax M2";
         contextLength := 204800 |} ]
  ∧ getVisibleModels (VArr [VStr "other"]) = SUPPORTED_MODELS.
Proof.
  split; [reflexivity|].
  apply (getVisibleModels_selection (VArr [VStr "other"])).
  intros model Hmodel (items & [= <-] & Hin).
  apply list_elem_of_singleton in Hin. injection Hin as Hid.
  unfold SUPPORTED_MODELS in Hmodel.
  rewrite !elem_of_cons, elem_of_nil in Hmodel.
  by destruct Hmodel as [->|[->|[->|[]]]].
Defined.

Lemma models_listed_with_key_witness :
  info_id
    <$> provideLanguageModelChatInformation VUndefined
          {[ "configuration" := VObj {[ "apiKey" := VStr " sk-1 " ]} ]}
  = ["MiniMax-M2.5"; "MiniMax-M2.1"; "MiniMax-M2"]
  ∧ provideLanguageModelChatInformation VUndefined
      {[ "configuration" := VObj {[ "apiKey" := VStr "  " ]} ]} = [].
Proof.
  split.
  - destruct (models_listed_with_key VUndefined
                {[ "configuration" := VObj {[ "apiKey" := VStr " sk-1 " ]} ]})
      as (_ & _ & H).
    destruct (H " sk-1 ") as [Hids _]; [by eexists|done|]. exact Hids.
  - by apply (models_listed_with_key VUndefined
                {[ "configuration" := VObj {[ "apiKey" := VStr "  " ]} ]}).
Defined.

End CatalogueFacts.

(* ================================================================== *)
(** * Properties: error mapping *)
(* ================================================================== *)

Module ErrorMappingFacts.
Import JsString Wire MiniMaxClient Vscode MiniMaxAuthentication
  MiniMaxProvider.
Import Spec.

Section Client.
Variable String_ : value → string.

Lemma toMiniMaxError_status (cause : Thrown) (status : Z) :
  statusCode (toMiniMaxError String_ cause) = Some (Int status) ↔
  hasStatus cause status ∨ (status = 0 ∧ ∃ name message,
                              cause = APIError name message None).
Proof.
  unfold hasStatus. destruct cause as [name msg st|name msg|v]; simpl.
  - split.
    + intros [= H]. destruct st as [n|]; simpl in H.
      * subst n. left. by eexists _, _.
      * injection H as <-. right. split; [done|]. by eexists _, _.
    + intros [(? & ? & [= _ _ ->])|[-> (? & ? & [= _ _ ->])]]; done.
  - case_bool_decide; simpl; split; try done;
      by intros [(? & ? & ?)|[_ (? & ? & ?)]].
  - split; [done|]. by intros [(? & ? & ?)|[_ (? & ? & ?)]].
Qed.

(** X23.  What the provider throws for a failed request.  Whatever the
    failure, the error thrown is a plain error, never the error of the
    client.  An upstream API error with status 401 deletes the stored
    key and asks for a new one; with status 429 it reports the rate
    limit; every other failure is reported with the message of the
    client, and in these cases the host is left as it was. *)
Theorem failure_mapping (cause : Thrown) (host : Host) :
  let mapped := throwMappedError (ClientError (toMiniMaxError String_ cause))
                  host in
  (∃ message, mapped.1 = PlainError message)
  ∧ (hasStatus cause 401 →
     mapped.1 = PlainError invalidKeyMessage
     ∧ getApiKey mapped.2 = None
     ∧ notifications mapped.2 = notifications host)
  ∧ (hasStatus cause 429 →
     mapped = (PlainError rateLimitMessage, host))
  ∧ (¬ hasStatus cause 401 → ¬ hasStatus cause 429 →
     mapped = (PlainError
                 ("MiniMax API error: "
                    +:+ message (toMiniMaxError String_ cause)), host)).
Proof.
  cbv zeta. unfold throwMappedError.
  split; [repeat case_bool_decide; by eexists|]. split; [|split].
  - intros (name & msg & ->). simpl. split; [done|].
    split; [apply lookup_delete_eq|done].
  - by intros (name & msg & ->).
  - intros H401 H429.
    rewrite !bool_decide_eq_false_2; [done| |].
    + intros H. apply toMiniMaxError_status in H as [H|[H _]]; done.
    + intros H. apply toMiniMaxError_status in H as [H|[H _]]; done.
Qed.

End Client.

Lemma failure_mapping_witness :
  let host := {| secrets := {[ API_KEY_SECRET_KEY := "sk-1" ]};
                 notifications := [] |} in
  getApiKey
    (throwMappedError
       (ClientError
          (toMiniMaxError (λ _, "")
             (APIError "Error" "Unauthorized" (Some (Int 401))))) host).2
  = None
  ∧ throwMappedError
      (ClientError (toMiniMaxError (λ _, "") (OtherError "AbortError" "")))
      host
    = (PlainError "MiniMax API error: Request timeout", host).
Proof.
  cbv zeta. split.
  - apply (failure_mapping (λ _, "")
             (APIError "Error" "Unauthorized" (Some (Int 401)))).
    by eexists _, _.
  - apply (failure_mapping (λ _, "") (OtherError "AbortError" "")).
    + by intros (? & ? & ?).
    + by intros (? & ? & ?).
Defined.

End ErrorMappingFacts.

(* ================================================================== *)
(** * Properties: the response *)
(* ================================================================== *)

Module ResponseFacts.
Import JsString Wire MiniMaxClient Vscode MiniMaxAuthentication
  MiniMaxProvider.
Import Spec.
Import JsStringFacts TrimFacts TrimShapeFacts NormalizerFacts DriverFacts.
Import CatalogueFacts ErrorMappingFacts.

Lemma resolveMaxTokens_positive (options : ProvideLanguageModelChatResponseOptions) :
  ∃ z, resolveMaxTokens options = Int z ∧ 0 < z.
Proof.
  unfold resolveMaxTokens, DEFAULT_MAX_TOKENS.
  destruct (match modelOptions options with
            | Some modelOptions => Js.get (VObj modelOptions) "maxTokens"
            | None => VUndefined
            end) as [| | |[z| |]| | |]; try (by exists 8192).
  destruct (Z.leb_spec z 0); [by exists 8192|by exists z].
Qed.

Lemma resolveToolChoice_None (options : ProvideLanguageModelChatResponseOptions)
    (tools : option (list LanguageModelChatTool)) :
  resolveToolChoice options (convertTools tools) = None
  ↔ convertTools tools = None.
Proof.
  rewrite convertTools_omap. unfold resolveToolChoice.
  by destruct (omap convertTool (default [] tools)).
Qed.

Lemma selection_keyless (input : option string) (host : Host)
    (model : LanguageModelChatInformation) :
  keyless model →
  match minimaxApiKey model with
  | Some key =>
      if nonEmpty key && (0 <? String.length (trim key))%nat
      then (Some key, host)
      else getOrPromptApiKey input host
  | None => getOrPromptApiKey input host
  end = getOrPromptApiKey input host.
Proof.
  unfold keyless. destruct (minimaxApiKey model) as [key|]; [|done].
  intros Hkey. apply trim_empty in Hkey. rewrite Hkey. simpl.
  by rewrite andb_false_r.
Qed.

Lemma selection_own_key (input : option string) (host : Host)
    (model : LanguageModelChatInformation) (key : string) :
  minimaxApiKey model = Some key → ¬ whitespaceOnly key →
  match minimaxApiKey model with
  | Some key =>
      if nonEmpty key && (0 <? String.length (trim key))%nat
      then (Some key, host)
      else getOrPromptApiKey input host
  | None => getOrPromptApiKey input host
  end = (Some key, host) ∧ key ≠ "" ∧ trim key ≠ "".
Proof.
  intros -> Hkey. unfold whitespaceOnly in Hkey. rewrite <- trim_empty in Hkey.
  assert (key ≠ "") as Hne by by intros ->.
  rewrite (proj2 (length_positive (trim key)) Hkey).
  by destruct key.
Qed.

Lemma streamChat_params (String_ : value → string) (transport : Transport)
    (model : option string) (messages : list MiniMaxMessage)
    (options : option ChatOptions) (params : CreateParams) :
  params ∈ requests (streamChat String_ transport model messages options) →
  requests (streamChat String_ transport model messages options) = [params]
  ∧ ∃ key,
      options ≫= apiKey = Some key ∧ trim key ≠ ""
      ∧ params
        = {| p_apiKey := trim key;
             p_baseURL := baseUrl;
             p_model := model;
             p_stream := true;
             p_messages := toOpenAiMessages messages;
             p_temperature := default (Int 1) (options ≫= temperature);
             p_max_tokens := default (Int 8192) (options ≫= maxTokens);
             p_tools :=
               match options ≫= tools with
               | Some (t :: ts) => Some (t :: ts)
               | _ => None
               end;
             p_tool_choice := options ≫= toolChoice;
             p_reasoning_split := default true (options ≫= reasoningSplit) |}.
Proof.
  unfold streamChat.
  destruct (options ≫= apiKey) as [key|]; [|by intros ?%elem_of_nil].
  cbn [fmap option_fmap option_map].
  destruct (trim key) as [|c rest] eqn:Hkey; [by intros ?%elem_of_nil|].
  destruct (transport _) as [error|upstream];
    [|destruct (forward _ _ _)];
    cbn [requests]; intros ->%list_elem_of_singleton;
    (split; [done|]); exists key; by rewrite Hkey.
Qed.

(** An id has an own entry in the model table exactly when it is the
    id of a supported model. *)
Lemma getModelById_supported (id : string) :
  id ∈ model_id <$> SUPPORTED_MODELS ↔ ∃ model, getModelById id = Own model.
Proof.
  rewrite list_elem_of_fmap. split.
  - intros (model & -> & Hin). exists model. by apply getModelById_Own.
  - intros (model & Hmodel). apply getModelById_Own in Hmodel as [? <-].
    by exists model.
Qed.

Lemma getModelById_Inherited (id : string) :
  getModelById id = Inherited → id ∈ inheritedNames.
Proof.
  unfold getModelById. destruct (MODEL_BY_ID !! id); [done|].
  by case_bool_decide.
Qed.

Section Response.
Variable JSON_stringify : Part → option (option string).
Variable String_part : Part → string.
Variable base64 : list Byte.byte → string.
Variable JSON_stringify_input : value → string.
Variable JSON_parse : string → option value.
Variable String_ : value → string.
Variable thinkingPartCtor : bool.
Variable transport : Transport.

#[local] Abbreviation respond :=
  (provideLanguageModelChatResponse JSON_stringify String_part base64
     JSON_stringify_input JSON_parse String_ thinkingPartCtor transport).
#[local] Abbreviation stream :=
  (streamResponse JSON_stringify String_part base64 JSON_stringify_input
     JSON_parse String_ thinkingPartCtor transport).
#[local] Abbreviation convert :=
  (convertMessages JSON_stringify String_part base64 JSON_stringify_input).

(** X24.  Without a key there is no request.  When the model carries no
    key of its own and neither the secret storage nor the prompt gives
    a non-empty one, [provideLanguageModelChatResponse] throws the error
    that asks to set a key: the transport receives nothing and nothing
    is reported.  If no key is stored and the prompt is dismissed, the
    host is left as it was. *)
Theorem response_without_key (input : option string) (host : Host)
    (model : LanguageModelChatInformation)
    (messages : list LanguageModelChatRequestMessage)
    (options : ProvideLanguageModelChatResponseOptions)
    (observed : nat → bool) :
  keyless model →
  ((getOrPromptApiKey input host).1 = None
   ∨ (getOrPromptApiKey input host).1 = Some "") →
  respond input host model messages options observed
  = {| response_host := (getOrPromptApiKey input host).2;
       response_requests := []; response_reported := [];
       response_raised := Some (PlainError missingKeyMessage) |}
  ∧ (getApiKey host = None → input = None →
     (getOrPromptApiKey input host).2 = host).
Proof.
  intros Hmodel Hkey. split.
  - unfold provideLanguageModelChatResponse.
    rewrite (selection_keyless input host model Hmodel).
    destruct (getOrPromptApiKey input host) as [apiKey host'].
    simpl in Hkey. by destruct Hkey as [->| ->].
  - intros Hnone ->. unfold getOrPromptApiKey. by rewrite Hnone.
Qed.

Lemma selection_eq (input : option string) (host : Host)
    (model : LanguageModelChatInformation) :
  match minimaxApiKey model with
  | Some key =>
      if nonEmpty key && (0 <? String.length (trim key))%nat
      then (Some key, host)
      else getOrPromptApiKey input host
  | None => getOrPromptApiKey input host
  end = selectKey input host model.
Proof.
  unfold selectKey. destruct (minimaxApiKey model) as [key|] eqn:Hkey; [|done].
  case_decide as Hblank; unfold whitespaceOnly in Hblank;
    rewrite <- trim_empty in Hblank.
  - rewrite Hblank. simpl. by rewrite andb_false_r.
  - rewrite (proj2 (length_positive (trim key)) Hblank).
    destruct key; [done|]. done.
Qed.

(** The key that a response uses comes from the model, the secret
    storage or the prompt. *)
Lemma selectKey_source (input : option string) (host : Host)
    (model : LanguageModelChatInformation) (key : string) :
  (selectKey input host model).1 = Some key →
  minimaxApiKey model = Some key
  ∨ (getOrPromptApiKey input host).1 = Some key.
Proof.
  unfold selectKey. destruct (minimaxApiKey model) as [own|]; [|by right].
  case_decide; [by right|]. intros [= <-]. by left.
Qed.

(** The call of [streamChat] that a response makes. *)
#[local] Abbreviation chat :=
  (λ (resolved : Lookup) (messages : list LanguageModelChatRequestMessage)
     (options : ProvideLanguageModelChatResponseOptions) (key : string),
     streamChat String_ transport (resolvedId resolved) (convert messages)
       (Some {| maxTokens := Some (resolveMaxTokens options);
                temperature := Some DEFAULT_TEMPERATURE;
                apiKey := Some key;
                tools := convertTools (options_tools options);
                toolChoice :=
                  resolveToolChoice options
                    (convertTools (options_tools options));
                reasoningSplit := Some thinkingPartCtor |})).

(** A response, case by case. *)
Lemma respond_inv (input : option string) (host : Host)
    (model : LanguageModelChatInformation)
    (messages : list LanguageModelChatRequestMessage)
    (options : ProvideLanguageModelChatResponseOptions)
    (observed : nat → bool) :
  respond input host model messages options observed
  = let '(apiKey, host') := selectKey input host model in
    match apiKey with
    | None | Some EmptyString =>
        {| response_host := host'; response_requests := [];
           response_reported := [];
           response_raised := Some (PlainError missingKeyMessage) |}
    | Some key =>
        match getModelById (info_id model) with
        | Absent =>
            {| response_host := host'; response_requests := [];
               response_reported := [];
               response_raised :=
                 Some (PlainError (unsupportedModelMessage (info_id model))) |}
        | resolved =>
            let run := chat resolved messages options key in
            let arrived := imap (λ i chunk, (observed i, chunk)) (yielded run) in
            let st := consume JSON_parse thinkingPartCtor initialState arrived in
            match (if existsb fst arrived then None else thrown run) with
            | Some error =>
                {| response_host :=
                     (throwMappedError (ClientError error) host').2;
                   response_requests := requests run;
                   response_reported := reported st;
                   response_raised :=
                     Some (throwMappedError (ClientError error) host').1 |}
            | None =>
                {| response_host := host'; response_requests := requests run;
                   response_reported := reported st;
                   response_raised := None |}
            end
        end
    end.
Proof.
  unfold provideLanguageModelChatResponse. rewrite selection_eq.
  destruct (selectKey input host model) as [[[|c key]|] host']; [done| |done].
  unfold streamResponse.
  destruct (getModelById (info_id model)) as [resolved| |]; [| |done].
  all: cbv zeta; cbn [run_raised run_requests run_reported];
    (destruct (existsb fst _); [done|]);
    (destruct (thrown _) as [error|]; [|done]);
    cbn [fmap option_fmap option_map];
    by destruct (throwMappedError (ClientError error) host').
Qed.

(** The requests of a response are those of the one call of
    [streamChat], made under a key that is not empty and for an id that
    the model table knows, as its own or as an inherited one. *)
Lemma respond_requests (input : option string) (host : Host)
    (model : LanguageModelChatInformation)
    (messages : list LanguageModelChatRequestMessage)
    (options : ProvideLanguageModelChatResponseOptions)
    (observed : nat → bool) (params : CreateParams) :
  params
    ∈ response_requests (respond input host model messages options observed) →
  ∃ apiKey,
    getModelById (info_id model) ≠ Absent
    ∧ apiKey ≠ ""
    ∧ (selectKey input host model).1 = Some apiKey
    ∧ response_requests (respond input host model messages options observed)
      = requests
          (chat (getModelById (info_id model)) messages options apiKey).
Proof.
  rewrite respond_inv.
  destruct (selectKey input host model) as [[[|c key]|] host'];
    [by intros ?%elem_of_nil| |by intros ?%elem_of_nil].
  destruct (getModelById (info_id model)) as [resolved| |];
    [| |by intros ?%elem_of_nil].
  all: cbv zeta; intros _; exists (String c key);
    (split; [done|]); (split; [done|]); (split; [done|]);
    by destruct (if existsb fst _ then None else _).
Qed.

(** X25.  Every request of a response is well formed.  There is at most
    one.  It names the model selected when that is a supported one;
    otherwise the id selected is one of the names that the model table
    inherits, and the request names no model.  Its key is the key of
    the model, the stored key or the key prompted for, less the white
    space at its ends, and is not empty; its messages are the converted
    conversation and its tools the converted tools; the temperature is
    1; the token limit is a positive integer; a tool choice is sent
    exactly when tools are sent; and reasoning is requested as a
    separate field exactly when the host has thinking parts. *)
Theorem response_request_parameters (input : option string) (host : Host)
    (model : LanguageModelChatInformation)
    (messages : list LanguageModelChatRequestMessage)
    (options : ProvideLanguageModelChatResponseOptions)
    (observed : nat → bool) (params : CreateParams) :
  let response := respond input host model messages options observed in
  params ∈ response_requests response →
  response_requests response = [params]
  ∧ (info_id model ∈ model_id <$> SUPPORTED_MODELS →
     p_model params = Some (info_id model))
  ∧ (¬ (info_id model ∈ model_id <$> SUPPORTED_MODELS) →
     info_id model ∈ inheritedNames ∧ p_model params = None)
  ∧ usable (p_apiKey params)
  ∧ (∃ key, (minimaxApiKey model = Some key
             ∨ (getOrPromptApiKey input host).1 = Some key)
            ∧ padded key (p_apiKey params))
  ∧ p_messages params = toOpenAiMessages (convert messages)
  ∧ p_tools params = convertTools (options_tools options)
  ∧ p_temperature params = Int 1
  ∧ (∃ z, p_max_tokens params = Int z ∧ 0 < z)
  ∧ (p_tool_choice params = None ↔ p_tools params = None)
  ∧ p_reasoning_split params = thinkingPartCtor
  ∧ p_stream params = true.
Proof.
  intros response Hparams. unfold response in *.
  destruct (respond_requests _ _ _ _ _ _ _ Hparams)
    as (apiKey & Hmodel & Hne & Hsource & Hrequests).
  rewrite Hrequests in Hparams |- *.
  apply selectKey_source in Hsource.
  apply streamChat_params in Hparams
    as (-> & key & [= <-] & Hkey & ->).
  cbn. split; [done|]. split; [|split].
  { intros (resolved & Hresolved)%getModelById_supported.
    rewrite Hresolved. cbn [resolvedId].
    by apply getModelById_Own in Hresolved as [_ ->]. }
  { intros Hunsupported.
    destruct (getModelById (info_id model)) as [resolved| |] eqn:Hresolved.
    - destruct Hunsupported. apply getModelById_supported. by exists resolved.
    - split; [by apply getModelById_Inherited|done].
    - done. }
  split; [by apply trim_nonempty_usable|].
  split; [exists apiKey; split; [done|apply trim_padded]|].
  split; [done|].
  assert (match convertTools (options_tools options) with
          | Some (t :: ts) => Some (t :: ts)
          | _ => None
          end = convertTools (options_tools options)) as ->.
  { rewrite convertTools_omap.
    by destruct (omap convertTool (default [] (options_tools options))). }
  split; [done|]. split; [done|].
  split; [apply resolveMaxTokens_positive|].
  split; [apply resolveToolChoice_None|done].
Qed.

Lemma existsb_imap (f : nat → ChatCompletionChunk → bool * ChatCompletionChunk)
    (chunks : list ChatCompletionChunk) :
  (∃ i chunk, chunks !! i = Some chunk ∧ (f i chunk).1 = true) →
  existsb fst (imap f chunks) = true.
Proof.
  revert f. induction chunks as [|first chunks IH]; intros f.
  - by intros (i & chunk & ? & _).
  - intros ([|i] & chunk & Hi & Hobserved); cbn [imap existsb].
    + injection Hi as ->. by rewrite Hobserved.
    + rewrite (IH (f ∘ S)); [apply orb_true_r|]. by exists i, chunk.
Qed.

Lemma existsb_imap_observed (observed : nat → bool)
    (chunks : list ChatCompletionChunk) :
  (∃ i chunk, chunks !! i = Some chunk ∧ observed i = true) →
  existsb fst (imap (λ i chunk, (observed i, chunk)) chunks) = true.
Proof. intros (i & chunk & ? & ?). apply existsb_imap. by exists i, chunk. Qed.

Lemma streamChat_no_request (model : option string)
    (messages : list MiniMaxMessage) (options : option ChatOptions) :
  requests (streamChat String_ transport model messages options) = [] →
  yielded (streamChat String_ transport model messages options) = [].
Proof.
  unfold streamChat.
  destruct (trim <$> options ≫= apiKey) as [[|c rest]|]; [done| |done].
  destruct (transport _); [done|]. by destruct (forward _ _ _).
Qed.

(** X26.  The parts of a response are those of the streaming loop.  What
    [provideLanguageModelChatResponse] reports is what the loop reports
    for the chunks that arrive before the client observes a
    cancellation, each with the cancellation state that the provider
    observes when it receives it; without a request nothing is
    reported.  When the provider observes the cancellation on one of
    these chunks, the response ends without an error and leaves the
    host as it was after the key was looked up, whatever the upstream
    does later. *)
Theorem response_reports (input : option string) (host : Host)
    (model : LanguageModelChatInformation)
    (messages : list LanguageModelChatRequestMessage)
    (options : ProvideLanguageModelChatResponseOptions)
    (observed : nat → bool) :
  let response := respond input host model messages options observed in
  (response_requests response = [] → response_reported response = [])
  ∧ ∀ params upstream,
      params ∈ response_requests response →
      transport params = inr upstream →
      let chunks := beforeCancellation (arrivals upstream) in
      response_reported response
      = reported (consume JSON_parse thinkingPartCtor initialState
                    (imap (λ i chunk, (observed i, chunk)) chunks))
      ∧ ((∃ i chunk, chunks !! i = Some chunk ∧ observed i = true) →
         response_raised response = None
         ∧ response_host response = (selectKey input host model).2).
Proof.
  intros response. unfold response. clear response. rewrite respond_inv.
  destruct (selectKey input host model) as [[[|c key]|] host'].
  1, 3: split; [done|]; by intros ? ? ?%elem_of_nil.
  destruct (getModelById (info_id model)) as [resolved| |].
  3: { split; [done|]. by intros ? ? ?%elem_of_nil. }
  all: cbv zeta; set (run := streamChat _ _ _ _ _);
    set (response := match (if existsb fst _ then None else thrown run) with
                     | Some _ => _ | None => _ end);
    assert (response_reported response
            = reported (consume JSON_parse thinkingPartCtor initialState
                          (imap (λ i chunk, (observed i, chunk)) (yielded run)))
            ∧ response_requests response = requests run)
      as [Hreported Hrequests]
      by (unfold response; by destruct (if existsb fst _ then None else thrown run));
    rewrite Hrequests, Hreported; split;
    [ intros Hnone; pose proof (streamChat_no_request _ _ _ Hnone) as Hy;
      fold run in Hy; by rewrite Hy
    | intros params upstream Hparams Hsend;
      apply streamChat_params in Hparams as [Hparams _];
      pose proof (streamChat_run String_ transport _ _ _ params Hparams)
        as (_ & _ & _ & _ & _ & _ & Hrun);
      rewrite Hsend in Hrun; destruct Hrun as [Hyielded _];
      fold run in Hyielded; cbv zeta; rewrite <- Hyielded; split; [done|];
      intros Hobserved; apply existsb_imap_observed in Hobserved;
      unfold response; by rewrite Hobserved ].
Qed.

(** X27.  A response never lets the error of the client escape: what it
    throws is a plain error.  When it throws the error that the API key
    is invalid, it has deleted the stored key; in every other case it
    leaves the host as it was after the key was looked up.  It shows no
    notification of its own. *)
Theorem response_failure (input : option string) (host : Host)
    (model : LanguageModelChatInformation)
    (messages : list LanguageModelChatRequestMessage)
    (options : ProvideLanguageModelChatResponseOptions)
    (observed : nat → bool) :
  let response := respond input host model messages options observed in
  (∀ error, response_raised response ≠ Some (ClientError error))
  ∧ (response_raised response = Some (PlainError invalidKeyMessage) →
     getApiKey (response_host response) = None)
  ∧ (response_raised response ≠ Some (PlainError invalidKeyMessage) →
     response_host response = (selectKey input host model).2)
  ∧ notifications (response_host response)
    = notifications (selectKey input host model).2.
Proof.
  intros response. unfold response. clear response. rewrite respond_inv.
  destruct (selectKey input host model) as [[[|c key]|] host'].
  1, 3: done.
  destruct (getModelById (info_id model)) as [resolved| |]; [| |done].
  all: cbv zeta; (destruct (if existsb fst _ then None else _) as [error|];
                  [|done]);
    cbn [response_raised response_host];
    unfold throwMappedError; repeat case_bool_decide; cbn [fst snd];
    [ split; [done|]; split; [intros _; apply lookup_delete_eq|done]
    | done
    | split; [done|]; split; [|done]; intros Heq; inversion Heq ].
Qed.

(** X28.  Every model that [provideLanguageModelChatInformation] lists
    can be served: a response for it finds the model, uses the key
    attached to it without consulting the secret storage or prompting,
    and sends exactly one request, for this model and under this key. *)
Theorem listed_models_are_served (raw : value)
    (configuration : gmap string value) (info : LanguageModelChatInformation)
    (input : option string) (host : Host)
    (messages : list LanguageModelChatRequestMessage)
    (options : ProvideLanguageModelChatResponseOptions)
    (observed : nat → bool) :
  info ∈ provideLanguageModelChatInformation raw configuration →
  let response := respond input host info messages options observed in
  ∃ resolved params,
    getModelById (info_id info) = Own resolved
    ∧ response_requests response = [params]
    ∧ p_model params = Some (info_id info)
    ∧ minimaxApiKey info = Some (p_apiKey params)
    ∧ notifications (response_host response) = notifications host.
Proof.
  intros Hlisted response. unfold response. clear response.
  apply listed_elem in Hlisted
    as (rawKey & resolved & _ & Htrim & Hsupported & Hid & Hkey).
  assert (getModelById (info_id info) = Own resolved) as Hmodel
    by by apply getModelById_Own.
  assert (selectKey input host info = (Some (trim rawKey), host)) as Hselect.
  { unfold selectKey. rewrite Hkey. rewrite decide_False; [done|].
    unfold whitespaceOnly. by rewrite <- trim_empty, trim_idempotent. }
  rewrite respond_inv, Hselect, Hmodel.
  destruct (trim rawKey) as [|c rest] eqn:Hraw; [done|]. rewrite <- Hraw.
  cbv zeta. cbn [resolvedId]. set (run := streamChat _ _ _ _ _).
  destruct (ClientFacts.streamChat_issues_request String_ transport
              (Some (model_id resolved)) (convert messages)
              (Some {| maxTokens := Some (resolveMaxTokens options);
                       temperature := Some DEFAULT_TEMPERATURE;
                       apiKey := Some (trim rawKey);
                       tools := convertTools (options_tools options);
                       toolChoice :=
                         resolveToolChoice options
                           (convertTools (options_tools options));
                       reasoningSplit := Some thinkingPartCtor |})
              (trim rawKey) eq_refl) as (params & Hparams & Hp);
    [by rewrite trim_idempotent, Hraw|]. fold run in Hparams.
  assert (p_model params = Some (model_id resolved)) as Hpm.
  { assert (params ∈ requests run) as Hin
      by (rewrite Hparams; apply list_elem_of_singleton; done).
    apply streamChat_params in Hin as (_ & key & _ & _ & ->). done. }
  rewrite trim_idempotent in Hp.
  exists resolved, params. split; [done|].
  destruct (if existsb fst _ then None else thrown run) as [error|].
  - cbn [response_requests response_host].
    split; [done|]. split; [congruence|]. split; [congruence|].
    unfold throwMappedError. by repeat case_bool_decide.
  - cbn [response_requests response_host].
    split; [done|]. split; [congruence|]. split; [congruence|done].
Qed.

End Response.

Lemma response_without_key_witness :
  sampleResponse echoTransport None idleHost (keyedModel (Some "  "))
    (λ _, false)
  = {| response_host := idleHost; response_requests := [];
       response_reported := [];
       response_raised := Some (PlainError missingKeyMessage) |}.
Proof.
  apply (response_without_key (λ _, Some None) (λ _, "") (λ _, "")
           (λ _, "{}") JsonFragment.parse (λ _, "") true echoTransport
           None idleHost (keyedModel (Some "  "))).
  - reflexivity.
  - left. reflexivity.
Defined.

Lemma response_request_parameters_witness :
  let inherited :=
    {| info_id := "toString"; info_name := ""; info_detail := "";
       info_family := ""; info_version := ""; maxInputTokens := 0;
       maxOutputTokens := 0; toolCalling := true;
       minimaxApiKey := Some "sk-1" |} in
  (∃ params,
     response_requests
       (sampleResponse echoTransport None idleHost
          (keyedModel (Some " sk-1 ")) (λ _, false)) = [params]
     ∧ p_model params = Some "MiniMax-M2.5"
     ∧ p_apiKey params = "sk-1"
     ∧ p_temperature params = Int 1
     ∧ p_reasoning_split params = true)
  ∧ (∃ params,
       response_requests
         (sampleResponse echoTransport None idleHost inherited (λ _, false))
       = [params]
       ∧ p_model params = None).
Proof.
  cbv zeta. split.
  - assert (∃ params,
              response_requests
                (sampleResponse echoTransport None idleHost
                   (keyedModel (Some " sk-1 ")) (λ _, false)) = [params])
      as [params Hsent] by (eexists; reflexivity).
    assert (params
              ∈ response_requests
                  (sampleResponse echoTransport None idleHost
                     (keyedModel (Some " sk-1 ")) (λ _, false))) as Hin
      by (rewrite Hsent; apply list_elem_of_here).
    destruct (response_request_parameters (λ _, Some None) (λ _, "")
                (λ _, "") (λ _, "{}") JsonFragment.parse (λ _, "") true
                echoTransport None idleHost (keyedModel (Some " sk-1 "))
                [{| role := User; content := ContentString "Hi" |}]
                plainOptions (λ _, false) params Hin)
      as (Hrequests & Hmodel & _ & _ & (key & Hkey & Hpadded) & _ & _
          & Htemperature & _ & _ & Hsplit & _).
    exists params. split; [exact Hrequests|].
    split; [apply Hmodel, list_elem_of_here|].
    split; [|split; [exact Htemperature|exact Hsplit]].
    injection Hsent as <-. reflexivity.
  - assert (∃ params,
              response_requests
                (sampleResponse echoTransport None idleHost
                   {| info_id := "toString"; info_name := "";
                      info_detail := ""; info_family := "";
                      info_version := ""; maxInputTokens := 0;
                      maxOutputTokens := 0; toolCalling := true;
                      minimaxApiKey := Some "sk-1" |} (λ _, false))
              = [params])
      as [params Hsent] by (eexists; reflexivity).
    assert (params
              ∈ response_requests
                  (sampleResponse echoTransport None idleHost
                     {| info_id := "toString"; info_name := "";
                        info_detail := ""; info_family := "";
                        info_version := ""; maxInputTokens := 0;
                        maxOutputTokens := 0; toolCalling := true;
                        minimaxApiKey := Some "sk-1" |} (λ _, false))) as Hin
      by (rewrite Hsent; apply list_elem_of_here).
    destruct (response_request_parameters (λ _, Some None) (λ _, "")
                (λ _, "") (λ _, "{}") JsonFragment.parse (λ _, "") true
                echoTransport None idleHost
                {| info_id := "toString"; info_name := "";
                   info_detail := ""; info_family := "";
                   info_version := ""; maxInputTokens := 0;
                   maxOutputTokens := 0; toolCalling := true;
                   minimaxApiKey := Some "sk-1" |}
                [{| role := User; content := ContentString "Hi" |}]
                plainOptions (λ _, false) params Hin)
      as (Hrequests & _ & Hinherited & _).
    exists params. split; [exact Hrequests|].
    apply Hinherited. apply (bool_decide_unpack _). by vm_compute.
Defined.

Lemma response_reports_witness :
  let response :=
    sampleResponse breakingTransport None idleHost (keyedModel (Some "sk-1"))
      (λ i, bool_decide (i = 1%nat)) in
  response_reported response = [ReportText (VStr "Hel")]
  ∧ response_raised response = None.
Proof.
  cbv zeta. split; [reflexivity|].
  destruct (response_reports (λ _, Some None) (λ _, "") (λ _, "")
              (λ _, "{}") JsonFragment.parse (λ _, "") true
              breakingTransport None idleHost (keyedModel (Some "sk-1"))
              [{| role := User; content := ContentString "Hi" |}]
              plainOptions (λ i, bool_decide (i = 1%nat)))
    as [_ Hstream].
  edestruct Hstream as [_ Hquiet];
    [apply list_elem_of_here|reflexivity|].
  apply Hquiet. by eexists 1%nat, _.
Defined.

Lemma response_failure_witness :
  let response :=
    sampleResponse (rejectingTransport 401) None
      {| secrets := {[ API_KEY_SECRET_KEY := "sk-old" ]}; notifications := [] |}
      (keyedModel None) (λ _, false) in
  response_raised response = Some (PlainError invalidKeyMessage)
  ∧ getApiKey (response_host response) = None.
Proof.
  cbv zeta. split; [reflexivity|].
  apply (response_failure (λ _, Some None) (λ _, "") (λ _, "")
           (λ _, "{}") JsonFragment.parse (λ _, "") true
           (rejectingTransport 401) None
           {| secrets := {[ API_KEY_SECRET_KEY := "sk-old" ]};
              notifications := [] |}
           (keyedModel None)
           [{| role := User; content := ContentString "Hi" |}]
           plainOptions (λ _, false)).
  reflexivity.
Defined.

Lemma listed_models_are_served_witness :
  ∃ params,
    response_requests
      (sampleResponse echoTransport None idleHost (keyedModel (Some "sk-1"))
         (λ _, false)) = [params]
    ∧ p_model params = Some "MiniMax-M2.5".
Proof.
  destruct (listed_models_are_served (λ _, Some None) (λ _, "") (λ _, "")
              (λ _, "{}") JsonFragment.parse (λ _, "") true echoTransport
              VUndefined
              {[ "configuration" := VObj {[ "apiKey" := VStr " sk-1 " ]} ]}
              (keyedModel (Some "sk-1")) None idleHost
              [{| role := User; content := ContentString "Hi" |}]
              plainOptions (λ _, false))
    as (resolved & params & _ & Hrequests & Hmodel & _).
  - apply list_elem_of_here.
  - by exists params.
Defined.

End ResponseFacts.

(* ================================================================== *)
(** * Properties: extension commands *)
(* ================================================================== *)

Module ExtensionFacts.
Import JsString Wire MiniMaxClient Vscode MiniMaxAuthentication Extension.
Import Spec.
Import JsStringFacts TrimFacts TrimShapeFacts NormalizerFacts DriverFacts.
Import ResponseFacts.

Section Platform.
Variable String_ : value → string.
Variable transport : Transport.

#[local] Abbreviation probe :=
  (λ key : string,
     streamChat String_ (withoutToken transport) (Some "MiniMax-M2.5")
       [UserMessage "Ping"]
       (Some {| apiKey := Some key; maxTokens := Some (Int 1);
                temperature := Some (Int 1); tools := None;
                toolChoice := None; reasoningSplit := None |})).

Lemma testConnection_stored (choice input : option string) (host : Host)
    (key : string) :
  getApiKey host = Some key → key ≠ "" →
  testConnection String_ transport choice input host
  = (notify
       match yielded (probe key), thrown (probe key) with
       | [], Some error =>
           if bool_decide (statusCode error = Some (Int 401))
           then ErrorMessage "Invalid API key. Please set a new key."
           else ErrorMessage
                  ("MiniMax provider test failed: " +:+ message error)
       | _, _ => Information "MiniMax provider test succeeded."
       end host,
     requests (probe key)).
Proof.
  intros Hkey Hne. unfold testConnection. rewrite Hkey.
  destruct key as [|c key]; [done|].
  destruct (yielded _); [|done]. destruct (thrown _) as [error|]; [|done].
  by case_bool_decide.
Qed.

(** X29.  The connection test.  It sends at most one request, and none
    without a stored key.  A request that it sends is for
    [MiniMax-M2.5], with the single user message [Ping] and a limit of
    one token, under the stored key less the white space at its ends.
    With a stored key it shows exactly one notification and never
    changes the secret storage.  The test succeeds as soon as one chunk
    arrives; a request rejected with status 401 is reported as an
    invalid key. *)
Theorem testConnection_reports (choice input : option string) (host : Host) :
  let result := testConnection String_ transport choice input host in
  (length result.2 ≤ 1)%nat
  ∧ ((getApiKey host = None ∨ getApiKey host = Some "") → result.2 = [])
  ∧ (∀ key, getApiKey host = Some key → key ≠ "" →
       secrets result.1 = secrets host
       ∧ ∃ notification,
           notifications result.1 = notifications host ++ [notification]
           ∧ (∀ params, params ∈ result.2 →
                p_model params = Some "MiniMax-M2.5"
                ∧ p_messages params = [ParamUser "Ping"]
                ∧ p_max_tokens params = Int 1
                ∧ p_apiKey params = trim key)
           ∧ (∀ params upstream, params ∈ result.2 →
                transport params = inr upstream →
                arrivals upstream ≠ [] →
                notification = Information "MiniMax provider test succeeded.")
           ∧ (∀ params name text, params ∈ result.2 →
                transport params = inl (APIError name text (Some (Int 401))) →
                notification
                = ErrorMessage "Invalid API key. Please set a new key.")).
Proof.
  cbv zeta. split; [|split].
  - unfold testConnection.
    destruct (getApiKey host) as [[|c key]|].
    1, 3: case_bool_decide; simpl; lia.
    pose proof (streamChat_requests String_ (withoutToken transport)
                  (Some "MiniMax-M2.5") [UserMessage "Ping"]
                  (Some {| apiKey := Some (String c key);
                           maxTokens := Some (Int 1);
                           temperature := Some (Int 1); tools := None;
                           toolChoice := None; reasoningSplit := None |})).
    destruct (yielded _); [destruct (thrown _); [case_bool_decide|]|]; done.
  - unfold testConnection. intros [-> | ->]; by case_bool_decide.
  - intros key Hkey Hne. rewrite (testConnection_stored _ _ _ _ Hkey Hne).
    cbn [fst snd]. split; [done|]. eexists. split; [reflexivity|].
    split; [|split].
    + intros params Hparams.
      apply streamChat_params in Hparams as (_ & key' & [= <-] & _ & ->).
      done.
    + intros params upstream Hparams Hsend Harrivals.
      apply streamChat_params in Hparams as [Hparams _].
      pose proof (streamChat_run String_ (withoutToken transport) _ _ _
                    params Hparams) as (_ & _ & _ & _ & _ & _ & Hrun).
      unfold withoutToken in Hrun at 1. rewrite Hsend in Hrun.
      destruct Hrun as [-> _]. cbn [arrivals].
      by destruct (arrivals upstream) as [|[? ?] ?].
    + intros params name text Hparams Hsend.
      apply streamChat_params in Hparams as [Hparams _].
      pose proof (streamChat_run String_ (withoutToken transport) _ _ _
                    params Hparams) as (_ & _ & _ & _ & _ & _ & Hrun).
      unfold withoutToken in Hrun at 1. rewrite Hsend in Hrun.
      by destruct Hrun as [-> ->].
Qed.

End Platform.

Lemma testConnection_reports_witness :
  let host := {| secrets := {[ API_KEY_SECRET_KEY := "sk-1" ]};
                 notifications := [] |} in
  secrets (testConnection (λ _, "") (rejectingTransport 401) None None host).1
  = secrets host
  ∧ testConnection (λ _, "") breakingTransport None None host
    = (notify (Information "MiniMax provider test succeeded.") host,
       (testConnection (λ _, "") breakingTransport None None host).2).
Proof.
  cbv zeta. split; [|reflexivity].
  destruct (testConnection_reports (λ _, "") (rejectingTransport 401) None None
              {| secrets := {[ API_KEY_SECRET_KEY := "sk-1" ]};
                 notifications := [] |}) as (_ & _ & H).
  destruct (H "sk-1" eq_refl) as [Hsecrets _]; [done|]. exact Hsecrets.
Defined.

End ExtensionFacts.

(* ================================================================== *)
(** * Properties: reasoning updates *)
(* ================================================================== *)

Module ReasoningUpdateFacts.
Import JsString Wire MiniMaxClient MiniMaxProvider Spec.
Import JsStringFacts TrimFacts TrimShapeFacts NormalizerFacts.

Lemma readNonEmptyString_usableString (v : value) :
  readNonEmptyString v = usableString v.
Proof.
  destruct v as [| | | |s| |]; try done. simpl.
  unfold whitespaceOnly. case_decide as H; rewrite <- trim_empty in H.
  - by rewrite H.
  - by rewrite (proj2 (length_positive (trim s)) H).
Qed.

Lemma usableString_usable (v : value) (s : string) :
  usableString v = Some s → usable s.
Proof.
  destruct v as [| | | |raw| |]; try done. simpl.
  case_decide as H; [done|]. intros [= <-].
  apply trim_nonempty_usable. unfold whitespaceOnly in H.
  by rewrite trim_empty.
Qed.

Lemma orElse_firstUsable (a b c : value) :
  orElse (readNonEmptyString a)
    (orElse (readNonEmptyString b) (readNonEmptyString c))
  = firstUsable [a; b; c].
Proof.
  rewrite !readNonEmptyString_usableString. unfold firstUsable. simpl.
  by destruct (usableString a), (usableString b), (usableString c).
Qed.

Lemma latest_fold (details : list value) :
  foldl (λ latest detail,
           if negb (Js.isObjectLike detail) then latest
           else
             match Js.get detail "text" with
             | VStr candidate_text =>
                 let id :=
                   orElse (readNonEmptyString (Js.get detail "id"))
                     (orElse
                        (readNonEmptyString (Js.get detail "reasoning_id"))
                        (readNonEmptyString (Js.get detail "thinking_id"))) in
                 let metadata :=
                   match Js.get detail "metadata" with
                   | VObj m => Some m
                   | _ => None
                   end in
                 Some {| text := candidate_text; update_id := id;
                         update_metadata := metadata |}
             | _ => latest
             end) None details
  = updateOf <$> last (filter (λ detail, is_Some (detailText detail)) details).
Proof.
  induction details as [|detail details IH] using rev_ind; [done|].
  rewrite foldl_app, filter_app, IH. cbn [foldl].
  destruct (Js.isObjectLike detail) eqn:Hobj; cbn [negb].
  - destruct (Js.get detail "text") as [| | | |t| |] eqn:Htext;
      try (rewrite filter_cons_False
             by (unfold detailText; rewrite Htext; by intros [? ?]);
           by rewrite filter_nil, app_nil_r).
    rewrite filter_cons_True
      by (unfold detailText; rewrite Htext; by eexists).
    rewrite filter_nil, last_snoc. cbn [fmap option_fmap option_map].
    unfold updateOf, detailText. rewrite Htext, orElse_firstUsable. done.
  - assert (Js.get detail "text" = VUndefined) as Htext
      by (by destruct detail).
    rewrite filter_cons_False
      by (unfold detailText; rewrite Htext; by intros [? ?]).
    by rewrite filter_nil, app_nil_r.
Qed.

(** X30.  The reasoning update of a choice comes from one detail: the
    last entry of [reasoning_details] that has a string text, whatever
    follows it.  The text, the id and the metadata of the update are
    those of this entry, never of another one; the id is the first of
    [id], [reasoning_id] and [thinking_id] that is more than white
    space, without the white space at its ends.  There is no update
    exactly when no entry has a text. *)
Theorem latest_reasoning_update (choice : Choice) :
  getLatestReasoningUpdate choice = updateOf <$> lastTextDetail choice
  ∧ (∀ update id, getLatestReasoningUpdate choice = Some update →
       update_id update = Some id → usable id)
  ∧ (∀ update, getLatestReasoningUpdate choice = Some update →
       ∃ detail, lastTextDetail choice = Some detail
                 ∧ detailText detail = Some (text update)).
Proof.
  assert (getLatestReasoningUpdate choice = updateOf <$> lastTextDetail choice)
    as Heq.
  { unfold getLatestReasoningUpdate, lastTextDetail.
    destruct (Js.get (delta choice) "reasoning_details"); try done.
    apply latest_fold. }
  split; [done|]. rewrite Heq. split.
  - intros update id Hupdate Hid.
    destruct (lastTextDetail choice) as [detail|]; [|done].
    injection Hupdate as <-. cbn [update_id updateOf] in Hid.
    unfold firstUsable in Hid.
    apply head_Some_elem_of, list_elem_of_omap in Hid as (v & _ & Hv).
    by eapply usableString_usable.
  - intros update Hupdate.
    destruct (lastTextDetail choice) as [detail|] eqn:Hlast; [|done].
    injection Hupdate as <-. exists detail. split; [done|].
    unfold lastTextDetail in Hlast.
    destruct (Js.get (delta choice) "reasoning_details"); try done.
    apply last_Some_elem_of, list_elem_of_filter in Hlast as [[t Ht] _].
    cbn [text updateOf]. by rewrite Ht.
Qed.

Lemma latest_reasoning_update_witness :
  ∃ update,
    getLatestReasoningUpdate
      (reasoningChoice
         [VObj {[ "text" := VStr "first"; "id" := VStr "a" ]};
          VObj {[ "text" := VStr "second"; "reasoning_id" := VStr " b " ]};
          VObj {[ "id" := VStr "c" ]}]) = Some update
    ∧ text update = "second" ∧ update_id update = Some "b" ∧ usable "b".
Proof.
  eexists. split; [reflexivity|]. split; [reflexivity|]. split; [reflexivity|].
  destruct (latest_reasoning_update
              (reasoningChoice
                 [VObj {[ "text" := VStr "first"; "id" := VStr "a" ]};
                  VObj {[ "text" := VStr "second";
                          "reasoning_id" := VStr " b " ]};
                  VObj {[ "id" := VStr "c" ]}])) as (_ & Husable & _).
  eapply Husable; reflexivity.
Defined.

End ReasoningUpdateFacts.
